(** * ONExplorer: the logistics-object form (src/components/LogisticsObjectForm.jsx)

    A shallow embedding of the data transformations of the form component:
    schema-to-field resolution ([generateFormFields]), the typed-value codec
    ([createTypedValue], [extractValue] and the two inline encoders and
    decoders of the component), the reference-option provider of [FormField]
    with its direct-input flag, the element-wise array editing, the fieldset
    merge and the debounced snapshot emission of [LogisticsObjectForm]. *)

From Stdlib Require Import ZArith Ascii String List Bool Lia.
From stdpp Require Import base strings gmap list pretty.

Local Open Scope string_scope.
Set Warnings "-register-all".

(** ** JavaScript values *)

Module JS.

(** A Number.  [Int z] is the Number nearest to the integer [z], the value
    of the literal [z]: an integer of magnitude below 2^53 is itself, a
    larger one is rounded to binary64 ([binary64]).  Both zeros are [Int 0].
    Every Number that is not integral, and each infinity, is carried by the
    text that [Number.prototype.toString] prints for it, which names it
    uniquely. *)
Inductive number : Type :=
| NaN
| Int (z : Z)
| Other (text : string).

(** JSON-shaped data plus [undefined].  An object is its list of own
    properties in the order [Object.keys] lists them; its prototype is
    [Object.prototype], an array's is [Array.prototype].  Of what these hand
    down, the conversion to a string ([ToString]) and the names that
    [Object.prototype] answers to ([Object_prototype]) are modelled; no value
    here is a function. *)
Inductive jsval : Type :=
| JUndefined
| JNull
| JBool (b : bool)
| JNum (n : number)
| JStr (s : string)
| JArr (items : list jsval)
| JObj (props : list (string * jsval)).

(** What a [throw] carries. *)
Inductive Result (A : Type) : Type :=
| Ok (a : A)
| Throw (error : string).
Arguments Ok {A} a.
Arguments Throw {A} error.

#[export] Instance Result_ret : MRet Result := fun A a => Ok a.
#[export] Instance Result_bind : MBind Result := fun A B f m =>
  match m with
  | Ok a => f a
  | Throw e => Throw e
  end.

(** *** Numbers *)

(** 2^53: below it every integer is a binary64 value. *)
Definition two53 : Z := 9007199254740992.

(** The binary64 value nearest to the integer [z], a tie going to the even
    significand; past the largest finite value, an infinity. *)
Definition binary64 (z : Z) : number :=
  let a := Z.abs z in
  if (a <? two53)%Z then Int z
  else
    let e := (Z.log2 a - 52)%Z in
    let q := (a / 2 ^ e)%Z in
    let r := (a mod 2 ^ e)%Z in
    let half := (2 ^ (e - 1))%Z in
    let up := (half <? r)%Z || ((r =? half)%Z && Z.odd q) in
    let m := ((if up then q + 1 else q) * 2 ^ e)%Z in
    if (2 ^ 1024 <=? m)%Z
    then Other (if (z <? 0)%Z then "-Infinity" else "Infinity")
    else Int (if (z <? 0)%Z then - m else m).

(** For a binary64 integer [a] >= 2^53 and a power [p] of ten: the multiple
    [y * 10^p] nearest to [a] among those that read back as [a], if there is
    one.  The reals that round to [a] reach half way to its two neighbours,
    the ends included when the significand of [a] is even; the bounds are
    kept as four times their value so as to stay integers. *)
Definition nearest_multiple (a p : Z) : option Z :=
  let e := (Z.log2 a - 52)%Z in
  let lo := (if a =? 2 ^ (52 + e) then 4 * a - 2 ^ e
             else 4 * a - 2 ^ (e + 1))%Z in
  let hi := (4 * a + 2 ^ (e + 1))%Z in
  let closed := Z.even (a / 2 ^ e) in
  let fits (y : Z) :=
    let x := (4 * y * 10 ^ p)%Z in
    if closed then (lo <=? x)%Z && (x <=? hi)%Z
    else (lo <? x)%Z && (x <? hi)%Z in
  let down := (a / 10 ^ p)%Z in
  let up := (down + 1)%Z in
  let twice := (2 * (a mod 10 ^ p))%Z in
  let down_is_nearer :=
    (twice <? 10 ^ p)%Z || ((twice =? 10 ^ p)%Z && Z.even down) in
  match fits down, fits up with
  | true, true => Some (if down_is_nearer then down else up)
  | true, false => Some down
  | false, true => Some up
  | false, false => None
  end.

(** The shortest decimal that reads back as [a]: its digits, as a number
    that does not end in 0, and the power of ten that scales them.  Of the
    decimals of that length the nearest to [a] is taken, as the engines
    do. *)
Fixpoint shortest (p : nat) (a : Z) : Z * Z :=
  match nearest_multiple a (Z.of_nat p) with
  | Some y => (y, Z.of_nat p)
  | None =>
      match p with
      | O => (a, 0%Z)
      | S p' => shortest p' a
      end
  end.

Fixpoint zeros (n : nat) : string :=
  match n with
  | O => ""
  | S n' => String "0" (zeros n')
  end.

(** [Number.prototype.toString] of a binary64 integer: its decimal digits
    below 2^53; from there on the shortest digits that read back as the
    number, followed by zeros up to 21 digits in all, and in exponent
    notation from 10^21 on. *)
Definition integer_text (z : Z) : string :=
  let a := Z.abs z in
  if (a <? two53)%Z then pretty z
  else
    let '(s, p) := shortest 400 a in
    let ds := pretty s in
    let n := (Z.of_nat (String.length ds) + p)%Z in
    let body :=
      if (n <=? 21)%Z then ds +:+ zeros (Z.to_nat p)
      else
        match ds with
        | String d "" => String d "" +:+ "e+" +:+ pretty (n - 1)%Z
        | String d rest => String d ("." +:+ rest) +:+ "e+" +:+ pretty (n - 1)%Z
        | "" => ""
        end in
    if (z <? 0)%Z then "-" +:+ body else body.

Definition number_toString (n : number) : string :=
  match n with
  | NaN => "NaN"
  | Int z =>
      match binary64 z with
      | Int x => integer_text x
      | Other text => text
      | NaN => "NaN"
      end
  | Other text => text
  end.

Arguments binary64 : simpl never.
Arguments number_toString : simpl never.

(** [a === b] on Numbers: NaN equals nothing. *)
Definition number_eqb (a b : number) : bool :=
  let value n := match n with Int z => binary64 z | _ => n end in
  match value a, value b with
  | Int x, Int y => (x =? y)%Z
  | Other x, Other y => (x =? y)
  | _, _ => false
  end.

(** ToBoolean *)
Definition truthy (v : jsval) : bool :=
  match v with
  | JUndefined | JNull => false
  | JBool b => b
  | JNum NaN => false
  | JNum (Int z) => negb (z =? 0)%Z
  | JNum (Other _) => true
  | JStr s => negb (s =? "")
  | JArr _ | JObj _ => true
  end.

(** [a || b] *)
Definition or_else (a b : jsval) : jsval := if truthy a then a else b.

(** *** Conversion to a string *)

Definition has_own (key : string) (props : list (string * jsval)) : bool :=
  existsb (fun p => fst p =? key) props.

(** Whether [String(v)] returns.  An object is converted by the first of its
    [toString] and [valueOf] that is a function and answers a primitive.  A
    plain object inherits both: [Object.prototype.toString] answers
    "[object Object]", [Object.prototype.valueOf] the object itself.  A
    property of its own named "toString" hides the first and, being data, is
    no function; [valueOf], its own or inherited, then yields no primitive
    either, and the conversion throws a TypeError.  An array is converted by
    [Array.prototype.join], which converts each element in turn. *)
Fixpoint printable (v : jsval) : bool :=
  match v with
  | JArr items => forallb printable items
  | JObj props => negb (has_own "toString" props)
  | _ => true
  end.

(** What [String(v)] returns when it does; an array joins its elements with
    commas, [null] and [undefined] elements printing as nothing. *)
Fixpoint text (v : jsval) : string :=
  match v with
  | JUndefined => "undefined"
  | JNull => "null"
  | JBool true => "true"
  | JBool false => "false"
  | JNum n => number_toString n
  | JStr s => s
  | JArr items =>
      (fix join (l : list jsval) : string :=
         match l with
         | [] => ""
         | x :: rest =>
             let e := match x with
                      | JUndefined | JNull => ""
                      | _ => text x
                      end in
             match rest with
             | [] => e
             | _ :: _ => e +:+ "," +:+ join rest
             end
         end) items
  | JObj _ => "[object Object]"
  end.

(** [String(v)] *)
Definition ToString (v : jsval) : Result string :=
  if printable v then Ok (text v)
  else Throw "TypeError: Cannot convert object to primitive value".

(** [a === b].  Two objects (or arrays) are equal only when they are the same
    allocation; the comparisons of this component are between a value of the
    record and a freshly loaded option, which never are. *)
Definition strict_eq (a b : jsval) : bool :=
  match a, b with
  | JUndefined, JUndefined => true
  | JNull, JNull => true
  | JBool x, JBool y => Bool.eqb x y
  | JNum x, JNum y => number_eqb x y
  | JStr x, JStr y => (x =? y)
  | _, _ => false
  end.

(** *** parseInt(v, 10) *)

(** White space among the characters below 256: tab to carriage return,
    space and the no-break space. *)
Definition is_white (c : ascii) : bool :=
  let n := nat_of_ascii c in
  (Nat.leb 9 n && Nat.leb n 13) || Nat.eqb n 32 || Nat.eqb n 160.

Fixpoint skip_white (s : string) : string :=
  match s with
  | String c rest => if is_white c then skip_white rest else s
  | EmptyString => s
  end.

Definition digit_of (c : ascii) : option Z :=
  let n := nat_of_ascii c in
  if Nat.leb 48 n && Nat.leb n 57 then Some (Z.of_nat n - 48)%Z else None.

(** The longest prefix of decimal digits, as a number; [None] when empty. *)
Fixpoint digits (acc : option Z) (s : string) : option Z :=
  match s with
  | String c rest =>
      match digit_of c with
      | Some d => digits (Some (10 * default 0%Z acc + d)%Z) rest
      | None => acc
      end
  | EmptyString => acc
  end.

(** [parseInt] of a string: white space, a sign, then the digits, read
    exactly and rounded once. *)
Definition parseInt10 (s : string) : number :=
  let s := skip_white s in
  let '(negative, body) :=
    match s with
    | String "-" rest => (true, rest)
    | String "+" rest => (false, rest)
    | _ => (false, s)
    end in
  match digits None body with
  | None => NaN
  | Some m => binary64 (if negative then - m else m)
  end.

Definition parseInt (v : jsval) : Result number :=
  s ← ToString v; Ok (parseInt10 s).

Arguments parseInt : simpl never.

(** *** Properties *)

Definition lookup_prop (key : string) (props : list (string * jsval))
  : option jsval :=
  snd <$> List.find (fun p => fst p =? key) props.

(** The number of an array index: a key that is the decimal text, without a
    leading zero, of an integer from 0 to 2^32 - 2. *)
Definition array_index (key : string) : option Z :=
  match digits None key with
  | Some n =>
      if (pretty n =? key) && (n <=? 4294967294)%Z then Some n else None
  | None => None
  end.

(** Whether a new key is listed before the existing key [k]: an object lists
    its array indices first, in ascending order, then its other keys in the
    order they were created. *)
Definition precedes (key k : string) : bool :=
  match array_index key, array_index k with
  | Some n, Some m => (n <? m)%Z
  | Some _, None => true
  | None, _ => false
  end.

Fixpoint add_prop (key : string) (v : jsval) (props : list (string * jsval))
  : list (string * jsval) :=
  match props with
  | [] => [(key, v)]
  | (k, w) :: rest =>
      if precedes key k then (key, v) :: props
      else (k, w) :: add_prop key v rest
  end.

Fixpoint replace_prop (key : string) (v : jsval)
    (props : list (string * jsval)) : list (string * jsval) :=
  match props with
  | [] => []
  | (k, w) :: rest =>
      if k =? key then (key, v) :: rest else (k, w) :: replace_prop key v rest
  end.

(** [{...o, [key]: v}] on the property list: an existing key keeps its
    place, a new one takes the place its kind gives it. *)
Definition set_prop (key : string) (v : jsval) (props : list (string * jsval))
  : list (string * jsval) :=
  if has_own key props then replace_prop key v props
  else add_prop key v props.

(** The names [Object.prototype] answers to.  A property read under one of
    them, on a plain object that has none of its own by that name, is the
    inherited member: a function, or for "__proto__" the prototype itself;
    each is truthy and is no array. *)
Definition Object_prototype : list string :=
  ["constructor"; "hasOwnProperty"; "isPrototypeOf"; "propertyIsEnumerable";
   "toLocaleString"; "toString"; "valueOf"; "__proto__";
   "__defineGetter__"; "__defineSetter__"; "__lookupGetter__";
   "__lookupSetter__"].

Fixpoint chars (s : string) : list jsval :=
  match s with
  | EmptyString => []
  | String c rest => JStr (String c EmptyString) :: chars rest
  end.

Definition indexed (items : list jsval) : list (string * jsval) :=
  imap (fun i x => (pretty i, x)) items.

(** The own enumerable properties, the ones [{...v}] copies. *)
Definition own (v : jsval) : list (string * jsval) :=
  match v with
  | JObj props => props
  | JArr items => indexed items
  | JStr s => indexed (chars s)
  | _ => []
  end.

(** [v[key]] for a key that names an own property or nothing at all: a
    TypeError on [undefined] and [null].  A key that names an inherited
    member ([Object_prototype], or a method of a string or an array) finds a
    function, which no [jsval] is; statements that compare reads are made of
    own properties, or of values with the same prototype. *)
Definition get (v : jsval) (key : string) : Result jsval :=
  match v with
  | JUndefined | JNull =>
      Throw ("TypeError: Cannot read properties of " +:+ text v)
  | JArr items =>
      if key =? "length" then Ok (JNum (Int (Z.of_nat (length items))))
      else Ok (default JUndefined (lookup_prop key (own v)))
  | JStr s =>
      if key =? "length" then Ok (JNum (Int (Z.of_nat (String.length s))))
      else Ok (default JUndefined (lookup_prop key (own v)))
  | _ => Ok (default JUndefined (lookup_prop key (own v)))
  end.

(** [v?.[key]] *)
Definition get_opt (v : jsval) (key : string) : Result jsval :=
  match v with
  | JUndefined | JNull => Ok JUndefined
  | _ => get v key
  end.

(** The value of [v?.[key]], which never throws. *)
Definition read (v : jsval) (key : string) : jsval :=
  match get v key with
  | Ok x => x
  | Throw _ => JUndefined
  end.

(** What the program needs of its host: [parseFloat] on the argument's text
    and [Date.parse], which reads a zone-less date in the local time zone. *)
Record Host : Type := {
  parseFloat : string -> number;
  Date_parse : string -> number
}.

End JS.
Import JS.

(** A host to run examples on: it reads integer literals, and no date. *)
Definition integral_host : Host :=
  {| parseFloat := parseInt10;
     Date_parse := fun _ => NaN |}.

(** ** The typed-value codec *)

Definition xsd_boolean : string := "http://www.w3.org/2001/XMLSchema#boolean".
Definition xsd_integer : string := "http://www.w3.org/2001/XMLSchema#integer".
Definition xsd_double : string := "http://www.w3.org/2001/XMLSchema#double".
Definition xsd_dateTime : string := "http://www.w3.org/2001/XMLSchema#dateTime".

(** [{'@type': tag, '@value': text}] *)
Definition tagged (tag text : string) : jsval :=
  JObj [("@type", JStr tag); ("@value", JStr text)].

(** [String(v === 'true' || v === true)] *)
Definition boolean_text (v : jsval) : string :=
  text (JBool (strict_eq v (JStr "true") || strict_eq v (JBool true))).

(** The default of a parameter declared [val = '']. *)
Definition or_default (val : jsval) : jsval :=
  match val with
  | JUndefined => JStr ""
  | _ => val
  end.

Section Codec.

Variable host : Host.

(** [Date.parse(v).toString()] *)
Definition date_text (v : jsval) : Result string :=
  s ← ToString v; Ok (number_toString (Date_parse host s)).

(** [createTypedValue(val = '', dataType)], the encoder of array elements. *)
Definition createTypedValue (val : jsval) (dataType : string)
  : Result jsval :=
  let val := or_default val in
  if dataType =? "url" then Ok (JObj [("@id", val)])
  else if dataType =? "boolean" then
    Ok (tagged xsd_boolean (boolean_text val))
  else if dataType =? "integer" then
    s ← ToString val; Ok (tagged xsd_integer s)
  else if dataType =? "double" then
    s ← ToString val; Ok (tagged xsd_double s)
  else if dataType =? "datetime" then
    s ← date_text val; Ok (tagged xsd_dateTime s)
  else Ok val.

(** [extractValue(typedValue, dataType)], the decoder of array elements. *)
Definition extractValue (typedValue : jsval) (dataType : string)
  : Result jsval :=
  if negb (truthy typedValue) then Ok (JStr "")
  else if dataType =? "url" then
    v ← get typedValue "@id"; Ok (or_else v (JStr ""))
  else if (dataType =? "boolean") || (dataType =? "integer")
          || (dataType =? "double") || (dataType =? "datetime") then
    v ← get typedValue "@value"; Ok (or_else v (JStr ""))
  else Ok typedValue.

(** The encoder inside the [onChange] of a fieldset child
    ([switch (subField.dataType)], lines 368-400). *)
Definition childTypedValue (newValue : jsval) (dataType : string)
  : Result jsval :=
  if dataType =? "url" then Ok (JObj [("@id", newValue)])
  else if dataType =? "boolean" then
    Ok (tagged xsd_boolean (boolean_text newValue))
  else if dataType =? "integer" then
    n ← parseInt newValue; Ok (tagged xsd_integer (number_toString n))
  else if dataType =? "double" then
    s ← ToString newValue;
    Ok (tagged xsd_double (number_toString (parseFloat host s)))
  else if dataType =? "datetime" then
    s ← date_text newValue; Ok (tagged xsd_dateTime s)
  else Ok newValue.

(** The decoder that feeds a fieldset child its value (lines 349-364):
    [value?.[name]?.['@id'] || ''] and the like. *)
Definition childValue (value : jsval) (name dataType : string)
  : Result jsval :=
  child ← get_opt value name;
  if dataType =? "url" then
    v ← get_opt child "@id"; Ok (or_else v (JStr ""))
  else if dataType =? "boolean" then
    v ← get_opt child "@value"; Ok (JBool (strict_eq v (JStr "true")))
  else if dataType =? "integer" then
    v ← get_opt child "@value";
    n ← parseInt (or_else v (JStr "0")); Ok (JNum n)
  else if dataType =? "double" then
    v ← get_opt child "@value";
    s ← ToString (or_else v (JStr "0")); Ok (JNum (parseFloat host s))
  else if dataType =? "datetime" then
    v ← get_opt child "@value"; Ok (or_else v (JStr ""))
  else Ok child.

(** An element written and shown again:
    [extractValue(createTypedValue(val, dataType), dataType)]. *)
Definition roundTrip (val : jsval) (dataType : string) : Result jsval :=
  typedValue ← createTypedValue val dataType;
  extractValue typedValue dataType.

End Codec.

(** A host that reads two dates, each as ECMAScript prescribes: a date-time
    with its zone, and a year alone, which is the midnight, UTC, that opens
    it. *)
Definition iso_host : Host :=
  {| parseFloat := parseInt10;
     Date_parse := fun s =>
       if s =? "1970-01-01T00:00:01Z" then Int 1000
       else if s =? "1000" then Int (-30610224000000)
       else NaN |}.

(** ** Schema resolution *)

(** One column of a schema document. *)
Module Column.
Record t : Type := {
  name : string;
  description : string;
  type : string;
  schemaType : string;
  array : bool;
  valueIRI : string;
  codelist : bool
}.
End Column.

(** A field descriptor, as [generateFormFields] builds it; [fields],
    [options] and [referenceType] are absent unless a branch sets them. *)
Inductive Field : Type := mkField {
  name : string;
  label : string;
  type : string;
  schemaType : string;
  array : bool;
  required : bool;
  description : string;
  valueIRI : string;
  codelist : bool;
  dataType : string;
  fields : option (list Field);
  options : option (list jsval);
  referenceType : option string
}.

Definition basicTypes : list string :=
  ["string"; "boolean"; "integer"; "double"; "datetime"].

(** [String.prototype.toLowerCase] on the ASCII letters, the only ones whose
    lowering can meet a word of [basicTypes]. *)
Definition lower (c : ascii) : ascii :=
  let n := nat_of_ascii c in
  if Nat.leb 65 n && Nat.leb n 90 then ascii_of_nat (n + 32) else c.

Fixpoint toLowerCase (s : string) : string :=
  match s with
  | EmptyString => EmptyString
  | String c rest => String (lower c) (toLowerCase rest)
  end.

Definition includes (l : list string) (s : string) : bool :=
  existsb (String.eqb s) l.

(** The object literal that opens the loop body, with the [dataType] the
    [switch] assigns. *)
Definition newField (column : Column.t) (dataType : string) : Field :=
  {| name := Column.name column;
     label := if Column.name column =? "" then Column.description column
              else Column.name column;
     type := Column.type column;
     schemaType := Column.schemaType column;
     array := Column.array column;
     required := false;
     description := Column.description column;
     valueIRI := Column.valueIRI column;
     codelist := Column.codelist column;
     dataType := dataType;
     fields := None;
     options := None;
     referenceType := None |}.

Definition with_fields (children : list Field) (f : Field) : Field :=
  mkField (name f) (label f) (type f) (schemaType f) (array f) (required f)
    (description f) (valueIRI f) (codelist f) (dataType f) (Some children)
    (options f) (referenceType f).

Definition with_select (f : Field) : Field :=
  mkField (name f) (label f) "select" (schemaType f) (array f) (required f)
    (description f) (valueIRI f) (codelist f) (dataType f) (fields f)
    (Some []) (referenceType f).

Definition with_referenceType (r : string) (f : Field) : Field :=
  mkField (name f) (label f) (type f) (schemaType f) (array f) (required f)
    (description f) (valueIRI f) (codelist f) (dataType f) (fields f)
    (options f) (Some r).

(** The [default] branch of the [switch (column.schemaType)]. *)
Definition plainField (column : Column.t) : Field :=
  let t := toLowerCase (Column.type column) in
  if includes basicTypes t then
    if t =? "boolean" then newField column "boolean"
    else if t =? "integer" then newField column "integer"
    else if t =? "double" then newField column "double"
    else if t =? "datetime" then newField column "datetime-local"
    else newField column "text"
  else with_referenceType (Column.type column) (newField column "url").

(** What [console.error] receives in the [catch] of the Embedded branch. *)
Definition schemaLoadError (column : Column.t) : string :=
  "Error loading embedded schema for " +:+ Column.type column +:+ ":".

(** [generateFormFields(columns)].  [assets] holds the columns of every
    [Embedded.<type>.json] that can be imported; a missing key is an import
    that fails.  The result pairs the fields with the lines logged.  [fuel]
    bounds the nesting of embedded schemas: [None] is a resolution that never
    settles, as for a schema embedded in itself. *)
Fixpoint generateFormFields (assets : gmap string (list Column.t))
    (fuel : nat) {struct fuel}
  : list Column.t -> option (list Field * list string) :=
  fix loop (columns : list Column.t) : option (list Field * list string) :=
    match columns with
    | [] => Some ([], [])
    | column :: rest =>
        resolved ←
          (if Column.schemaType column =? "Embedded" then
             match assets !! Column.type column with
             | Some embedded =>
                 match fuel with
                 | O => None
                 | S fuel' =>
                     '(children, log) ←
                       generateFormFields assets fuel' embedded;
                     Some (with_fields children (newField column "fieldset"),
                           log)
                 end
             | None =>
                 Some (newField column "fieldset", [schemaLoadError column])
             end
           else if Column.schemaType column =? "Enum" then
             Some (with_select (newField column "url"), [])
           else Some (plainField column, []));
        '(others, log') ← loop rest;
        Some (resolved.1 :: others, (resolved.2 ++ log')%list)
    end.

(** One turn of the loop of [generateFormFields]: the field pushed for
    [column] and the lines logged on the way. *)
Definition resolveColumn (assets : gmap string (list Column.t)) (fuel : nat)
    (column : Column.t) : option (Field * list string) :=
  if Column.schemaType column =? "Embedded" then
    match assets !! Column.type column with
    | Some embedded =>
        match fuel with
        | O => None
        | S fuel' =>
            '(children, log) ← generateFormFields assets fuel' embedded;
            Some (with_fields children (newField column "fieldset"), log)
        end
    | None => Some (newField column "fieldset", [schemaLoadError column])
    end
  else if Column.schemaType column =? "Enum" then
    Some (with_select (newField column "url"), [])
  else Some (plainField column, []).

(** The embedded schemas nest to a finite depth: [rank] falls along every
    import. *)
Definition ranked (assets : gmap string (list Column.t))
    (rank : string -> nat) : Prop :=
  forall t embedded column,
    assets !! t = Some embedded ->
    In column embedded ->
    Column.schemaType column = "Embedded" ->
    rank (Column.type column) < rank t.

(** Fuel enough for [columns]: more than the rank of every schema they
    embed. *)
Definition enough (rank : string -> nat) (columns : list Column.t) : nat :=
  S (list_max ((fun column => rank (Column.type column)) <$> columns)).

Definition missing_column : Column.t :=
  {| Column.name := "address"; Column.description := "";
     Column.type := "Missing"; Column.schemaType := "Embedded";
     Column.array := false; Column.valueIRI := "https://example.org/Address";
     Column.codelist := false |}.

Definition title_column : Column.t :=
  {| Column.name := "title"; Column.description := "";
     Column.type := "String"; Column.schemaType := "Plain";
     Column.array := false; Column.valueIRI := "https://example.org/title";
     Column.codelist := false |}.

Definition consignment_column : Column.t :=
  {| Column.name := "consignment"; Column.description := "";
     Column.type := "Consignment"; Column.schemaType := "Plain";
     Column.array := false;
     Column.valueIRI := "https://example.org/Consignment";
     Column.codelist := false |}.

(** ** FormField: arrays and fieldsets *)

(** [Array.isArray(value) ? value : value ? [value] : []] *)
Definition arrayValue (value : jsval) : list jsval :=
  match value with
  | JArr items => items
  | _ => if truthy value then [value] else []
  end.

(** [a[index] = x] on a copy: past the end, JavaScript extends the array. *)
Definition assign (index : nat) (x : jsval) (a : list jsval) : list jsval :=
  if Nat.ltb index (length a) then <[index := x]> a
  else (a ++ replicate (index - length a) JUndefined ++ [x])%list.

Section FormField.

Variable host : Host.

(** The value each element's own [FormField] is given. *)
Definition itemValues (field : Field) (value : jsval)
  : list (Result jsval) :=
  (fun item => extractValue item (dataType field)) <$> arrayValue value.

(** The [onChange] of the element at [index]; the result goes to the
    field's own [onChange]. *)
Definition itemChange (field : Field) (value : jsval) (index : nat)
    (newValue : jsval) : Result jsval :=
  encoded ← createTypedValue host newValue (dataType field);
  Ok (JArr (assign index encoded (arrayValue value))).

(** The remove button of the element at [index]: [splice(index, 1)]. *)
Definition itemRemove (value : jsval) (index : nat) : jsval :=
  JArr (delete index (arrayValue value)).

(** The "Add Item" button. *)
Definition itemAdd (field : Field) (value : jsval) : Result jsval :=
  encoded ← createTypedValue host (JStr "") (dataType field);
  Ok (JArr (arrayValue value ++ [encoded])%list).

(** The [onChange] of the child [subField] of the fieldset [field]:
    [{...value, '@type': field.valueIRI, [subField.name]: processedValue}]. *)
Definition fieldsetValue (field subField : Field) (value newValue : jsval)
  : Result jsval :=
  processedValue ← childTypedValue host newValue (dataType subField);
  Ok (JObj (set_prop (name subField) processedValue
              (set_prop "@type" (JStr (valueIRI field)) (own value)))).

End FormField.

(** ** FormField: reference options and the direct-input flag *)

(** One entry of a list of [codelists.json]. *)
Module CodelistItem.
Record t : Type := {
  id : string;
  description : string
}.
End CodelistItem.

(** The four [useState] cells of a [FormField]. *)
Record FieldState : Type := {
  referenceOptions : list jsval;
  loading : bool;
  dropdownOpen : bool;
  useDirectInput : bool
}.

Definition initialFieldState : FieldState :=
  {| referenceOptions := [];
     loading := false;
     dropdownOpen := false;
     useDirectInput := false |}.

(** What an effect or a handler of the field can do: call a state setter,
    log, or report a new value to the parent through [onChange]. *)
Inductive Action : Type :=
| SetReferenceOptions (opts : list jsval)
| SetLoading (b : bool)
| SetDropdownOpen (b : bool)
| SetUseDirectInput (b : bool)
| ConsoleError (message : string)
| OnChange (v : jsval).

Definition perform (s : FieldState) (a : Action) : FieldState :=
  match a with
  | SetReferenceOptions opts =>
      {| referenceOptions := opts; loading := loading s;
         dropdownOpen := dropdownOpen s; useDirectInput := useDirectInput s |}
  | SetLoading b =>
      {| referenceOptions := referenceOptions s; loading := b;
         dropdownOpen := dropdownOpen s; useDirectInput := useDirectInput s |}
  | SetDropdownOpen b =>
      {| referenceOptions := referenceOptions s; loading := loading s;
         dropdownOpen := b; useDirectInput := useDirectInput s |}
  | SetUseDirectInput b =>
      {| referenceOptions := referenceOptions s; loading := loading s;
         dropdownOpen := dropdownOpen s; useDirectInput := b |}
  | ConsoleError _ | OnChange _ => s
  end.

Definition perform_all (actions : list Action) (s : FieldState)
  : FieldState :=
  fold_left perform actions s.


(** [opts.some(option => option['@id'] === value)] *)
Fixpoint some_id (value : jsval) (opts : list jsval) : Result bool :=
  match opts with
  | [] => Ok false
  | option :: rest =>
      id ← get option "@id";
      if strict_eq id value then Ok true else some_id value rest
  end.

(** The effect on [value, referenceOptions, loading] (lines 164-172). *)
Definition directInputEffect (field : Field) (value : jsval) (s : FieldState)
  : Result (list Action) :=
  if (dataType field =? "url") && truthy value then
    valueExists ← some_id value (referenceOptions s);
    if negb valueExists && negb (loading s)
    then Ok [SetUseDirectInput true]
    else Ok []
  else Ok [].

(** [s.split(sep)] for a one-character separator. *)
Fixpoint split (sep : ascii) (s : string) : list string :=
  match s with
  | EmptyString => [EmptyString]
  | String c rest =>
      if Ascii.eqb c sep then EmptyString :: split sep rest
      else match split sep rest with
           | piece :: pieces => String c piece :: pieces
           | [] => [String c EmptyString]
           end
  end.

(** [field.valueIRI.split('#')[1]], as the property key it is used as: a
    missing second piece is [undefined], which reads the key "undefined". *)
Definition codelistName (field : Field) : string :=
  default "undefined" (split "#" (valueIRI field) !! 1%nat).

(** One codelist entry as an option (lines 184-189). *)
Definition codelistOption (field : Field) (item : CodelistItem.t) : jsval :=
  JObj [("@id", JStr (CodelistItem.id item));
        ("@type", JStr (valueIRI field));
        ("description", JStr (CodelistItem.description item));
        ("id", JStr (CodelistItem.id item))].

(** [(codelists.default[codelistName] || []).map(item => ...)].  [codelists]
    holds the properties of the table's own.  Under a name the table lacks,
    the property read is [undefined], or the member the table inherits under
    that name, of which [map] is no function. *)
Definition codelistValues (field : Field)
    (codelists : gmap string (list CodelistItem.t)) : Result (list jsval) :=
  match codelists !! codelistName field with
  | Some entries => Ok (codelistOption field <$> entries)
  | None =>
      if includes Object_prototype (codelistName field)
      then Throw "TypeError: (codelists.default[codelistName] || []).map is not a function"
      else Ok []
  end.

(** [(response['@graph'] || [response]).filter(obj => obj &&
    Object.keys(obj).length > 0)]; [filter] is not a function of anything but
    an array. *)
Definition responseObjects (response : jsval) : Result (list jsval) :=
  graph ← get response "@graph";
  match or_else graph (JArr [response]) with
  | JArr items =>
      Ok (List.filter
            (fun obj => truthy obj && Nat.ltb 0 (length (own obj))) items)
  | _ => Throw "TypeError: filter is not a function"
  end.

(** The statements of the [try] block once the options are at hand: what
    they do, and the error that cuts them short, if any. *)
Definition optionsLoaded (value : jsval) (opts : list jsval)
  : list Action * option string :=
  if truthy value then
    match some_id value opts with
    | Ok found =>
        (SetReferenceOptions opts
         :: (if negb found then [SetUseDirectInput true] else []), None)
    | Throw e => ([SetReferenceOptions opts], Some e)
    end
  else ([SetReferenceOptions opts], None).

(** [loadReferenceOptions()], from the call to the end of [finally].
    [codelists] is the outcome of importing [codelists.json] and [response]
    the outcome of [getLogisticsObjects]; either may throw. *)
Definition loadReferenceOptions (field : Field) (value : jsval)
    (codelists : Result (gmap string (list CodelistItem.t)))
    (response : Result jsval) (s : FieldState) : list Action :=
  if negb (dropdownOpen s)
     || strict_eq (JBool (negb (truthy (JStr (dataType field))))) (JStr "url")
  then []
  else
    let attempt : list Action * option string :=
      if codelist field then
        match codelists ≫= codelistValues field with
        | Ok codelistValues => optionsLoaded value codelistValues
        | Throw e => ([], Some e)
        end
      else
        match response ≫= responseObjects with
        | Ok objects => optionsLoaded value objects
        | Throw e => ([], Some e)
        end
    in
    (SetLoading true
     :: attempt.1
     ++ match attempt.2 with
        | None => []
        | Some e =>
            ConsoleError ("Error loading options for " +:+ name field +:+ ":")
            :: SetReferenceOptions []
            :: (if truthy value then [SetUseDirectInput true] else [])
        end
     ++ [SetLoading false])%list.

(** A load to its end, then the effect that the changed state triggers.
    While [loading] holds the effect does nothing, so only the run after
    [finally] counts. *)
Definition afterLoad (field : Field) (value : jsval)
    (codelists : Result (gmap string (list CodelistItem.t)))
    (response : Result jsval) (s : FieldState) : Result FieldState :=
  let s' := perform_all (loadReferenceOptions field value codelists response s) s in
  actions ← directInputEffect field value s';
  Ok (perform_all actions s').

(** The effect alone, when [value] changes. *)
Definition afterValueChange (field : Field) (value : jsval) (s : FieldState)
  : Result FieldState :=
  actions ← directInputEffect field value s;
  Ok (perform_all actions s).


(** [opts.some(option => option['@id'] === value)] when no option is
    [null] or [undefined]. *)
Definition id_matches (value : jsval) (opts : list jsval) : bool :=
  existsb (fun option => strict_eq (read option "@id") value) opts.

(** The options a finished load leaves in [referenceOptions]: the ones it
    read, or none when it failed. *)
Definition loadedOptions (field : Field)
    (codelists : Result (gmap string (list CodelistItem.t)))
    (response : Result jsval) : list jsval :=
  if codelist field then
    match codelists ≫= codelistValues field with
    | Ok codelistValues => codelistValues
    | Throw _ => []
    end
  else
    match response ≫= responseObjects with
    | Ok objects => objects
    | Throw _ => []
    end.

Definition consignment_field : Field :=
  {| name := "consignment"; label := "consignment"; type := "Consignment";
     schemaType := "Plain"; array := false; required := false;
     description := ""; valueIRI := "https://example.org/Consignment";
     codelist := false; dataType := "url"; fields := None; options := None;
     referenceType := Some "Consignment" |}.

Definition unit_field : Field :=
  {| name := "unit"; label := "unit"; type := "select";
     schemaType := "Enum"; array := false; required := false;
     description := ""; valueIRI := "http://example.org/codes#UnitType";
     codelist := true; dataType := "url"; fields := None; options := Some [];
     referenceType := None |}.


Definition sample_codelists : gmap string (list CodelistItem.t) :=
  {[ "UnitType" := [ {| CodelistItem.id := "KGM";
                        CodelistItem.description := "kilogram" |};
                     {| CodelistItem.id := "LTR";
                        CodelistItem.description := "litre" |} ];
     "Other" := [ {| CodelistItem.id := "X";
                     CodelistItem.description := "x" |} ] ]}.

Definition graph_AB : jsval :=
  JObj [("@graph", JArr [JObj [("@id", JStr "A")];
                         JObj [("@id", JStr "B")]])].

Definition dropdown_opened : FieldState :=
  perform initialFieldState (SetDropdownOpen true).

(** ** LogisticsObjectForm *)

Section Form.

Variable host : Host.

(** [useState(initialData || {})] *)
Definition initialFormData (initialData : jsval) : jsval :=
  or_else initialData (JObj []).

(** What [handleFieldChange] hands to [setFormData]: the updater
    [prevData => ({...prevData, [fieldName]: newValue})]. *)
Record Edit : Type := {
  fieldName : string;
  newValue : jsval
}.

Definition apply_edit (e : Edit) (prevData : jsval) : jsval :=
  JObj (set_prop (fieldName e) (newValue e) (own prevData)).

(** [handleFieldChange(fieldName, value, fieldDataType, fieldType)]: the
    call of [setFormData] it ends with, or the TypeError thrown on the way,
    before the state is touched. *)
Definition handleFieldChange (fieldName : string) (value : jsval)
    (fieldDataType fieldType : string) : Result Edit :=
  match value with
  | JArr _ => Ok {| fieldName := fieldName; newValue := value |}
  | _ =>
      newValue ←
        (if fieldDataType =? "url" then
           if negb (fieldType =? "fieldset") then Ok (JObj [("@id", value)])
           else Ok value
         else if fieldDataType =? "boolean" then
           Ok (tagged xsd_boolean (boolean_text value))
         else if fieldDataType =? "integer" then
           n ← parseInt value; Ok (tagged xsd_double (number_toString n))
         else if fieldDataType =? "double" then
           s ← ToString value;
           Ok (tagged xsd_double (number_toString (parseFloat host s)))
         else if fieldDataType =? "datetime-local" then
           s ← date_text host value; Ok (tagged xsd_dateTime s)
         else Ok value);
      Ok {| fieldName := fieldName; newValue := newValue |}
  end.

(** The value a top-level [FormField] is given (lines 570-590). *)
Definition fieldValue (formData : jsval) (field : Field) : Result jsval :=
  stored ← get formData (name field);
  if array field then Ok stored
  else if dataType field =? "url" then
    v ← get_opt stored "@id"; Ok (or_else v (JStr ""))
  else if dataType field =? "boolean" then
    v ← get_opt stored "@value"; Ok (JBool (strict_eq v (JStr "true")))
  else if dataType field =? "integer" then
    v ← get_opt stored "@value";
    n ← parseInt (or_else v (JStr "0")); Ok (JNum n)
  else if dataType field =? "double" then
    v ← get_opt stored "@value";
    s ← ToString (or_else v (JStr "0")); Ok (JNum (parseFloat host s))
  else if dataType field =? "datetime-local" then
    v ← get_opt stored "@value"; Ok (or_else v (JStr ""))
  else Ok stored.

(** The [onChange] the form gives a top-level field (line 592), as what it
    makes of the record. *)
Definition fieldOnChange (field : Field) (value prevData : jsval)
  : Result jsval :=
  e ← handleFieldChange (name field) value (dataType field) (type field);
  Ok (apply_edit e prevData).

(** *** The debounced emission

    Time is a count of milliseconds.  A record is an object, so a state cell
    holds an allocation: React compares the old and the new content of a
    cell by identity and runs an effect only when a dependency changed. *)

Record Allocated : Type := {
  ident : nat;
  contents : jsval
}.

Record Form : Type := {
  mounted : bool;
  now : nat;
  formData : Allocated;
  debouncedFormData : Allocated;
  (** the pending [setTimeout]: when it is due and the [formData] it holds *)
  timer : option (nat * Allocated);
  (** what [onSubmit] has been called with, oldest first *)
  submitted : list jsval;
  (** the next unused identity *)
  next : nat
}.

Definition delay : nat := 500.

(** The first render at time [t] and its effects: the timer is armed with
    the initial record and [onSubmit] receives it. *)
Definition mount (t : nat) (initialData : jsval) : Form :=
  let data := {| ident := 0; contents := initialFormData initialData |} in
  {| mounted := true; now := t;
     formData := data; debouncedFormData := data;
     timer := Some (t + delay, data);
     submitted := [contents data];
     next := 1 |}.

(** The timer's callback, [setDebouncedFormData(formData)], and the effect
    on [debouncedFormData] that follows when the cell's content changed. *)
Definition fire (held : Allocated) (f : Form) : Form :=
  if Nat.eqb (ident held) (ident (debouncedFormData f)) then
    {| mounted := mounted f; now := now f; formData := formData f;
       debouncedFormData := debouncedFormData f; timer := None;
       submitted := submitted f; next := next f |}
  else
    {| mounted := mounted f; now := now f; formData := formData f;
       debouncedFormData := held; timer := None;
       submitted := (submitted f ++ [contents held])%list; next := next f |}.

(** Time passes until [t]; a timer due by then runs. *)
Definition elapse (t : nat) (f : Form) : Form :=
  let f' :=
    match timer f with
    | Some (due, held) => if Nat.leb due t then fire held f else f
    | None => f
    end in
  {| mounted := mounted f'; now := Nat.max (now f) t; formData := formData f';
     debouncedFormData := debouncedFormData f'; timer := timer f';
     submitted := submitted f'; next := next f' |}.

(** An edit at time [t]: [setFormData] runs the updater and stores the
    fresh object it returns, and the effect on [formData] clears the pending
    timer and arms a new one. *)
Definition edit (t : nat) (e : Edit) (f : Form) : Form :=
  let f := elapse t f in
  if mounted f then
    let data := {| ident := next f;
                   contents := apply_edit e (contents (formData f)) |} in
    {| mounted := true; now := now f; formData := data;
       debouncedFormData := debouncedFormData f;
       timer := Some (now f + delay, data);
       submitted := submitted f; next := S (next f) |}
  else f.

(** The parent hands in another [onSubmit]: the effect on
    [debouncedFormData, onSubmit] runs again. *)
Definition newOnSubmit (t : nat) (f : Form) : Form :=
  let f := elapse t f in
  if mounted f then
    {| mounted := true; now := now f; formData := formData f;
       debouncedFormData := debouncedFormData f; timer := timer f;
       submitted := (submitted f ++ [contents (debouncedFormData f)])%list;
       next := next f |}
  else f.

(** The form goes away at time [t]: the cleanup clears the timer. *)
Definition unmount (t : nat) (f : Form) : Form :=
  let f := elapse t f in
  {| mounted := false; now := now f; formData := formData f;
     debouncedFormData := debouncedFormData f; timer := None;
     submitted := submitted f; next := next f |}.

Inductive Event : Type :=
| EditAt (t : nat) (e : Edit)
| NewOnSubmitAt (t : nat)
| UnmountAt (t : nat).

Definition step (f : Form) (ev : Event) : Form :=
  match ev with
  | EditAt t e => edit t e f
  | NewOnSubmitAt t => newOnSubmit t f
  | UnmountAt t => unmount t f
  end.

Definition run (events : list Event) (f : Form) : Form :=
  fold_left step events f.

(** A burst: successive edits, none before [t0], each less than [delay]
    after the one before it. *)
Fixpoint burst (t0 : nat) (edits : list (nat * Edit)) : Prop :=
  match edits with
  | [] => True
  | (t, _) :: rest => t0 <= t /\ t < t0 + delay /\ burst t rest
  end.

Definition edit_events (edits : list (nat * Edit)) : list Event :=
  (fun te => EditAt te.1 te.2) <$> edits.

(** The record after the edits, whatever their times. *)
Definition edited (edits : list (nat * Edit)) (data : jsval) : jsval :=
  fold_left (fun d te => apply_edit te.2 d) edits data.

End Form.

(** The time of the last edit of a burst that starts at [t]. *)
Definition last_time (t : nat) (edits : list (nat * Edit)) : nat :=
  List.last (fst <$> edits) t.

(** No timer is due by [t]. *)
Definition quiet (t : nat) (f : Form) : Prop :=
  match timer f with
  | Some (due, _) => t < due
  | None => True
  end.

(** What holds of every state of a form: identities in use are below
    [next], and a pending timer holds the current [formData]. *)
Definition consistent (f : Form) : Prop :=
  ident (debouncedFormData f) < next f
  /\ ident (formData f) < next f
  /\ forall due held, timer f = Some (due, held) -> held = formData f.

(** The update [handleFieldChange] makes of the input [n] to an integer
    field named "pieces". *)
Definition pieces_edit (n : Z) : Edit :=
  {| fieldName := "pieces"; newValue := tagged xsd_double (pretty n) |}.

Definition five_edits : list (nat * Edit) :=
  [(10, pieces_edit 1); (30, pieces_edit 12); (50, pieces_edit 123);
   (70, pieces_edit 1234); (90, pieces_edit 12345)].

(** ** Schema resolution as a relation

    [Resolved assets columns fs log]: resolving [columns] gives the fields
    [fs] and logs [log].  One rule per path through the loop body of
    [generateFormFields]. *)
Inductive Resolved (assets : gmap string (list Column.t))
  : list Column.t -> list Field -> list string -> Prop :=
| Resolved_nil : Resolved assets [] [] []
| Resolved_missing column rest others log :
    Column.schemaType column = "Embedded" ->
    assets !! Column.type column = None ->
    Resolved assets rest others log ->
    Resolved assets (column :: rest)
      (newField column "fieldset" :: others)
      (schemaLoadError column :: log)
| Resolved_embedded column embedded children lines rest others log :
    Column.schemaType column = "Embedded" ->
    assets !! Column.type column = Some embedded ->
    Resolved assets embedded children lines ->
    Resolved assets rest others log ->
    Resolved assets (column :: rest)
      (with_fields children (newField column "fieldset") :: others)
      (lines ++ log)%list
| Resolved_enum column rest others log :
    Column.schemaType column = "Enum" ->
    Resolved assets rest others log ->
    Resolved assets (column :: rest)
      (with_select (newField column "url") :: others) log
| Resolved_plain column rest others log :
    Column.schemaType column <> "Embedded" ->
    Column.schemaType column <> "Enum" ->
    Resolved assets rest others log ->
    Resolved assets (column :: rest) (plainField column :: others) log.

(** [P] holds of a field and of every field below it. *)
Fixpoint every (P : Field -> bool) (f : Field) : bool :=
  P f
  && match fields f with
     | Some children => forallb (every P) children
     | None => true
     end.

(** The data types [generateFormFields] assigns. *)
Definition dataTypes : list string :=
  ["fieldset"; "url"; "boolean"; "integer"; "double"; "datetime-local";
   "text"].

(** The attributes the loop copies from the column into the field. *)
Definition copied (column : Column.t) (f : Field) : Prop :=
  name f = Column.name column
  /\ label f = (if Column.name column =? "" then Column.description column
                else Column.name column)
  /\ schemaType f = Column.schemaType column
  /\ array f = Column.array column
  /\ required f = false
  /\ description f = Column.description column
  /\ valueIRI f = Column.valueIRI column
  /\ codelist f = Column.codelist column.

(** An embedded schema that embeds itself. *)
Definition embeds_itself (assets : gmap string (list Column.t)) (t : string)
  : Prop :=
  exists embedded column,
    assets !! t = Some embedded
    /\ In column embedded
    /\ Column.schemaType column = "Embedded"
    /\ Column.type column = t.

Definition weight_column : Column.t :=
  {| Column.name := "grossWeight"; Column.description := "";
     Column.type := "Value"; Column.schemaType := "Embedded";
     Column.array := false; Column.valueIRI := "https://example.org/Value";
     Column.codelist := false |}.

Definition amount_column : Column.t :=
  {| Column.name := "numericalValue"; Column.description := "";
     Column.type := "Double"; Column.schemaType := "Plain";
     Column.array := false; Column.valueIRI := "https://example.org/amount";
     Column.codelist := false |}.

Definition unit_column : Column.t :=
  {| Column.name := "unit"; Column.description := "";
     Column.type := "UnitCode"; Column.schemaType := "Enum";
     Column.array := false;
     Column.valueIRI := "http://example.org/codes#UnitType";
     Column.codelist := true |}.

Definition value_assets : gmap string (list Column.t) :=
  {[ "Value" := [amount_column; unit_column] ]}.

Definition part_column : Column.t :=
  {| Column.name := "part"; Column.description := "";
     Column.type := "Part"; Column.schemaType := "Embedded";
     Column.array := true; Column.valueIRI := "https://example.org/Part";
     Column.codelist := false |}.

Definition part_assets : gmap string (list Column.t) :=
  {[ "Part" := [title_column; part_column] ]}.

(** How many fieldsets, the field or below it, were left without [fields]. *)
Fixpoint childless (f : Field) : nat :=
  match fields f with
  | Some children => list_sum (List.map childless children)
  | None => if dataType f =? "fieldset" then 1 else 0
  end.

(** A data type [generateFormFields] assigns, and so not "datetime". *)
Definition assignable (f : Field) : bool :=
  includes dataTypes (dataType f) && negb (dataType f =? "datetime").

Definition datetime_column : Column.t :=
  {| Column.name := "departure"; Column.description := "";
     Column.type := "DateTime"; Column.schemaType := "Plain";
     Column.array := false; Column.valueIRI := "https://example.org/departure";
     Column.codelist := false |}.

Definition pieces_field : Field :=
  {| name := "pieces"; label := "pieces"; type := "integer";
     schemaType := "Plain"; array := false; required := false;
     description := ""; valueIRI := ""; codelist := false;
     dataType := "integer"; fields := None; options := None;
     referenceType := None |}.

Definition tags_field : Field :=
  {| name := "tags"; label := "tags"; type := "Tag";
     schemaType := "Plain"; array := true; required := false;
     description := ""; valueIRI := ""; codelist := false;
     dataType := "url"; fields := None; options := None;
     referenceType := Some "Tag" |}.

(** ** FormField: what rendering evaluates

    Rendering a field evaluates the value of each nested [FormField] before
    rendering it in turn.  The result is whether a TypeError is thrown on the
    way; the widgets themselves are not modelled. *)

(** The array branch: one [FormField] per element, given
    [extractValue(item, field.dataType)]. *)
Definition renderItems (renderElement : jsval -> Result unit)
    (dataType : string) : list jsval -> Result unit :=
  fix each (items : list jsval) : Result unit :=
    match items with
    | [] => Ok tt
    | item :: rest =>
        shown ← extractValue item dataType;
        _ ← renderElement shown;
        each rest
    end.

(** A field rendered with [array: false]: the reference, fieldset, boolean
    and text branches.  Only the fieldset branch evaluates more: it calls
    [field.fields.map], a TypeError when [fields] is [undefined]. *)
Fixpoint renderElement (host : Host) (field : Field) (value : jsval)
    {struct field} : Result unit :=
  if dataType field =? "url" then Ok tt
  else if dataType field =? "fieldset" then
    match fields field with
    | None =>
        Throw "TypeError: Cannot read properties of undefined (reading 'map')"
    | Some children =>
        (fix each (subs : list Field) : Result unit :=
           match subs with
           | [] => Ok tt
           | sub :: rest =>
               shown ← childValue host value (name sub) (dataType sub);
               _ ← (if array sub
                    then renderItems (renderElement host sub) (dataType sub)
                           (arrayValue shown)
                    else renderElement host sub shown);
               each rest
           end) children
    end
  else Ok tt.

(** [<FormField field value />] *)
Definition render (host : Host) (field : Field) (value : jsval)
  : Result unit :=
  if array field
  then renderItems (renderElement host field) (dataType field)
         (arrayValue value)
  else renderElement host field value.

(** The whole form: each top-level field with the value the form reads for
    it. *)
Fixpoint renderForm (host : Host) (formStructure : list Field)
    (formData : jsval) : Result unit :=
  match formStructure with
  | [] => Ok tt
  | field :: rest =>
      shown ← fieldValue host formData field;
      _ ← render host field shown;
      renderForm host rest formData
  end.

(** ** FormField over time

    What can happen to a mounted field: the parent passes another value, the
    dropdown opens (the options then load, to the end) or closes, the user
    flips the "Direct URL Input" switch. *)
Inductive FieldEvent : Type :=
| ValueChanged (value : jsval)
| DropdownOpened (codelists : Result (gmap string (list CodelistItem.t)))
    (response : Result jsval)
| DropdownClosed
| SwitchFlipped (checked : bool).

(** A mounted field: the [value] prop and the state cells. *)
Record MountedField : Type := {
  current : jsval;
  cells : FieldState
}.

(** The first render and the effect that follows it. *)
Definition fieldMount (field : Field) (value : jsval) : Result MountedField :=
  s ← afterValueChange field value initialFieldState;
  Ok {| current := value; cells := s |}.

Definition fieldStep (field : Field) (m : MountedField) (ev : FieldEvent)
  : Result MountedField :=
  match ev with
  | ValueChanged value =>
      s ← afterValueChange field value (cells m);
      Ok {| current := value; cells := s |}
  | DropdownOpened codelists response =>
      s ← afterLoad field (current m) codelists response
            (perform (cells m) (SetDropdownOpen true));
      Ok {| current := current m; cells := s |}
  | DropdownClosed =>
      Ok {| current := current m;
            cells := perform (cells m) (SetDropdownOpen false) |}
  | SwitchFlipped checked =>
      Ok {| current := current m;
            cells := perform (cells m) (SetUseDirectInput checked) |}
  end.

Fixpoint fieldRun (field : Field) (events : list FieldEvent)
    (m : MountedField) : Result MountedField :=
  match events with
  | [] => Ok m
  | ev :: rest => m' ← fieldStep field m ev; fieldRun field rest m'
  end.

(** What the filter of [responseObjects] keeps. *)
Definition kept (obj : jsval) : bool :=
  truthy obj && Nat.ltb 0 (length (own obj)).

(** [null] or [undefined]. *)
Definition nullish (v : jsval) : bool :=
  match v with
  | JUndefined | JNull => true
  | _ => false
  end.

(** What holds of a field between events: no option is [null] or
    [undefined], and no load is under way. *)
Definition settled (m : MountedField) : Prop :=
  Forall (fun option => truthy option = true) (referenceOptions (cells m))
  /\ loading (cells m) = false.

(** ** The form over time: what its states keep *)

(** Whether a pending timer will submit when it runs: 1 if it holds another
    object than [debouncedFormData], else 0. *)
Definition owed (f : Form) : nat :=
  match timer f with
  | Some (_, held) =>
      if Nat.eqb (ident held) (ident (debouncedFormData f)) then 0 else 1
  | None => 0
  end.

(** The events that can lead to a call of [onSubmit]. *)
Definition calls (events : list Event) : nat :=
  length (List.filter
            (fun ev => match ev with UnmountAt _ => false | _ => true end)
            events).

(** What every state of a form keeps besides [consistent]: equal identities
    are the same object; while mounted, either a timer is pending and due
    within [delay], or the record was handed over; and the last snapshot
    submitted is [debouncedFormData]. *)
Definition tracking (f : Form) : Prop :=
  consistent f
  /\ (ident (debouncedFormData f) = ident (formData f) ->
      debouncedFormData f = formData f)
  /\ (mounted f = true ->
      match timer f with
      | Some (due, _) => due <= now f + delay
      | None => debouncedFormData f = formData f
      end)
  /\ last (submitted f) = Some (contents (debouncedFormData f)).

(** ** LogisticsObjectForm: loading the form structure *)

(** The [objectType] prop: either it carries its schema, or the schema is
    imported from [<schema>.<name>.json]. *)
Module ObjectType.
Record t : Type := {
  fullSchema : option (list Column.t);
  schema : string;
  name : string
}.
End ObjectType.

(** The two state cells the form structure is loaded into. *)
Record FormView : Type := {
  formStructure : option (list Field);
  formLoading : bool;
  formLog : list string
}.

(** [useState(null)] and [useState(true)]. *)
Definition initialFormView : FormView :=
  {| formStructure := None; formLoading := true; formLog := [] |}.

(** The effect on [objectType] with [loadFormStructure], to its end.
    [imported] is the outcome of importing the top-level schema.  [None] is
    a load that never settles, so that [finally] is never reached. *)
Definition loadFormStructure (assets : gmap string (list Column.t))
    (fuel : nat) (imported : Result (list Column.t))
    (objectType : option ObjectType.t) : option FormView :=
  match objectType with
  | None => Some initialFormView
  | Some objectType =>
      let columns :=
        match ObjectType.fullSchema objectType with
        | Some columns => Ok columns
        | None => imported
        end in
      match columns with
      | Throw e =>
          Some {| formStructure := None; formLoading := false;
                  formLog := ["Error loading schema:"] |}
      | Ok columns =>
          '(fs, log) ← generateFormFields assets fuel columns;
          Some {| formStructure := Some fs; formLoading := false;
                  formLog := log |}
      end
  end.

(** What the form renders: the spinner while loading, then
    [formStructure?.map(...)]. *)
Definition renderView (host : Host) (view : FormView) (formData : jsval)
  : Result unit :=
  if formLoading view then Ok tt
  else match formStructure view with
       | Some fs => renderForm host fs formData
       | None => Ok tt
       end.

Definition part_object : ObjectType.t :=
  {| ObjectType.fullSchema := Some [title_column; part_column];
     ObjectType.schema := "cargo"; ObjectType.name := "Part" |}.

(** ** Records that can be printed *)


(** ** Sample data *)

Definition address_field : Field :=
  {| name := "address"; label := "address"; type := "Address";
     schemaType := "Embedded"; array := false; required := false;
     description := ""; valueIRI := "T"; codelist := false;
     dataType := "fieldset"; fields := None; options := None;
     referenceType := None |}.

Definition x_field : Field :=
  {| name := "x"; label := "x"; type := "integer"; schemaType := "Plain";
     array := false; required := false; description := ""; valueIRI := "";
     codelist := false; dataType := "integer"; fields := None;
     options := None; referenceType := None |}.

Definition xy_value : jsval :=
  JObj [("@type", JStr "T");
        ("x", tagged xsd_integer "1");
        ("y", tagged xsd_integer "2")].

(** * Properties *)

(** ** Sanity checks of the JavaScript primitives *)

Example parseInt_42 : parseInt (JStr " 42px") = Ok (Int 42).
Proof. reflexivity. Qed.

Example parseInt_minus : parseInt (JStr "-7.9") = Ok (Int (-7)).
Proof. reflexivity. Qed.

Example parseInt_empty : parseInt (JStr "") = Ok NaN.
Proof. reflexivity. Qed.

Example parseInt_number : parseInt (JNum (Int 42)) = Ok (Int 42).
Proof. reflexivity. Qed.

Example ToString_array :
  ToString (JArr [JNum (Int 1); JNull; JStr "a"]) = Ok "1,,a".
Proof. reflexivity. Qed.

(** An object with a property of its own named "toString" cannot be
    converted, alone or as an element of an array. *)
Example ToString_shadowed :
  ToString (JObj [("a", JNull)]) = Ok "[object Object]"
  /\ ToString (JObj [("toString", JNum (Int 1))])
     = Throw "TypeError: Cannot convert object to primitive value"
  /\ parseInt (JArr [JObj [("toString", JNum (Int 1))]])
     = Throw "TypeError: Cannot convert object to primitive value".
Proof. repeat split. Qed.

(** Integers past 2^53 are rounded, and printed with the fewest digits that
    read back; from 10^21 on the exponent is written out, and [parseInt]
    stops at the "e". *)
Example large_integers :
  parseInt (JStr "9007199254740993") = Ok (Int 9007199254740992)
  /\ number_toString (Int (2 ^ 64)) = "18446744073709552000"
  /\ number_toString (Int (10 ^ 21)) = "1e+21"
  /\ number_toString (Int (2 ^ 70)) = "1.1805916207174113e+21"
  /\ number_toString (Int (- 2 ^ 1023)) = "-8.98846567431158e+307"
  /\ parseInt (JStr "1000000000000000000000") = Ok (Int (10 ^ 21))
  /\ parseInt (JStr "1e+21") = Ok (Int 1)
  /\ number_toString (Int (10 ^ 400)) = "Infinity".
Proof. vm_compute. repeat split. Qed.

Example createTypedValue_true :
  createTypedValue integral_host (JStr "true") "boolean"
  = Ok (JObj [("@type", JStr xsd_boolean); ("@value", JStr "true")]).
Proof. reflexivity. Qed.

Example extractValue_absent :
  extractValue JUndefined "integer" = Ok (JStr "").
Proof. reflexivity. Qed.

(** ** Objects *)

Lemma includes_In l s : includes l s = true <-> In s l.
Proof.
  unfold includes. rewrite existsb_exists. split.
  - intros (x & Hin & Heq). apply String.eqb_eq in Heq. now subst.
  - intros Hin. exists s. split; [assumption|apply String.eqb_refl].
Qed.

Lemma has_own_lookup key props :
  has_own key props = false -> lookup_prop key props = None.
Proof.
  unfold has_own, lookup_prop.
  induction props as [|[k w] rest IH]; simpl; [reflexivity|].
  destruct (k =? key); simpl; [discriminate|exact IH].
Qed.

Lemma lookup_replace_eq key v props :
  has_own key props = true ->
  lookup_prop key (replace_prop key v props) = Some v.
Proof.
  unfold has_own, lookup_prop.
  induction props as [|[k w] rest IH]; simpl; [discriminate|].
  destruct (String.eqb_spec k key) as [->|Hne]; simpl.
  - now rewrite String.eqb_refl.
  - destruct (String.eqb_spec k key); [contradiction|exact IH].
Qed.

Lemma lookup_replace_ne key key' v props :
  key <> key' ->
  lookup_prop key' (replace_prop key v props) = lookup_prop key' props.
Proof.
  intros Hne. unfold lookup_prop.
  induction props as [|[k w] rest IH]; simpl; [reflexivity|].
  destruct (String.eqb_spec k key) as [->|Hk]; simpl.
  - destruct (String.eqb_spec key key'); [contradiction|reflexivity].
  - destruct (String.eqb_spec k key'); [reflexivity|exact IH].
Qed.

Lemma lookup_add_eq key v props :
  has_own key props = false ->
  lookup_prop key (add_prop key v props) = Some v.
Proof.
  unfold has_own, lookup_prop.
  induction props as [|[k w] rest IH]; simpl.
  - now rewrite String.eqb_refl.
  - destruct (String.eqb_spec k key) as [->|Hne]; simpl; [discriminate|].
    intros Hrest. destruct (precedes key k); simpl.
    + now rewrite String.eqb_refl.
    + destruct (String.eqb_spec k key); [contradiction|now apply IH].
Qed.

Lemma lookup_add_ne key key' v props :
  key <> key' ->
  lookup_prop key' (add_prop key v props) = lookup_prop key' props.
Proof.
  intros Hne. unfold lookup_prop.
  induction props as [|[k w] rest IH]; simpl.
  - destruct (String.eqb_spec key key'); [contradiction|reflexivity].
  - destruct (precedes key k); simpl.
    + destruct (String.eqb_spec key key'); [contradiction|reflexivity].
    + destruct (String.eqb_spec k key'); [reflexivity|exact IH].
Qed.

Lemma lookup_set_prop_eq key v props :
  lookup_prop key (set_prop key v props) = Some v.
Proof.
  unfold set_prop. destruct (has_own key props) eqn:Hown.
  - now apply lookup_replace_eq.
  - now apply lookup_add_eq.
Qed.

Lemma lookup_set_prop_ne key key' v props :
  key <> key' ->
  lookup_prop key' (set_prop key v props) = lookup_prop key' props.
Proof.
  intros Hne. unfold set_prop. destruct (has_own key props).
  - now apply lookup_replace_ne.
  - now apply lookup_add_ne.
Qed.

Lemma get_object key props :
  get (JObj props) key = Ok (default JUndefined (lookup_prop key props)).
Proof. reflexivity. Qed.

(** Spreading then writing keys gives an object that holds them. *)
Lemma get_set_prop_eq key v props :
  get (JObj (set_prop key v props)) key = Ok v.
Proof. now rewrite get_object, lookup_set_prop_eq. Qed.

(** An object lists a new array index before its other keys. *)
Example set_prop_order :
  set_prop "1" JNull [("0", JNull); ("2", JNull); ("a", JNull)]
  = [("0", JNull); ("1", JNull); ("2", JNull); ("a", JNull)]
  /\ set_prop "b" JNull [("0", JNull); ("a", JNull)]
     = [("0", JNull); ("a", JNull); ("b", JNull)]
  /\ set_prop "a" (JBool true) [("0", JNull); ("a", JNull)]
     = [("0", JNull); ("a", JBool true)]
  /\ set_prop "01" JNull [("a", JNull)] = [("a", JNull); ("01", JNull)].
Proof. vm_compute. repeat split. Qed.

(** ** Conversion to a string *)

Lemma ToString_printable v : printable v = true -> ToString v = Ok (text v).
Proof. intros Hv. unfold ToString. now rewrite Hv. Qed.

Lemma ToString_text s : ToString (JStr s) = Ok s.
Proof. reflexivity. Qed.

Lemma ToString_cases v :
  (printable v = true /\ ToString v = Ok (text v))
  \/ (printable v = false
      /\ ToString v
         = Throw "TypeError: Cannot convert object to primitive value").
Proof. unfold ToString. destruct (printable v); [left|right]; now split. Qed.

Lemma falsy_printable v : truthy v = false -> printable v = true.
Proof. now destruct v. Qed.

(** ** C1: the fieldset merge *)

Section FieldsetMerge.

Variable host : Host.

(** C1.  Editing the child [subField] of the fieldset [field] yields the
    previous embedded mapping with one key changed: the child's key holds the
    value the child encoder makes of the input, the "@type" key holds the
    fieldset's [valueIRI] (the identifier the embedded schema goes by on the
    wire), and every other key reads as it did before.  The form then stores
    this object under the fieldset's name as it is.  An input the child
    encoder throws on leaves the handler by the same error, before anything
    is reported.  A child is a column of the embedded schema, so its name is
    not the reserved tag "@type". *)
Theorem fieldset_child_edit_merges
    (field subField : Field) (value newValue prevData : jsval) :
  name subField <> "@type" ->
  match childTypedValue host newValue (dataType subField) with
  | Throw error =>
      fieldsetValue host field subField value newValue = Throw error
  | Ok processedValue =>
      exists merged,
        fieldsetValue host field subField value newValue = Ok merged
        /\ get merged (name subField) = Ok processedValue
        /\ get merged "@type" = Ok (JStr (valueIRI field))
        /\ (forall key, key <> name subField -> key <> "@type" ->
              lookup_prop key (own merged) = lookup_prop key (own value))
        /\ handleFieldChange host (name field) merged "fieldset" (type field)
           = Ok {| fieldName := name field; newValue := merged |}
        /\ get (apply_edit {| fieldName := name field; newValue := merged |}
                  prevData) (name field) = Ok merged
  end.
Proof.
  intros Htag. unfold fieldsetValue.
  destruct (childTypedValue host newValue (dataType subField))
    as [processedValue|error]; [|reflexivity].
  eexists. split; [reflexivity|]. repeat split.
  - apply get_set_prop_eq.
  - rewrite get_object, lookup_set_prop_ne by exact Htag.
    now rewrite lookup_set_prop_eq.
  - intros key Hchild Hkey. simpl.
    rewrite lookup_set_prop_ne by congruence.
    now rewrite lookup_set_prop_ne by congruence.
  - unfold apply_edit. simpl. apply get_set_prop_eq.
Qed.

End FieldsetMerge.

(** The spec's example: changing [x] of [{"@type": T, x: 1, y: 2}]. *)
Example fieldset_edit_x_keeps_y :
  fieldsetValue integral_host address_field x_field xy_value (JStr "5")
  = Ok (JObj [("@type", JStr "T");
              ("x", tagged xsd_integer "5");
              ("y", tagged xsd_integer "2")]).
Proof. reflexivity. Qed.

Lemma fieldset_child_edit_merges_witness :
  exists merged,
    fieldsetValue integral_host address_field x_field xy_value (JStr "5")
    = Ok merged
    /\ get merged "x" = Ok (tagged xsd_integer "5")
    /\ get merged "@type" = Ok (JStr "T")
    /\ (forall key, key <> "x" -> key <> "@type" ->
          lookup_prop key (own merged) = lookup_prop key (own xy_value))
    /\ handleFieldChange integral_host "address" merged "fieldset" "Address"
       = Ok {| fieldName := "address"; newValue := merged |}
    /\ get (apply_edit {| fieldName := "address"; newValue := merged |}
              (JObj [])) "address" = Ok merged.
Proof.
  apply (fieldset_child_edit_merges integral_host address_field x_field
           xy_value (JStr "5") (JObj [])).
  discriminate.
Defined.

(** ** C2: encode, then decode *)

Lemma or_else_text s : or_else (JStr s) (JStr "") = JStr s.
Proof. now destruct s. Qed.

Lemma or_else_twice a :
  or_else (or_else a (JStr "")) (JStr "") = or_else a (JStr "").
Proof. unfold or_else. now destruct (truthy a) eqn:E; [rewrite E|]. Qed.

Lemma or_default_or_else a :
  or_default (or_else a (JStr "")) = or_else a (JStr "").
Proof.
  unfold or_else. destruct (truthy a) eqn:E; [|reflexivity].
  now destruct a.
Qed.

Lemma or_default_twice a : or_default (or_default a) = or_default a.
Proof. now destruct a. Qed.

Lemma or_default_printable a : printable (or_default a) = printable a.
Proof. now destruct a. Qed.

Lemma boolean_text_twice v :
  boolean_text (JStr (boolean_text v)) = boolean_text v.
Proof.
  unfold boolean_text.
  now destruct (strict_eq v (JStr "true") || strict_eq v (JBool true)).
Qed.

Lemma boolean_text_truthy v : truthy (JStr (boolean_text v)) = true.
Proof.
  unfold boolean_text.
  now destruct (strict_eq v (JStr "true") || strict_eq v (JBool true)).
Qed.

Section RoundTrip.

Variable host : Host.

Lemma roundTrip_url v :
  roundTrip host v "url" = Ok (or_else (or_default v) (JStr "")).
Proof. reflexivity. Qed.

Lemma roundTrip_boolean v :
  roundTrip host v "boolean" = Ok (JStr (boolean_text (or_default v))).
Proof.
  unfold roundTrip, createTypedValue, extractValue, tagged; simpl.
  now rewrite or_else_text.
Qed.

(** An integer or a double is kept as the text [String] makes of the
    input. *)
Lemma roundTrip_text v dataType :
  dataType = "integer" \/ dataType = "double" ->
  roundTrip host v dataType
  = s ← ToString (or_default v); Ok (JStr s).
Proof.
  intros [->| ->]; unfold roundTrip, createTypedValue; simpl;
    (destruct (ToString (or_default v)) as [s|e]; simpl; [|reflexivity]);
    unfold extractValue, tagged; simpl; now rewrite or_else_text.
Qed.

Lemma roundTrip_datetime v :
  roundTrip host v "datetime"
  = s ← ToString (or_default v);
    Ok (JStr (number_toString (Date_parse host s))).
Proof.
  unfold roundTrip, createTypedValue, date_text; simpl.
  destruct (ToString (or_default v)) as [s|e]; simpl; [|reflexivity].
  unfold extractValue, tagged; simpl. now rewrite or_else_text.
Qed.

(** Any other data type is handed through both ways. *)
Lemma roundTrip_other v dataType :
  ~ In dataType ["url"; "boolean"; "integer"; "double"; "datetime"] ->
  roundTrip host v dataType
  = Ok (if truthy (or_default v) then or_default v else JStr "").
Proof.
  intros Hnot. unfold roundTrip, createTypedValue, extractValue.
  repeat match goal with
    | |- context [String.eqb dataType ?c] =>
        destruct (String.eqb_spec dataType c);
        [exfalso; apply Hnot; subst; simpl; auto 10|]
    end.
  simpl. now destruct (truthy (or_default v)).
Qed.

(** C2, as the code has it.  Through [createTypedValue] and [extractValue],
    "true" comes back as the string "true" and 42 comes back as its decimal
    string "42", not as a number; it is the decoder of a fieldset child that
    parses the string back to the number 42.  For every data type but
    "datetime", an encoding that returns decodes to a plain value that
    encoding and decoding again leaves as it is; the encoding throws only
    for an integer or a double that [String] cannot convert.  A datetime
    comes back as the text of the millisecond count [Date.parse] reads, and
    a second turn gives what [Date.parse] reads in that text. *)
Theorem codec_round_trip :
  roundTrip host (JStr "true") "boolean" = Ok (JStr "true")
  /\ roundTrip host (JNum (Int 42)) "integer" = Ok (JStr "42")
  /\ (typedValue ← childTypedValue host (JNum (Int 42)) "integer";
      childValue host (JObj [("n", typedValue)]) "n" "integer")
     = Ok (JNum (Int 42))
  /\ (forall (dataType : string) (v : jsval),
        dataType <> "datetime" ->
        match roundTrip host v dataType with
        | Ok plain => roundTrip host plain dataType = Ok plain
        | Throw _ =>
            (dataType = "integer" \/ dataType = "double")
            /\ printable v = false
        end)
  /\ (forall v : jsval,
        match roundTrip host v "datetime" with
        | Ok plain =>
            exists first,
              ToString (or_default v) = Ok first
              /\ plain = JStr (number_toString (Date_parse host first))
              /\ roundTrip host plain "datetime"
                 = Ok (JStr (number_toString
                               (Date_parse host
                                  (number_toString
                                     (Date_parse host first)))))
        | Throw _ => printable v = false
        end).
Proof.
  split; [reflexivity|]. split; [reflexivity|]. split; [reflexivity|].
  split.
  - intros dataType v Hdate.
    destruct (String.eqb_spec dataType "url") as [->|Hurl].
    { rewrite !roundTrip_url.
      now rewrite or_default_or_else, or_else_twice. }
    destruct (String.eqb_spec dataType "boolean") as [->|Hbool].
    { rewrite !roundTrip_boolean. simpl. now rewrite boolean_text_twice. }
    destruct (String.eqb_spec dataType "integer") as [->|Hint].
    { rewrite roundTrip_text by now left.
      destruct (ToString_cases (or_default v)) as [[_ ->]|[Hp ->]]; simpl.
      - now rewrite roundTrip_text by now left.
      - rewrite or_default_printable in Hp. split; [now left|exact Hp]. }
    destruct (String.eqb_spec dataType "double") as [->|Hdbl].
    { rewrite roundTrip_text by now right.
      destruct (ToString_cases (or_default v)) as [[_ ->]|[Hp ->]]; simpl.
      - now rewrite roundTrip_text by now right.
      - rewrite or_default_printable in Hp. split; [now right|exact Hp]. }
    assert (Hnot : ~ In dataType
                     ["url"; "boolean"; "integer"; "double"; "datetime"])
      by (simpl; intros [H|[H|[H|[H|[H|[]]]]]]; congruence).
    rewrite (roundTrip_other v dataType Hnot).
    rewrite (roundTrip_other _ dataType Hnot).
    destruct (truthy (or_default v)) eqn:Htruthy; simpl; [|reflexivity].
    now rewrite or_default_twice, Htruthy.
  - intros v. rewrite roundTrip_datetime.
    destruct (ToString_cases (or_default v)) as [[_ ->]|[Hp ->]]; simpl.
    + eexists. split; [reflexivity|]. split; [reflexivity|].
      now rewrite roundTrip_datetime.
    + now rewrite or_default_printable in Hp.
Qed.

End RoundTrip.

Lemma codec_round_trip_witness :
  roundTrip integral_host (JStr "7") "double" = Ok (JStr "7").
Proof.
  destruct (codec_round_trip integral_host) as (_ & _ & _ & Hlaw & _).
  apply (Hlaw "double" (JNum (Int 7))). discriminate.
Defined.

(** The claim as the spec words it fails twice.  42 does not come back as
    42 but as its text.  And a datetime is not left as it is by a second
    turn: the date "1970-01-01T00:00:01Z" is kept as the count "1000", which
    [Date.parse] reads as the year 1000 and a second turn makes
    "-30610224000000". *)
Lemma codec_round_trip_fails :
  roundTrip integral_host (JNum (Int 42)) "integer" = Ok (JStr "42")
  /\ roundTrip integral_host (JNum (Int 42)) "integer" <> Ok (JNum (Int 42))
  /\ roundTrip iso_host (JStr "1970-01-01T00:00:01Z") "datetime"
     = Ok (JStr "1000")
  /\ roundTrip iso_host (JStr "1000") "datetime"
     = Ok (JStr "-30610224000000")
  /\ roundTrip iso_host (JStr "1000") "datetime" <> Ok (JStr "1000").
Proof. repeat split; try reflexivity; discriminate. Qed.

(** ** C3: the integer encoders *)

Section IntegerEncoders.

Variable host : Host.

(** The encoder of a fieldset child does what the spec asks of the integer
    kind, for every input that [String] converts. *)
Lemma childTypedValue_integer v :
  childTypedValue host v "integer"
  = n ← parseInt v; Ok (tagged xsd_integer (number_toString n)).
Proof. reflexivity. Qed.

Lemma childTypedValue_integer_unparsable :
  childTypedValue host (JStr "abc") "integer"
  = Ok (tagged xsd_integer "NaN").
Proof. reflexivity. Qed.

(** C3.  The two other integer encoders depart from it.  [createTypedValue]
    keeps the input's text and never calls [parseInt]: "1.5" stays "1.5"
    where [parseInt] reads 1, and the empty input of a new array element
    stays "" where [parseInt] gives NaN.  [handleFieldChange] parses, but
    tags the value with the XSD double IRI. *)
Theorem integer_encoders_disagree :
  createTypedValue host (JStr "1.5") "integer"
    = Ok (tagged xsd_integer "1.5")
  /\ (n ← parseInt (JStr "1.5"); Ok (number_toString n)) = Ok "1"
  /\ createTypedValue host (JStr "") "integer" = Ok (tagged xsd_integer "")
  /\ (n ← parseInt (JStr ""); Ok (number_toString n)) = Ok "NaN"
  /\ (e ← handleFieldChange host "pieces" (JStr "42") "integer" "integer";
      Ok (apply_edit e (JObj [])))
     = Ok (JObj [("pieces", tagged xsd_double "42")])
  /\ xsd_double <> xsd_integer.
Proof. repeat split; try reflexivity. discriminate. Qed.

End IntegerEncoders.

(** ** C6: decoding *)

Lemma get_opt_read v key : get_opt v key = Ok (read v key).
Proof.
  unfold read. destruct v; simpl; try reflexivity;
    now destruct (key =? "length").
Qed.

Lemma get_truthy v key : truthy v = true -> get v key = Ok (read v key).
Proof.
  intros Hv. rewrite <- get_opt_read. now destruct v.
Qed.

Lemma or_else_printable v s :
  printable (or_else v (JStr s)) = printable v.
Proof.
  unfold or_else. destruct (truthy v) eqn:Hv; [reflexivity|].
  now rewrite (falsy_printable v Hv).
Qed.

Lemma parseInt_printable v :
  parseInt v
  = if printable v then Ok (parseInt10 (text v))
    else Throw "TypeError: Cannot convert object to primitive value".
Proof. unfold parseInt, ToString. now destruct (printable v). Qed.

Section Decoding.

Variable host : Host.

Lemma extractValue_total typedValue dataType :
  exists plain, extractValue typedValue dataType = Ok plain.
Proof.
  unfold extractValue. destruct (truthy typedValue) eqn:Hv; simpl; [|eauto].
  rewrite !(get_truthy _ _ Hv).
  destruct (dataType =? "url"); simpl; [eauto|].
  destruct ((dataType =? "boolean") || (dataType =? "integer")
            || (dataType =? "double") || (dataType =? "datetime"));
    simpl; eauto.
Qed.

(** What the form reads for a field, on a record that is not [null] or
    [undefined]. *)
Lemma fieldValue_read formData field :
  truthy formData = true ->
  let stored := read formData (name field) in
  fieldValue host formData field
  = if array field then Ok stored
    else if dataType field =? "url" then
      Ok (or_else (read stored "@id") (JStr ""))
    else if dataType field =? "boolean" then
      Ok (JBool (strict_eq (read stored "@value") (JStr "true")))
    else if dataType field =? "integer" then
      n ← parseInt (or_else (read stored "@value") (JStr "0")); Ok (JNum n)
    else if dataType field =? "double" then
      s ← ToString (or_else (read stored "@value") (JStr "0"));
      Ok (JNum (parseFloat host s))
    else if dataType field =? "datetime-local" then
      Ok (or_else (read stored "@value") (JStr ""))
    else Ok stored.
Proof.
  intros Hv stored. unfold fieldValue. rewrite (get_truthy _ _ Hv); simpl.
  rewrite !get_opt_read; simpl. reflexivity.
Qed.

(** The form's decoder throws in one case only: an integer or a double
    whose stored "@value" [String] cannot convert. *)
Lemma fieldValue_returns formData field :
  truthy formData = true ->
  (exists plain, fieldValue host formData field = Ok plain)
  <-> (array field = false ->
       dataType field = "integer" \/ dataType field = "double" ->
       printable (read (read formData (name field)) "@value") = true).
Proof.
  intros Hv. rewrite (fieldValue_read formData field Hv). cbv zeta.
  set (v := read (read formData (name field)) "@value").
  destruct (array field).
  { split; [discriminate|eauto]. }
  destruct (String.eqb_spec (dataType field) "url") as [Hd|_].
  { split; [|eauto]. intros _ _ [H|H]; rewrite Hd in H; discriminate. }
  destruct (String.eqb_spec (dataType field) "boolean") as [Hd|_].
  { split; [|eauto]. intros _ _ [H|H]; rewrite Hd in H; discriminate. }
  destruct (String.eqb_spec (dataType field) "integer") as [Hd|Hint].
  { rewrite parseInt_printable, or_else_printable.
    destruct (printable v); simpl.
    - split; eauto.
    - split; [intros [plain H]; discriminate|].
      intros H. specialize (H eq_refl (or_introl Hd)). discriminate. }
  destruct (String.eqb_spec (dataType field) "double") as [Hd|Hdbl].
  { unfold ToString. rewrite or_else_printable.
    destruct (printable v); simpl.
    - split; eauto.
    - split; [intros [plain H]; discriminate|].
      intros H. specialize (H eq_refl (or_intror Hd)). discriminate. }
  split; [intros _ _ [H|H]; contradiction|].
  intros _. destruct (dataType field =? "datetime-local"); eauto.
Qed.

(** C6, as the code has it.  [extractValue], the decoder of array elements,
    returns for every input.  The decoder of the form returns for every
    record but one that holds, as the "@value" of an integer or a double, an
    object that [String] cannot convert: there [parseInt] or [parseFloat]
    throws.  The value a top-level field is given is the "@id" of what the
    record holds for a reference and its "@value" for a datetime-local, or
    the empty string when that is missing; for an integer and a double it is
    the number parsed from the "@value", or from "0" when that is missing,
    which for an integer is 0; for a boolean it is whether the "@value" is
    the string "true".  [extractValue] has one default, the empty
    string, and parses nothing; it looks for "@id" in a reference and for
    "@value" in a boolean, an integer, a double and a "datetime", and hands
    a value of any other data type, "datetime-local" included, through as it
    is. *)
Theorem decoding_total_with_defaults (formData : jsval) (field : Field) :
  truthy formData = true ->
  let stored := read formData (name field) in
  let id := read stored "@id" in
  let v := read stored "@value" in
  (forall typedValue dataType,
     exists plain, extractValue typedValue dataType = Ok plain)
  /\ ((exists plain, fieldValue host formData field = Ok plain)
      <-> (array field = false ->
           dataType field = "integer" \/ dataType field = "double" ->
           printable v = true))
  /\ (array field = false -> dataType field = "url" ->
        fieldValue host formData field
        = Ok (if truthy id then id else JStr ""))
  /\ (array field = false -> dataType field = "datetime-local" ->
        fieldValue host formData field
        = Ok (if truthy v then v else JStr ""))
  /\ (array field = false -> dataType field = "integer" ->
        fieldValue host formData field
        = n ← parseInt (if truthy v then v else JStr "0"); Ok (JNum n))
  /\ (array field = false -> dataType field = "integer" ->
        truthy v = false ->
        fieldValue host formData field = Ok (JNum (Int 0)))
  /\ (array field = false -> dataType field = "double" ->
        fieldValue host formData field
        = s ← ToString (if truthy v then v else JStr "0");
          Ok (JNum (parseFloat host s)))
  /\ (array field = false -> dataType field = "boolean" ->
        fieldValue host formData field
        = Ok (JBool (strict_eq v (JStr "true"))))
  /\ (forall typedValue dataType,
        truthy typedValue = false ->
        extractValue typedValue dataType = Ok (JStr ""))
  /\ (forall typedValue,
        truthy typedValue = true ->
        extractValue typedValue "url"
        = Ok (let x := read typedValue "@id" in
              if truthy x then x else JStr ""))
  /\ (forall typedValue dataType,
        truthy typedValue = true ->
        In dataType ["boolean"; "integer"; "double"; "datetime"] ->
        extractValue typedValue dataType
        = Ok (let x := read typedValue "@value" in
              if truthy x then x else JStr ""))
  /\ (forall typedValue dataType,
        truthy typedValue = true ->
        ~ In dataType ["url"; "boolean"; "integer"; "double"; "datetime"] ->
        extractValue typedValue dataType = Ok typedValue).
Proof.
  intros Hv stored id v.
  split; [apply extractValue_total|].
  split; [now apply fieldValue_returns|].
  pose proof (fieldValue_read formData field Hv) as Hread.
  cbv zeta in Hread. fold stored in Hread. fold id v in Hread.
  repeat split.
  - intros Harr Hdt. now rewrite Hread, Harr, Hdt.
  - intros Harr Hdt. now rewrite Hread, Harr, Hdt.
  - intros Harr Hdt. now rewrite Hread, Harr, Hdt.
  - intros Harr Hdt Hfalsy. rewrite Hread, Harr, Hdt. simpl.
    unfold or_else. now rewrite Hfalsy.
  - intros Harr Hdt. now rewrite Hread, Harr, Hdt.
  - intros Harr Hdt. now rewrite Hread, Harr, Hdt.
  - intros typedValue dataType Hf. unfold extractValue. now rewrite Hf.
  - intros typedValue Ht. unfold extractValue. rewrite Ht; simpl.
    now rewrite (get_truthy _ _ Ht).
  - intros typedValue dataType Ht Hin. unfold extractValue. rewrite Ht.
    simpl in Hin.
    destruct Hin as [<-|[<-|[<-|[<-|[]]]]]; simpl;
      now rewrite (get_truthy _ _ Ht).
  - intros typedValue dataType Ht Hnot. unfold extractValue. rewrite Ht.
    repeat match goal with
      | |- context [String.eqb dataType ?c] =>
          destruct (String.eqb_spec dataType c);
          [exfalso; apply Hnot; subst; simpl; auto 10|]
      end.
    reflexivity.
Qed.

End Decoding.

Lemma decoding_total_with_defaults_witness :
  fieldValue integral_host (JObj []) x_field = Ok (JNum (Int 0)).
Proof.
  pose proof (decoding_total_with_defaults integral_host (JObj []) x_field
                eq_refl) as H.
  destruct H as (_ & _ & _ & _ & _ & Hint & _).
  exact (Hint eq_refl eq_refl eq_refl).
Defined.

(** The claim as the spec words it fails three times.  The decoder of the
    form throws on a record whose integer holds an object with a "toString"
    property of its own.  In [extractValue] an absent integer or double is
    the empty string, not the number read from "0"; and a "datetime-local"
    value without "@value" is handed through, not replaced by the empty
    string. *)
Lemma decoding_raises_or_differs :
  fieldValue integral_host
    (JObj [("x", JObj [("@value", JObj [("toString", JNum (Int 1))])])])
    x_field
  = Throw "TypeError: Cannot convert object to primitive value"
  /\ extractValue JUndefined "integer" = Ok (JStr "")
  /\ extractValue JUndefined "integer" <> Ok (JNum (Int 0))
  /\ extractValue (JObj []) "double" = Ok (JStr "")
  /\ extractValue (JObj []) "datetime-local" = Ok (JObj []).
Proof. repeat split; try reflexivity. discriminate. Qed.

(** ** Schema resolution *)

Section Resolution.

Variable assets : gmap string (list Column.t).

Lemma generateFormFields_nil fuel :
  generateFormFields assets fuel [] = Some ([], []).
Proof. now destruct fuel. Qed.

Lemma generateFormFields_cons fuel column rest :
  generateFormFields assets fuel (column :: rest)
  = resolved ← resolveColumn assets fuel column;
    '(others, log') ← generateFormFields assets fuel rest;
    Some (resolved.1 :: others, (resolved.2 ++ log')%list).
Proof. now destruct fuel. Qed.

(** The field at a position comes from the column at that position, and
    what resolving it logged is in the log. *)
Lemma generateFormFields_lookup fuel columns :
  forall fields log i column,
    generateFormFields assets fuel columns = Some (fields, log) ->
    columns !! i = Some column ->
    exists field lines,
      resolveColumn assets fuel column = Some (field, lines)
      /\ fields !! i = Some field
      /\ (forall line, In line lines -> In line log).
Proof.
  induction columns as [|c rest IH]; intros fields log i column Hgen Hi.
  - destruct i; discriminate.
  - rewrite generateFormFields_cons in Hgen.
    destruct (resolveColumn assets fuel c) as [[f lines]|] eqn:Hc;
      [|discriminate].
    simpl in Hgen.
    destruct (generateFormFields assets fuel rest) as [[others log']|] eqn:Hr;
      [|discriminate].
    simpl in Hgen. injection Hgen as <- <-.
    destruct i as [|i]; simpl in Hi.
    + injection Hi as ->. exists f, lines. repeat split; [assumption|].
      intros line Hl. apply in_or_app. now left.
    + destruct (IH others log' i column eq_refl Hi)
        as (field & lines' & Hres & Hlook & Hlog).
      exists field, lines'. repeat split; [assumption..|].
      intros line Hl. apply in_or_app. right. now apply Hlog.
Qed.

Lemma generateFormFields_length fuel columns :
  forall fields log,
    generateFormFields assets fuel columns = Some (fields, log) ->
    length fields = length columns.
Proof.
  induction columns as [|c rest IH]; intros fields log Hgen.
  - rewrite generateFormFields_nil in Hgen. now injection Hgen as <- <-.
  - rewrite generateFormFields_cons in Hgen.
    destruct (resolveColumn assets fuel c) as [[f lines]|]; [|discriminate].
    simpl in Hgen.
    destruct (generateFormFields assets fuel rest) as [[others log']|] eqn:Hr;
      [|discriminate].
    simpl in Hgen. injection Hgen as <- <-. simpl.
    f_equal. now apply (IH others log').
Qed.

(** With fuel above the rank of every schema it embeds, a column list
    resolves. *)
Lemma generateFormFields_settles rank :
  ranked assets rank ->
  forall fuel columns,
    (forall column, In column columns ->
       Column.schemaType column = "Embedded" ->
       rank (Column.type column) < fuel) ->
    is_Some (generateFormFields assets fuel columns).
Proof.
  intros Hrank. induction fuel as [|fuel IHfuel]; intros columns.
  - induction columns as [|c rest IH]; intros Hlt.
    + now rewrite generateFormFields_nil.
    + rewrite generateFormFields_cons.
      destruct IH as [[others log'] Hr].
      { intros column Hin. apply Hlt. now right. }
      rewrite Hr. unfold resolveColumn.
      destruct (String.eqb_spec (Column.schemaType c) "Embedded") as [He|_].
      * specialize (Hlt c (or_introl eq_refl) He). lia.
      * now destruct (Column.schemaType c =? "Enum").
  - induction columns as [|c rest IH]; intros Hlt.
    + now rewrite generateFormFields_nil.
    + rewrite generateFormFields_cons.
      destruct IH as [[others log'] Hr].
      { intros column Hin. apply Hlt. now right. }
      rewrite Hr. unfold resolveColumn.
      destruct (String.eqb_spec (Column.schemaType c) "Embedded") as [He|_].
      * destruct (assets !! Column.type c) as [embedded|] eqn:Ha; [|done].
        destruct (IHfuel embedded) as [[children log] Hch].
        { intros column Hin Hemb.
          specialize (Hrank _ _ _ Ha Hin Hemb).
          specialize (Hlt c (or_introl eq_refl) He). lia. }
        now rewrite Hch.
      * now destruct (Column.schemaType c =? "Enum").
Qed.

Lemma rank_below_enough rank columns column :
  In column columns -> rank (Column.type column) < enough rank columns.
Proof.
  intros Hin. unfold enough.
  assert (rank (Column.type column)
          <= list_max ((fun c => rank (Column.type c)) <$> columns)); [|lia].
  induction columns as [|c rest IH]; [contradiction|].
  rewrite fmap_cons.
  change (list_max (?x :: ?l)) with (Nat.max x (list_max l)).
  destruct Hin as [->|Hin]; [lia|]. specialize (IH Hin). lia.
Qed.

(** The loop treats each column on its own. *)
Lemma generateFormFields_app fuel front back :
  generateFormFields assets fuel (front ++ back)%list
  = '(fs, log) ← generateFormFields assets fuel front;
    '(fs', log') ← generateFormFields assets fuel back;
    Some ((fs ++ fs')%list, (log ++ log')%list).
Proof.
  induction front as [|column rest IH]; simpl.
  - rewrite generateFormFields_nil. simpl.
    now destruct (generateFormFields assets fuel back) as [[fs' log']|].
  - rewrite !generateFormFields_cons.
    destruct (resolveColumn assets fuel column) as [[f lines]|]; [|reflexivity].
    simpl. rewrite IH.
    destruct (generateFormFields assets fuel rest) as [[fs log]|];
      [|reflexivity].
    simpl.
    destruct (generateFormFields assets fuel back) as [[fs' log']|];
      [|reflexivity].
    simpl. now rewrite app_assoc.
Qed.

End Resolution.


Lemma resolveColumn_plain assets fuel column :
  Column.schemaType column <> "Embedded" ->
  Column.schemaType column <> "Enum" ->
  resolveColumn assets fuel column = Some (plainField column, []).
Proof.
  intros Hemb Henum. unfold resolveColumn.
  destruct (String.eqb_spec (Column.schemaType column) "Embedded");
    [contradiction|].
  now destruct (String.eqb_spec (Column.schemaType column) "Enum").
Qed.

Lemma plainField_name column :
  name (plainField column) = Column.name column
  /\ array (plainField column) = Column.array column.
Proof.
  unfold plainField.
  destruct (includes basicTypes (toLowerCase (Column.type column)));
    [|split; reflexivity].
  repeat match goal with
         | |- context [String.eqb ?a ?b] => destruct (String.eqb a b)
         end; split; reflexivity.
Qed.

(** ** C7: columns that are neither Embedded nor Enum *)

(** C7.  A column whose [schemaType] is neither "Embedded" nor "Enum" gives,
    alone or at its place in any column list, one field with the column's
    name.  When the column's type, lowered, is one of string, boolean,
    integer, double and datetime, the field is a scalar of that kind (its
    [dataType] is "text", "boolean", "integer", "double" or "datetime-local")
    and has no [referenceType]; otherwise it is a reference ([dataType]
    "url") whose [referenceType] is the column's type as written. *)
Theorem plain_column_classification
    (assets : gmap string (list Column.t)) (fuel : nat) (column : Column.t) :
  Column.schemaType column <> "Embedded" ->
  Column.schemaType column <> "Enum" ->
  let t := toLowerCase (Column.type column) in
  exists field,
    generateFormFields assets fuel [column] = Some ([field], [])
    /\ (forall columns fs log i,
          generateFormFields assets fuel columns = Some (fs, log) ->
          columns !! i = Some column -> fs !! i = Some field)
    /\ name field = Column.name column
    /\ array field = Column.array column
    /\ (t = "string" -> dataType field = "text" /\ referenceType field = None)
    /\ (t = "boolean" ->
          dataType field = "boolean" /\ referenceType field = None)
    /\ (t = "integer" ->
          dataType field = "integer" /\ referenceType field = None)
    /\ (t = "double" ->
          dataType field = "double" /\ referenceType field = None)
    /\ (t = "datetime" ->
          dataType field = "datetime-local" /\ referenceType field = None)
    /\ (~ In t basicTypes ->
          dataType field = "url"
          /\ referenceType field = Some (Column.type column)).
Proof.
  intros Hemb Henum t.
  pose proof (resolveColumn_plain assets fuel column Hemb Henum) as Hres.
  exists (plainField column). split.
  { rewrite generateFormFields_cons, Hres, generateFormFields_nil.
    reflexivity. }
  split.
  { intros columns fs log i Hgen Hi.
    destruct (generateFormFields_lookup assets fuel columns fs log i column
                Hgen Hi) as (field & lines & Hres' & Hlook & _).
    rewrite Hres in Hres'. now injection Hres' as <- _. }
  split; [apply plainField_name|]. split; [apply plainField_name|].
  unfold plainField. fold t. clearbody t.
  repeat (split; [intros ->; split; reflexivity|]).
  intros Hnot. destruct (includes basicTypes t) eqn:Hin.
  - apply includes_In in Hin. contradiction.
  - split; reflexivity.
Qed.

(** The spec's example: [{type: "Consignment", schemaType: "Plain"}]. *)
Lemma plain_column_classification_witness :
  exists field,
    generateFormFields ∅ 0 [consignment_column] = Some ([field], [])
    /\ dataType field = "url"
    /\ referenceType field = Some "Consignment".
Proof.
  destruct (plain_column_classification ∅ 0 consignment_column)
    as (field & Hgen & _ & _ & _ & _ & _ & _ & _ & _ & Href).
  - discriminate.
  - discriminate.
  - exists field. split; [exact Hgen|]. apply Href.
    simpl. intros [H|[H|[H|[H|[H|[]]]]]]; discriminate H.
Defined.

Example title_column_is_text :
  generateFormFields ∅ 0 [title_column]
  = Some ([newField title_column "text"], []).
Proof. reflexivity. Qed.

Lemma resolveColumn_name assets fuel column field lines :
  resolveColumn assets fuel column = Some (field, lines) ->
  name field = Column.name column.
Proof.
  unfold resolveColumn.
  destruct (Column.schemaType column =? "Embedded").
  - destruct (assets !! Column.type column) as [embedded|].
    + destruct fuel as [|fuel]; [discriminate|].
      destruct (generateFormFields assets fuel embedded) as [[children l]|];
        [|discriminate].
      simpl. now intros [= <- _].
    + now intros [= <- _].
  - destruct (Column.schemaType column =? "Enum"); intros [= <- _];
      [reflexivity|apply plainField_name].
Qed.

Lemma resolveColumn_missing assets fuel column :
  Column.schemaType column = "Embedded" ->
  assets !! Column.type column = None ->
  resolveColumn assets fuel column
  = Some (newField column "fieldset", [schemaLoadError column]).
Proof.
  intros He Ha. unfold resolveColumn. now rewrite He, Ha.
Qed.

(** ** C10: editing an array-valued field *)

Section Arrays.

Variable host : Host.

Lemma assign_in_range index x a :
  index < length a -> assign index x a = <[index := x]> a.
Proof.
  intros Hlt. unfold assign.
  destruct (Nat.ltb_spec index (length a)); [reflexivity|lia].
Qed.

(** The element a new item starts as: the encoding of the empty string,
    which every data type has. *)
Lemma createTypedValue_empty dataType :
  exists empty, createTypedValue host (JStr "") dataType = Ok empty.
Proof.
  unfold createTypedValue. simpl.
  repeat match goal with
         | |- context [String.eqb ?a ?b] => destruct (String.eqb a b)
         end; eauto.
Qed.

(** C10.  The value of an array-valued field is first made an array: an
    array is taken as it is, any other truthy value becomes the one element
    of a new array, and a falsy value becomes the empty array.  Each element
    of that array is shown through [extractValue].  Adding appends the
    encoding of the empty string, so that the first item added to an absent
    value makes an array of one.  For an element that exists, removing it
    shifts the later elements down by one, and changing it puts the encoding
    [createTypedValue] makes of the new input in its place and leaves the
    length and the other elements alone, or throws what the encoder throws.
    The form stores the new array as it is. *)
Theorem array_editing
    (field : Field) (value newValue prevData : jsval) :
  let a := arrayValue value in
  (* normalisation *)
  (forall items, value = JArr items -> a = items)
  /\ ((forall items, value <> JArr items) -> truthy value = true ->
      a = [value])
  /\ ((forall items, value <> JArr items) -> truthy value = false ->
      a = [])
  (* each element is decoded on its own *)
  /\ itemValues field value
     = (fun item => extractValue item (dataType field)) <$> a
  (* append *)
  /\ (exists empty,
        createTypedValue host (JStr "") (dataType field) = Ok empty
        /\ itemAdd host field value = Ok (JArr (a ++ [empty])%list)
        /\ ((forall items, value <> JArr items) -> truthy value = false ->
            itemAdd host field value = Ok (JArr [empty])))
  (* remove at index *)
  /\ (forall index, index < length a ->
        exists a', itemRemove value index = JArr a'
          /\ length a' = length a - 1
          /\ (forall j, j < index -> a' !! j = a !! j)
          /\ (forall j, index <= j -> a' !! j = a !! S j))
  (* update at index *)
  /\ (forall index, index < length a ->
        match createTypedValue host newValue (dataType field) with
        | Throw error =>
            itemChange host field value index newValue = Throw error
        | Ok encoded =>
            exists a',
              itemChange host field value index newValue = Ok (JArr a')
              /\ length a' = length a
              /\ a' !! index = Some encoded
              /\ (forall j, j <> index -> a' !! j = a !! j)
        end)
  (* the form stores an array as it is *)
  /\ (forall items,
        handleFieldChange host (name field) (JArr items) (dataType field)
          (type field)
        = Ok {| fieldName := name field; newValue := JArr items |}
        /\ get (apply_edit {| fieldName := name field;
                              newValue := JArr items |} prevData)
             (name field) = Ok (JArr items)).
Proof.
  intros a.
  assert (Hfalsy : (forall items, value <> JArr items) ->
                   truthy value = false -> a = []).
  { intros Hnot Hf. subst a. unfold arrayValue. rewrite Hf.
    destruct value; try reflexivity. now destruct (Hnot items). }
  split; [now intros items ->|].
  split.
  { intros Hnot Ht. subst a. unfold arrayValue. rewrite Ht.
    destruct value; try reflexivity. now destruct (Hnot items). }
  split; [exact Hfalsy|]. split; [reflexivity|]. split.
  { destruct (createTypedValue_empty (dataType field)) as [empty Hempty].
    exists empty. split; [exact Hempty|]. unfold itemAdd. rewrite Hempty.
    fold a. split; [reflexivity|].
    intros Hnot Hf. now rewrite (Hfalsy Hnot Hf). }
  split.
  { intros index Hlt. exists (delete index a). repeat split.
    - apply length_delete. now apply lookup_lt_is_Some_2.
    - intros j Hj. now apply list_lookup_delete_lt.
    - intros j Hj. now apply list_lookup_delete_ge. }
  split.
  { intros index Hlt. unfold itemChange. fold a.
    destruct (createTypedValue host newValue (dataType field))
      as [encoded|error]; [|reflexivity].
    exists (<[index := encoded]> a). repeat split.
    - simpl. now rewrite assign_in_range.
    - apply length_insert.
    - now apply list_lookup_insert_eq.
    - intros j Hne. now apply list_lookup_insert_ne. }
  intros items. split; [reflexivity|].
  unfold apply_edit. simpl. apply get_set_prop_eq.
Qed.

End Arrays.

Lemma array_editing_witness :
  exists a',
    itemChange integral_host x_field
      (JArr [tagged xsd_integer "1"; tagged xsd_integer "2"]) 1 (JStr "7")
    = Ok (JArr a')
    /\ a' !! 1 = Some (tagged xsd_integer "7")
    /\ a' !! 0 = Some (tagged xsd_integer "1").
Proof.
  destruct (array_editing integral_host x_field
              (JArr [tagged xsd_integer "1"; tagged xsd_integer "2"])
              (JStr "7") (JObj []))
    as (_ & _ & _ & _ & _ & _ & Hchange & _).
  destruct (Hchange 1) as (a' & Heq & _ & Hat & Hother).
  - simpl. lia.
  - exists a'. split; [exact Heq|]. split; [exact Hat|].
    now rewrite Hother.
Defined.

Example arrayValue_wraps :
  arrayValue (tagged xsd_integer "1") = [tagged xsd_integer "1"]
  /\ arrayValue JUndefined = []
  /\ arrayValue (JStr "") = [].
Proof. repeat split. Qed.

(** The first item added to a field that has no value yet. *)
Example first_item_added :
  itemAdd integral_host x_field JUndefined
  = Ok (JArr [tagged xsd_integer ""]).
Proof. reflexivity. Qed.

(** ** Reference options *)

Example split_pieces :
  split "#" "a#b#c" = ["a"; "b"; "c"]
  /\ split "#" "" = [""]
  /\ split "#" "http://example.org/codes#" = ["http://example.org/codes"; ""].
Proof. repeat split. Qed.

(** Without a '#' the second piece is [undefined], and the table is read
    under the key "undefined". *)
Example codelistName_without_fragment :
  codelistName consignment_field = "undefined".
Proof. reflexivity. Qed.




Lemma some_id_truthy value opts :
  Forall (fun option => truthy option = true) opts ->
  some_id value opts = Ok (id_matches value opts).
Proof.
  induction 1 as [|option rest Ht _ IH]; simpl; [reflexivity|].
  rewrite (get_truthy _ _ Ht). simpl.
  destruct (strict_eq (read option "@id") value); [reflexivity|exact IH].
Qed.

Lemma responseObjects_truthy response objects :
  responseObjects response = Ok objects ->
  Forall (fun option => truthy option = true) objects.
Proof.
  unfold responseObjects.
  destruct (get response "@graph") as [graph|]; simpl; [|discriminate].
  destruct (or_else graph (JArr [response])); try discriminate.
  intros [= <-]. apply List.Forall_forall. intros x Hx.
  apply List.filter_In in Hx as [_ Hx].
  now apply andb_prop in Hx as [Hx _].
Qed.

(** What looking a codelist up gives: the entries of the name as options,
    none for a name the table lacks, and a TypeError for a name the table
    lacks and inherits. *)
Lemma codelistValues_cases field table :
  let entries := default [] (table !! codelistName field) in
  (codelistValues field table = Ok (codelistOption field <$> entries)
   /\ (table !! codelistName field = None ->
       ~ In (codelistName field) Object_prototype))
  \/ (exists e, codelistValues field table = Throw e
      /\ table !! codelistName field = None
      /\ In (codelistName field) Object_prototype).
Proof.
  unfold codelistValues.
  destruct (table !! codelistName field) as [entries|] eqn:Hlook.
  - left. split; [reflexivity|discriminate].
  - destruct (includes Object_prototype (codelistName field)) eqn:Hin.
    + right. apply includes_In in Hin. eauto.
    + left. split; [reflexivity|]. intros _ Hin'.
      apply includes_In in Hin'. congruence.
Qed.

Lemma codelistValues_truthy field table opts :
  codelistValues field table = Ok opts ->
  Forall (fun option => truthy option = true) opts.
Proof.
  destruct (codelistValues_cases field table) as [[-> _]|(e & -> & _)];
    [|discriminate].
  intros [= <-]. apply Forall_fmap. now apply List.Forall_forall.
Qed.

Lemma loadedOptions_truthy field codelists response :
  Forall (fun option => truthy option = true)
    (loadedOptions field codelists response).
Proof.
  unfold loadedOptions. destruct (codelist field).
  - destruct (codelists ≫= codelistValues field) as [opts|] eqn:Hc;
      [|constructor].
    destruct codelists as [table|]; [|discriminate].
    now apply (codelistValues_truthy field table).
  - destruct (response ≫= responseObjects) as [objects|] eqn:Hr;
      [|constructor].
    destruct response as [r|]; [|discriminate].
    now apply (responseObjects_truthy r).
Qed.

Lemma optionsLoaded_truthy value opts :
  Forall (fun option => truthy option = true) opts ->
  optionsLoaded value opts
  = (SetReferenceOptions opts
     :: (if truthy value && negb (id_matches value opts)
         then [SetUseDirectInput true] else []), None).
Proof.
  intros Ht. unfold optionsLoaded. rewrite (some_id_truthy _ _ Ht).
  now destruct (truthy value).
Qed.

(** The state a load ends in. *)
Lemma load_final_state field value codelists response s :
  dropdownOpen s = true ->
  let opts := loadedOptions field codelists response in
  perform_all (loadReferenceOptions field value codelists response s) s
  = {| referenceOptions := opts;
       loading := false;
       dropdownOpen := true;
       useDirectInput :=
         useDirectInput s || (truthy value && negb (id_matches value opts)) |}.
Proof.
  intros Hopen opts.
  pose proof (loadedOptions_truthy field codelists response) as Htruthy.
  subst opts. revert Htruthy.
  unfold loadReferenceOptions, loadedOptions. rewrite Hopen.
  destruct s as [opts0 loading0 open0 flag0]. simpl in Hopen. subst open0.
  destruct (codelist field).
  - destruct (codelists ≫= codelistValues field) as [values|e];
      intros Htruthy.
    + rewrite (optionsLoaded_truthy _ _ Htruthy). simpl.
      destruct (truthy value), (id_matches value values), flag0;
        reflexivity.
    + simpl. destruct (truthy value), flag0; reflexivity.
  - destruct (response ≫= responseObjects) as [objects|e]; intros Htruthy.
    + rewrite (optionsLoaded_truthy _ _ Htruthy). simpl.
      destruct (truthy value), (id_matches value objects), flag0;
        reflexivity.
    + simpl. destruct (truthy value), flag0; reflexivity.
Qed.


(** While a load is under way the effect does nothing. *)
Lemma effect_idle_while_loading field value s actions :
  loading s = true ->
  directInputEffect field value s = Ok actions -> actions = [].
Proof.
  intros Hload. unfold directInputEffect. rewrite Hload.
  destruct ((dataType field =? "url") && truthy value); [|now intros [= <-]].
  destruct (some_id value (referenceOptions s)) as [found|]; simpl;
    [|discriminate].
  rewrite andb_false_r. now intros [= <-].
Qed.

(** ** C8: options from a codelist *)




Example codelist_unit_options :
  loadedOptions unit_field (Ok sample_codelists) (Throw "unused")
  = [JObj [("@id", JStr "KGM");
           ("@type", JStr "http://example.org/codes#UnitType");
           ("description", JStr "kilogram"); ("id", JStr "KGM")];
     JObj [("@id", JStr "LTR");
           ("@type", JStr "http://example.org/codes#UnitType");
           ("description", JStr "litre"); ("id", JStr "LTR")]].
Proof. vm_compute. reflexivity. Qed.

Example codelist_unknown_key :
  loadedOptions unit_field (Ok ∅) (Throw "unused") = []
  /\ loadReferenceOptions unit_field (JStr "") (Ok ∅) (Throw "unused")
       dropdown_opened
     = [SetLoading true; SetReferenceOptions []; SetLoading false].
Proof. split; vm_compute; reflexivity. Qed.

(** ** C5: the direct-input flag *)




(** From a state where the flag is down, the spec's example holds: with A
    and B loaded the value "A" leaves the flag down. *)
Example direct_input_matching_value :
  useDirectInput
    <$> match afterLoad consignment_field (JStr "A") (Throw "unused")
                (Ok graph_AB) dropdown_opened with
        | Ok s' => Some s'
        | Throw _ => None
        end
  = Some false.
Proof. reflexivity. Qed.

(** At the first render no option is loaded yet, so a reference field that
    already has a value raises the flag at once. *)
Example direct_input_raised_at_mount :
  afterValueChange consignment_field (JStr "A") initialFieldState
  = Ok (perform initialFieldState (SetUseDirectInput true)).
Proof. reflexivity. Qed.

(** ** C9: the debounced emission *)

Section Debounce.

Lemma consistent_mount t initialData : consistent (mount t initialData).
Proof.
  unfold consistent, mount; simpl. repeat split; try lia.
  now intros due held [= _ <-].
Qed.

Lemma consistent_elapse t f : consistent f -> consistent (elapse t f).
Proof.
  intros (Hd & Hf & Ht). unfold elapse.
  destruct (timer f) as [[due held]|] eqn:Htimer.
  - destruct (Nat.leb due t).
    + unfold fire. specialize (Ht due held eq_refl). subst held.
      destruct (Nat.eqb _ _); unfold consistent; simpl;
        repeat split; try assumption; discriminate.
    + unfold consistent; simpl. rewrite Htimer. repeat split; assumption.
  - unfold consistent; simpl. rewrite Htimer.
    repeat split; try assumption; discriminate.
Qed.

Lemma consistent_step f ev : consistent f -> consistent (step f ev).
Proof.
  intros Hc. destruct ev as [t e|t|t]; simpl.
  - unfold edit.
    pose proof (consistent_elapse t f Hc) as Hg.
    set (g := elapse t f) in *. clearbody g.
    destruct Hg as (Hd & Hf & Ht).
    destruct (mounted g); [|repeat split; assumption].
    unfold consistent; simpl. repeat split; try lia.
    now intros due held [= _ <-].
  - unfold newOnSubmit.
    pose proof (consistent_elapse t f Hc) as Hg.
    set (g := elapse t f) in *. clearbody g.
    destruct Hg as (Hd & Hf & Ht).
    destruct (mounted g); repeat split; assumption.
  - unfold unmount.
    pose proof (consistent_elapse t f Hc) as Hg.
    set (g := elapse t f) in *. clearbody g.
    destruct Hg as (Hd & Hf & Ht).
    unfold consistent; simpl. repeat split; try assumption; discriminate.
Qed.

Lemma consistent_run events : forall f,
  consistent f -> consistent (run events f).
Proof.
  induction events as [|ev events IH]; intros f Hc; [exact Hc|].
  apply IH. now apply consistent_step.
Qed.

(** Before a timer is due, time passing changes the clock alone. *)
Lemma elapse_quiet t f :
  quiet t f ->
  elapse t f
  = {| mounted := mounted f; now := Nat.max (now f) t;
       formData := formData f; debouncedFormData := debouncedFormData f;
       timer := timer f; submitted := submitted f; next := next f |}.
Proof.
  unfold quiet, elapse.
  destruct (timer f) as [[due held]|] eqn:Htimer; simpl.
  - intros Hlt. destruct (Nat.leb_spec due t); [lia|]. now rewrite Htimer.
  - now rewrite Htimer.
Qed.

Lemma quiet_elapse t f : quiet t (elapse t f).
Proof.
  unfold quiet, elapse. destruct (timer f) as [[due held]|] eqn:Htimer.
  - destruct (Nat.leb_spec due t); simpl.
    + unfold fire. now destruct (Nat.eqb _ _).
    + now rewrite Htimer.
  - simpl. now rewrite Htimer.
Qed.

(** One edit of a quiet, mounted form. *)
Lemma edit_quiet t e f :
  mounted f = true -> now f <= t -> quiet t f ->
  edit t e f
  = {| mounted := true; now := t;
       formData := {| ident := next f;
                      contents := apply_edit e (contents (formData f)) |};
       debouncedFormData := debouncedFormData f;
       timer := Some (t + delay,
                      {| ident := next f;
                         contents :=
                           apply_edit e (contents (formData f)) |});
       submitted := submitted f; next := S (next f) |}.
Proof.
  intros Hm Hnow Hq. unfold edit. rewrite (elapse_quiet t f Hq). simpl.
  rewrite Hm. now rewrite Nat.max_r by exact Hnow.
Qed.

Lemma last_time_cons t t' e' rest :
  last_time t ((t', e') :: rest) = last_time t' rest.
Proof.
  unfold last_time. rewrite fmap_cons. simpl fst.
  generalize (fst <$> rest). intros l. revert t t'.
  induction l as [|x l IH]; intros t t'; [reflexivity|].
  change (List.last (t' :: x :: l) t) with (List.last (x :: l) t).
  now rewrite (IH t x), (IH t' x).
Qed.

(** A burst on a quiet, mounted form: nothing is submitted meanwhile, and
    the timer that is left holds the record after the last edit. *)
Lemma run_burst rest : forall t e f,
  consistent f -> mounted f = true -> now f <= t -> quiet t f ->
  burst t rest ->
  let after := run (edit_events ((t, e) :: rest)) f in
  let final := edited ((t, e) :: rest) (contents (formData f)) in
  mounted after = true
  /\ submitted after = submitted f
  /\ debouncedFormData after = debouncedFormData f
  /\ contents (formData after) = final
  /\ next f <= ident (formData after)
  /\ timer after = Some (last_time t rest + delay, formData after).
Proof.
  induction rest as [|[t' e'] rest IH]; intros t e f Hc Hm Hnow Hq Hb.
  - simpl. rewrite (edit_quiet t e f Hm Hnow Hq). simpl.
    repeat split. lia.
  - destruct Hb as (Hle & Hlt & Hb).
    set (f1 := edit t e f).
    assert (Hf1 : f1 = edit t e f) by reflexivity.
    rewrite (edit_quiet t e f Hm Hnow Hq) in Hf1.
    assert (Hc1 : consistent f1)
      by exact (consistent_step f (EditAt t e) Hc).
    assert (Hs1 : submitted f1 = submitted f) by now rewrite Hf1.
    assert (Hd1 : debouncedFormData f1 = debouncedFormData f)
      by now rewrite Hf1.
    assert (Hn1 : next f1 = S (next f)) by now rewrite Hf1.
    assert (Hcf1 : contents (formData f1)
                   = apply_edit e (contents (formData f)))
      by now rewrite Hf1.
    destruct (IH t' e' f1 Hc1) as (Hm' & Hs' & Hd' & Hcont & Hid & Htimer).
    + now rewrite Hf1.
    + rewrite Hf1. simpl. exact Hle.
    + unfold quiet. rewrite Hf1. simpl. exact Hlt.
    + exact Hb.
    + clear Hf1. change (run (edit_events ((t, e) :: (t', e') :: rest)) f)
        with (run (edit_events ((t', e') :: rest)) f1).
      change (edited ((t, e) :: (t', e') :: rest) (contents (formData f)))
        with (edited ((t', e') :: rest)
                (apply_edit e (contents (formData f)))).
      rewrite last_time_cons.
      rewrite Hs1 in Hs'. rewrite Hd1 in Hd'. rewrite Hcf1 in Hcont.
      rewrite Hn1 in Hid.
      repeat split; try assumption. lia.
Qed.

(** C9.  Take the form in any state it can be in at the time [t1] of an edit,
    and a burst of edits from [t1] on, each less than [delay] = 500 after the
    one before.  During the burst and until [delay] has passed after its last
    edit, [onSubmit] is not called.  Once [delay] has passed it has been
    called exactly once more, with the record after the last edit.  If the
    form goes away before that, it is never called again.  The parent keeps
    handing in the same [onSubmit] throughout. *)
Theorem debounced_emission
    (initialData : jsval) (t0 : nat) (history : list Event)
    (t1 : nat) (e1 : Edit) (rest : list (nat * Edit)) (T : nat) :
  let before := elapse t1 (run history (mount t0 initialData)) in
  let edits := (t1, e1) :: rest in
  let after := run (edit_events edits) before in
  let final := edited edits (contents (formData before)) in
  let last := last_time t1 rest in
  mounted before = true ->
  now before <= t1 ->
  burst t1 rest ->
  delay = 500
  /\ contents (formData after) = final
  /\ submitted after = submitted before
  /\ (T < last + delay -> submitted (elapse T after) = submitted before)
  /\ (last + delay <= T ->
      submitted (elapse T after) = (submitted before ++ [final])%list)
  /\ (T < last + delay ->
      forall T',
        submitted (elapse T' (unmount T after)) = submitted before).
Proof.
  intros before edits after final last Hm Hnow Hb.
  assert (Hc : consistent before).
  { apply consistent_elapse, consistent_run, consistent_mount. }
  pose proof (run_burst rest t1 e1 before Hc Hm Hnow (quiet_elapse _ _) Hb)
    as H.
  cbv zeta in H.
  change (run (edit_events ((t1, e1) :: rest)) before) with after in H.
  change (edited ((t1, e1) :: rest) (contents (formData before)))
    with final in H.
  change (last_time t1 rest) with last in H.
  destruct H as (Hm' & Hs & Hd & Hcont & Hid & Htimer).
  clearbody after final last.
  split; [reflexivity|]. split; [exact Hcont|]. split; [exact Hs|].
  split; [|split].
  - intros HT. rewrite elapse_quiet; [exact Hs|].
    unfold quiet. now rewrite Htimer.
  - intros HT. unfold elapse. rewrite Htimer.
    destruct (Nat.leb_spec (last + delay) T) as [_|]; [|lia].
    unfold fire. rewrite Hd.
    destruct (Nat.eqb_spec (ident (formData after))
                (ident (debouncedFormData before))) as [Heq|_].
    + destruct Hc as (Hlt & _). lia.
    + simpl. now rewrite Hs, Hcont.
  - intros HT T'. unfold unmount.
    rewrite (elapse_quiet T after) by (unfold quiet; now rewrite Htimer).
    rewrite (elapse_quiet T') by exact I.
    simpl. exact Hs.
Qed.

End Debounce.

(** The spec's example: five edits within 100 ms. *)
Lemma debounced_emission_witness :
  let before := elapse 10 (mount 0 (JObj [])) in
  let after := run (edit_events five_edits) before in
  submitted (elapse 589 after) = [JObj []]
  /\ submitted (elapse 590 after)
     = [JObj []; JObj [("pieces", tagged xsd_double "12345")]].
Proof.
  pose proof (debounced_emission (JObj []) 0 [] 10
                (pieces_edit 1) (tl five_edits)) as H.
  split.
  - destruct (H 589) as (_ & _ & _ & Hpending & _).
    + reflexivity.
    + simpl. lia.
    + simpl. unfold delay. lia.
    + apply Hpending. simpl. unfold delay. lia.
  - destruct (H 590) as (_ & _ & _ & _ & Hfired & _).
    + reflexivity.
    + simpl. lia.
    + simpl. unfold delay. lia.
    + apply Hfired. simpl. unfold delay. lia.
Defined.

Example five_edits_one_snapshot :
  submitted
    (elapse 5000
       (run (edit_events five_edits) (mount 0 (JObj []))))
  = [JObj []; JObj [("pieces", tagged xsd_double "12345")]].
Proof. reflexivity. Qed.

(** The five updates are what [handleFieldChange] makes of the inputs; an
    input it throws on makes no update at all. *)
Example edits_are_handled :
  handleFieldChange integral_host "pieces" (JStr "12345") "integer" "integer"
  = Ok (pieces_edit 12345)
  /\ handleFieldChange integral_host "pieces" (JNum (Int 1)) "integer"
       "integer"
     = Ok (pieces_edit 1)
  /\ handleFieldChange integral_host "pieces"
       (JObj [("toString", JNull)]) "integer" "integer"
     = Throw "TypeError: Cannot convert object to primitive value".
Proof. repeat split. Qed.

Example unmount_cancels :
  submitted
    (elapse 5000
       (unmount 200
          (run (edit_events five_edits) (mount 0 (JObj [])))))
  = [JObj []].
Proof. reflexivity. Qed.

(** * Further properties *)

(** ** Schema resolution: fuel, order and the relational reading *)

Section ResolutionMore.

Variable assets : gmap string (list Column.t).

Lemma resolveColumn_more_fuel n column r :
  (forall n', n' < n -> forall columns r',
     generateFormFields assets n' columns = Some r' ->
     forall m', n' <= m' -> generateFormFields assets m' columns = Some r') ->
  resolveColumn assets n column = Some r ->
  forall m, n <= m -> resolveColumn assets m column = Some r.
Proof.
  intros IH Hres m Hle. unfold resolveColumn in *.
  destruct (Column.schemaType column =? "Embedded"); [|exact Hres].
  destruct (assets !! Column.type column) as [embedded|]; [|exact Hres].
  destruct n as [|n]; [discriminate|].
  destruct m as [|m]; [lia|].
  destruct (generateFormFields assets n embedded) as [[children log]|] eqn:Hg;
    [|discriminate].
  now rewrite (IH n (Nat.lt_succ_diag_r n) embedded _ Hg m) by lia.
Qed.

Lemma generateFormFields_more_fuel n :
  forall columns r,
    generateFormFields assets n columns = Some r ->
    forall m, n <= m -> generateFormFields assets m columns = Some r.
Proof.
  induction n as [n IH] using lt_wf_ind.
  induction columns as [|column rest IHrest]; intros r Hgen m Hle.
  - rewrite generateFormFields_nil in *. exact Hgen.
  - rewrite generateFormFields_cons in *.
    destruct (resolveColumn assets n column) as [resolved|] eqn:Hres;
      [|discriminate].
    rewrite (resolveColumn_more_fuel n column resolved IH Hres m Hle).
    simpl in *.
    destruct (generateFormFields assets n rest) as [others|] eqn:Hrest;
      [|discriminate].
    now rewrite (IHrest others eq_refl m Hle).
Qed.

(** X2.  The loop treats each column on its own: resolving a concatenation
    is resolving both parts and appending the fields and the logs. *)
Theorem resolution_of_append
    (fuel : nat) (front back : list Column.t) :
  generateFormFields assets fuel (front ++ back)%list
  = '(fs, log) ← generateFormFields assets fuel front;
    '(fs', log') ← generateFormFields assets fuel back;
    Some ((fs ++ fs')%list, (log ++ log')%list).
Proof. apply generateFormFields_app. Qed.

(** What the function returns, the relation derives. *)
Lemma generateFormFields_Resolved fuel :
  forall columns fs log,
    generateFormFields assets fuel columns = Some (fs, log) ->
    Resolved assets columns fs log.
Proof.
  induction fuel as [fuel IH] using lt_wf_ind.
  induction columns as [|column rest IHrest]; intros fs log Hgen.
  - rewrite generateFormFields_nil in Hgen. injection Hgen as <- <-.
    constructor.
  - rewrite generateFormFields_cons in Hgen.
    destruct (resolveColumn assets fuel column) as [[f lines]|] eqn:Hres;
      [|discriminate].
    simpl in Hgen.
    destruct (generateFormFields assets fuel rest) as [[others log']|] eqn:Hr;
      [|discriminate].
    simpl in Hgen. injection Hgen as <- <-.
    specialize (IHrest others log' eq_refl).
    unfold resolveColumn in Hres.
    destruct (String.eqb_spec (Column.schemaType column) "Embedded")
      as [He|Hne].
    + destruct (assets !! Column.type column) as [embedded|] eqn:Ha.
      * destruct fuel as [|fuel]; [discriminate|].
        destruct (generateFormFields assets fuel embedded)
          as [[children l]|] eqn:Hg; [|discriminate].
        simpl in Hres. injection Hres as <- <-.
        eapply Resolved_embedded; eauto.
      * injection Hres as <- <-. now apply Resolved_missing.
    + destruct (String.eqb_spec (Column.schemaType column) "Enum")
        as [Hen|Hnen]; injection Hres as <- <-.
      * now apply Resolved_enum.
      * now apply Resolved_plain.
Qed.

Lemma resolveColumn_embedded n column embedded :
  Column.schemaType column = "Embedded" ->
  assets !! Column.type column = Some embedded ->
  resolveColumn assets (S n) column
  = '(children, log) ← generateFormFields assets n embedded;
    Some (with_fields children (newField column "fieldset"), log).
Proof. intros He Ha. unfold resolveColumn. now rewrite He, Ha. Qed.

(** What the relation derives, the function returns with fuel enough. *)
Lemma Resolved_generateFormFields columns fs log :
  Resolved assets columns fs log ->
  exists fuel, generateFormFields assets fuel columns = Some (fs, log).
Proof.
  induction 1 as
    [ | column rest others log He Ha _ [n Hn]
      | column embedded children lines rest others log He Ha _ [k Hk] _ [n Hn]
      | column rest others log Hen _ [n Hn]
      | column rest others log Hne Hnen _ [n Hn] ].
  - exists 0. apply generateFormFields_nil.
  - exists n. rewrite generateFormFields_cons.
    rewrite (resolveColumn_missing assets n column He Ha), Hn. reflexivity.
  - exists (S (Nat.max k n)). rewrite generateFormFields_cons.
    rewrite (resolveColumn_embedded _ column embedded He Ha).
    rewrite (generateFormFields_more_fuel k embedded _ Hk (Nat.max k n))
      by lia.
    rewrite (generateFormFields_more_fuel n rest _ Hn (S (Nat.max k n)))
      by lia.
    reflexivity.
  - exists n. rewrite generateFormFields_cons.
    unfold resolveColumn. rewrite Hen. simpl. rewrite Hn. reflexivity.
  - exists n. rewrite generateFormFields_cons.
    rewrite (resolveColumn_plain assets n column Hne Hnen), Hn. reflexivity.
Qed.

End ResolutionMore.

(** ** Schema resolution: what the fields carry *)

Lemma copied_newField column dataType :
  copied column (newField column dataType).
Proof. repeat split. Qed.

Lemma copied_plainField column : copied column (plainField column).
Proof.
  unfold plainField.
  destruct (includes basicTypes (toLowerCase (Column.type column)));
    [|repeat split].
  repeat match goal with
         | |- context [String.eqb ?a ?b] => destruct (String.eqb a b)
         end; apply copied_newField.
Qed.

Lemma plainField_leaf column :
  fields (plainField column) = None
  /\ includes dataTypes (dataType (plainField column)) = true
  /\ dataType (plainField column) <> "fieldset"
  /\ dataType (plainField column) <> "datetime".
Proof.
  unfold plainField.
  destruct (includes basicTypes (toLowerCase (Column.type column)));
    [|repeat split; discriminate].
  repeat match goal with
         | |- context [String.eqb ?a ?b] => destruct (String.eqb a b)
         end; repeat split; discriminate.
Qed.

Section ResolvedFields.

Variable assets : gmap string (list Column.t).

Lemma Resolved_copied columns fs log :
  Resolved assets columns fs log -> Forall2 copied columns fs.
Proof.
  induction 1; constructor; try assumption;
    try apply copied_newField; try apply copied_plainField; repeat split.
Qed.


Lemma every_leaf P f : fields f = None -> every P f = P f.
Proof. intros Hf. destruct f; simpl in *. rewrite Hf. apply andb_true_r. Qed.

Lemma every_with_fields P children f :
  every P (with_fields children f)
  = P (with_fields children f) && forallb (every P) children.
Proof. now destruct f. Qed.

Lemma Resolved_dataTypes columns fs log :
  Resolved assets columns fs log ->
  forallb (every assignable) fs = true.
Proof.
  induction 1 as
    [ | column rest others log He Ha _ IH
      | column embedded children lines rest others log He Ha _ IHc _ IH
      | column rest others log Hen _ IH
      | column rest others log Hne Hnen _ IH ];
    [reflexivity|..];
    change (forallb (every assignable) (?f :: others))
      with (every assignable f && forallb (every assignable) others);
    rewrite IH, andb_true_r.
  - now rewrite every_leaf.
  - now rewrite every_with_fields, IHc.
  - now rewrite every_leaf.
  - destruct (plainField_leaf column) as (Hf & Hd & _ & Hdt).
    rewrite (every_leaf _ _ Hf). unfold assignable. rewrite Hd. simpl.
    now destruct (String.eqb_spec (dataType (plainField column)) "datetime").
Qed.

(** X4.  Every field of a resolution, at any depth, has one of the seven
    data types fieldset, url, boolean, integer, double, datetime-local and
    text; none has the data type "datetime" that [createTypedValue],
    [extractValue] and the fieldset child's encoder and decoder test for. *)
Theorem resolved_data_types
    (fuel : nat) (columns : list Column.t) (fs : list Field)
    (log : list string) :
  generateFormFields assets fuel columns = Some (fs, log) ->
  forallb (every assignable) fs = true.
Proof.
  intros Hgen. eapply Resolved_dataTypes, generateFormFields_Resolved, Hgen.
Qed.

Lemma Resolved_lookup_embedded columns fs log :
  Resolved assets columns fs log ->
  forall i column embedded,
    columns !! i = Some column ->
    Column.schemaType column = "Embedded" ->
    assets !! Column.type column = Some embedded ->
    exists children lines,
      fs !! i = Some (with_fields children (newField column "fieldset"))
      /\ Resolved assets embedded children lines
      /\ (forall line, In line lines -> In line log).
Proof.
  induction 1 as
    [ | column rest others log He Ha _ IH
      | column embedded children lines rest others log He Ha Hc _ _ IH
      | column rest others log Hen _ IH
      | column rest others log Hne Hnen _ IH ];
    intros i c emb Hi Hemb Hasset.
  - destruct i; discriminate.
  - destruct i as [|i]; simpl in Hi.
    + injection Hi as <-. congruence.
    + destruct (IH i c emb Hi Hemb Hasset) as (ch & l & Hl & Hr & Hin).
      exists ch, l. repeat split; try assumption.
      intros line Hline. right. now apply Hin.
  - destruct i as [|i]; simpl in Hi.
    + injection Hi as <-. rewrite Ha in Hasset. injection Hasset as <-.
      exists children, lines. repeat split; try assumption.
      intros line Hline. apply in_or_app. now left.
    + destruct (IH i c emb Hi Hemb Hasset) as (ch & l & Hl & Hr & Hin).
      exists ch, l. repeat split; try assumption.
      intros line Hline. apply in_or_app. right. now apply Hin.
  - destruct i as [|i]; simpl in Hi.
    + injection Hi as <-. rewrite Hen in Hemb. discriminate.
    + apply (IH i c emb Hi Hemb Hasset).
  - destruct i as [|i]; simpl in Hi.
    + injection Hi as <-. contradiction.
    + apply (IH i c emb Hi Hemb Hasset).
Qed.

(** X5.  In a resolution that settles, the field of an Embedded column whose
    schema can be imported is a fieldset whose [fields] are what resolving
    the embedded schema's own columns gives: one child per embedded column,
    in order, each carrying its column's attributes, and whatever resolving
    them logged is in the log. *)
Theorem embedded_children
    (fuel : nat) (columns : list Column.t) (fs : list Field)
    (log : list string) (i : nat) (column : Column.t)
    (embedded : list Column.t) :
  generateFormFields assets fuel columns = Some (fs, log) ->
  columns !! i = Some column ->
  Column.schemaType column = "Embedded" ->
  assets !! Column.type column = Some embedded ->
  exists f children lines fuel',
    fs !! i = Some f
    /\ dataType f = "fieldset"
    /\ fields f = Some children
    /\ generateFormFields assets fuel' embedded = Some (children, lines)
    /\ Forall2 copied embedded children
    /\ (forall line, In line lines -> In line log).
Proof.
  intros Hgen Hi He Ha.
  apply generateFormFields_Resolved in Hgen.
  destruct (Resolved_lookup_embedded _ _ _ Hgen i column embedded Hi He Ha)
    as (children & lines & Hl & Hr & Hin).
  destruct (Resolved_generateFormFields assets _ _ _ Hr) as [fuel' Hf].
  exists (with_fields children (newField column "fieldset")), children, lines,
    fuel'.
  repeat split; try assumption. now apply (Resolved_copied embedded _ lines).
Qed.

Lemma childless_leaf f :
  fields f = None ->
  childless f = if dataType f =? "fieldset" then 1 else 0.
Proof. destruct f; simpl. now intros ->. Qed.

Lemma Resolved_log columns fs log :
  Resolved assets columns fs log ->
  (forall line, In line log ->
     exists column,
       Column.schemaType column = "Embedded"
       /\ assets !! Column.type column = None
       /\ line = schemaLoadError column)
  /\ length log = list_sum (List.map childless fs).
Proof.
  induction 1 as
    [ | column rest others log He Ha _ [IHl IHn]
      | column embedded children lines rest others log He Ha _ [IHcl IHcn]
          _ [IHl IHn]
      | column rest others log Hen _ [IHl IHn]
      | column rest others log Hne Hnen _ [IHl IHn] ].
  - split; [intros line []|reflexivity].
  - split.
    + intros line [<-|Hin]; [now exists column|now apply IHl].
    + simpl. now rewrite IHn.
  - split.
    + intros line Hin. apply in_app_or in Hin as [Hin|Hin];
        [now apply IHcl|now apply IHl].
    + rewrite length_app. simpl. now rewrite IHcn, IHn.
  - split; [exact IHl|]. simpl. now rewrite IHn.
  - split; [exact IHl|].
    destruct (plainField_leaf column) as (Hf & _ & Hd & _).
    change (list_sum (List.map childless (plainField column :: others)))
      with (childless (plainField column)
            + list_sum (List.map childless others)).
    rewrite (childless_leaf _ Hf).
    destruct (String.eqb_spec (dataType (plainField column)) "fieldset");
      [contradiction|]. exact IHn.
Qed.

(** X7.  Every line logged reports an Embedded column whose schema is not
    among the assets, and there is exactly one line for each fieldset, at any
    depth, that is left without [fields]: nothing is logged for a schema that
    loads, and no failure goes unlogged. *)
Theorem log_reports_missing_schemas
    (fuel : nat) (columns : list Column.t) (fs : list Field)
    (log : list string) :
  generateFormFields assets fuel columns = Some (fs, log) ->
  (forall line, In line log ->
     exists column,
       Column.schemaType column = "Embedded"
       /\ assets !! Column.type column = None
       /\ line = schemaLoadError column)
  /\ length log = list_sum (List.map childless fs).
Proof.
  intros Hgen. eapply Resolved_log, generateFormFields_Resolved, Hgen.
Qed.

Lemma self_embedding_diverges
    (t : string) (columns : list Column.t) (column : Column.t) (fuel : nat) :
  embeds_itself assets t ->
  In column columns ->
  Column.schemaType column = "Embedded" ->
  Column.type column = t ->
  generateFormFields assets fuel columns = None.
Proof.
  intros (embedded & inner & Ha & Hinner & Hie & Hit).
  revert columns column.
  induction fuel as [|fuel IH]; intros columns column Hin He Ht.
  - induction columns as [|c rest IHrest]; [contradiction|].
    rewrite generateFormFields_cons. destruct Hin as [->|Hin].
    + unfold resolveColumn. now rewrite He, Ht, Ha.
    + rewrite (IHrest Hin).
      now destruct (resolveColumn assets 0 c) as [[f l]|].
  - induction columns as [|c rest IHrest]; [contradiction|].
    rewrite generateFormFields_cons. destruct Hin as [->|Hin].
    + rewrite (resolveColumn_embedded assets fuel column embedded He)
        by now rewrite Ht.
      now rewrite (IH embedded inner Hinner Hie Hit).
    + rewrite (IHrest Hin).
      now destruct (resolveColumn assets (S fuel) c) as [[f l]|].
Qed.

(** X6.  A schema that embeds itself is never resolved: whatever the fuel,
    a column list that embeds it does not settle. *)
Theorem self_embedding_never_settles
    (t : string) (columns : list Column.t) (column : Column.t) (fuel : nat) :
  embeds_itself assets t ->
  In column columns ->
  Column.schemaType column = "Embedded" ->
  Column.type column = t ->
  generateFormFields assets fuel columns = None.
Proof. apply self_embedding_diverges. Qed.

End ResolvedFields.


Lemma resolved_data_types_witness :
  forallb (every assignable)
    [with_fields [newField amount_column "double";
                  with_select (newField unit_column "url")]
       (newField weight_column "fieldset")] = true.
Proof.
  apply (resolved_data_types value_assets 1 [weight_column] _ []).
  vm_compute. reflexivity.
Defined.

(** One Embedded column whose schema has two columns: a fieldset with
    exactly these two children, in order. *)
Lemma embedded_children_witness :
  exists f children lines fuel',
    [with_fields [newField amount_column "double";
                  with_select (newField unit_column "url")]
       (newField weight_column "fieldset")] !! 0 = Some f
    /\ dataType f = "fieldset"
    /\ fields f = Some children
    /\ generateFormFields value_assets fuel' [amount_column; unit_column]
       = Some (children, lines)
    /\ Forall2 copied [amount_column; unit_column] children
    /\ (forall line, In line lines -> In line []).
Proof.
  apply (embedded_children value_assets 1 [weight_column] _ [] 0
           weight_column [amount_column; unit_column]).
  - vm_compute. reflexivity.
  - reflexivity.
  - reflexivity.
  - vm_compute. reflexivity.
Defined.

Lemma log_reports_missing_schemas_witness :
  (forall line, In line [schemaLoadError missing_column] ->
     exists column,
       Column.schemaType column = "Embedded"
       /\ (∅ : gmap string (list Column.t)) !! Column.type column = None
       /\ line = schemaLoadError column)
  /\ length [schemaLoadError missing_column]
     = list_sum (List.map childless
                   [newField missing_column "fieldset";
                    newField title_column "text"]).
Proof.
  apply (log_reports_missing_schemas ∅ 0 [missing_column; title_column]).
  reflexivity.
Defined.

Lemma self_embedding_never_settles_witness :
  generateFormFields part_assets 7 [title_column; part_column] = None.
Proof.
  apply (self_embedding_never_settles part_assets "Part"
           [title_column; part_column] part_column 7).
  - exists [title_column; part_column], part_column.
    split; [vm_compute; reflexivity|].
    split; [right; now left|]. split; reflexivity.
  - right. now left.
  - reflexivity.
  - reflexivity.
Defined.

(** ** Numbers and their text *)

Lemma digit_char d :
  (d < 10)%N ->
  digit_of (pretty_N_char d) = Some (Z.of_N d)
  /\ is_white (pretty_N_char d) = false
  /\ pretty_N_char d <> "-"%char
  /\ pretty_N_char d <> "+"%char
  /\ pretty_N_char d <> "@"%char.
Proof.
  intros Hd.
  assert (d = 0 \/ d = 1 \/ d = 2 \/ d = 3 \/ d = 4 \/ d = 5 \/ d = 6
          \/ d = 7 \/ d = 8 \/ d = 9)%N as Hcases by lia.
  repeat destruct Hcases as [->|Hcases]; try subst d;
    repeat split; discriminate.
Qed.

(** The printed digits of [x] read back as [x], after whatever was read. *)
Lemma digits_pretty_go x :
  (0 < x)%N ->
  forall acc s,
    exists k : nat,
      digits acc (pretty_N_go x s)
      = digits (Some (default 0%Z acc * 10 ^ Z.of_nat k + Z.of_N x)%Z) s.
Proof.
  induction (N.lt_wf_0 x) as [x _ IH]. intros Hx acc s.
  rewrite pretty_N_go_step by exact Hx.
  assert (Hmod : (x `mod` 10 < 10)%N) by (apply N.mod_lt; lia).
  destruct (digit_char _ Hmod) as (Hdigit & _).
  destruct (N.eq_dec (x `div` 10)%N 0%N) as [Hzero|Hpos].
  - rewrite Hzero, pretty_N_go_0. simpl. rewrite Hdigit. exists 1%nat.
    f_equal. f_equal. change (10 ^ Z.of_nat 1)%Z with 10%Z.
    assert (x `mod` 10 = x)%N
      by (apply N.mod_small; apply N.div_small_iff in Hzero; lia).
    lia.
  - destruct (IH (x `div` 10)%N) with (acc := acc)
      (s := String (pretty_N_char (x `mod` 10)) s) as [k Hk].
    { apply N.div_lt; lia. }
    { now apply N.neq_0_lt_0. }
    rewrite Hk. simpl. rewrite Hdigit. exists (S k). f_equal. f_equal.
    rewrite Nat2Z.inj_succ, Z.pow_succ_r by lia.
    pose proof (N.div_mod x 10 ltac:(lia)) as Hdm.
    lia.
Qed.

Lemma pretty_go_head x :
  (0 < x)%N ->
  forall s,
    exists d r, (d < 10)%N /\ pretty_N_go x s = String (pretty_N_char d) r.
Proof.
  induction (N.lt_wf_0 x) as [x _ IH]. intros Hx s.
  rewrite pretty_N_go_step by exact Hx.
  destruct (N.eq_dec (x `div` 10)%N 0%N) as [Hzero|Hpos].
  - rewrite Hzero, pretty_N_go_0. exists (x `mod` 10)%N, s.
    split; [apply N.mod_lt; lia|reflexivity].
  - apply IH; [apply N.div_lt; lia|now apply N.neq_0_lt_0].
Qed.

Lemma pretty_positive_go (p : positive) :
  pretty p = pretty_N_go (N.pos p) "".
Proof. reflexivity. Qed.

(** A text that starts with neither white space nor a sign is read from its
    first character. *)
Lemma parseInt10_unsigned c r :
  is_white c = false -> c <> "-"%char -> c <> "+"%char ->
  parseInt10 (String c r)
  = match digits None (String c r) with
    | None => NaN
    | Some m => binary64 m
    end.
Proof.
  intros Hw Hminus Hplus. unfold parseInt10. simpl skip_white.
  rewrite Hw.
  destruct c as [[] [] [] [] [] [] [] []]; try reflexivity; congruence.
Qed.

(** Below 2^53 an integer is a binary64 value, and prints as its digits. *)
Lemma binary64_safe z : (Z.abs z < two53)%Z -> binary64 z = Int z.
Proof.
  intros Hz. unfold binary64.
  destruct (Z.ltb_spec (Z.abs z) two53); [reflexivity|lia].
Qed.

Lemma number_toString_safe z :
  (Z.abs z < two53)%Z -> number_toString (Int z) = pretty z.
Proof.
  intros Hz. unfold number_toString. rewrite (binary64_safe z Hz).
  unfold integer_text.
  destruct (Z.ltb_spec (Z.abs z) two53); [reflexivity|lia].
Qed.

(** [parseInt(String(z), 10)] reads the digits of [z] back. *)
Lemma parseInt10_pretty (z : Z) : parseInt10 (pretty z) = binary64 z.
Proof.
  destruct z as [|p|p]; [reflexivity|..].
  - change (pretty (Z.pos p)) with (pretty p). rewrite pretty_positive_go.
    destruct (pretty_go_head (N.pos p) eq_refl "") as (d & r & Hd & Hhead).
    destruct (digit_char d Hd) as (_ & Hw & Hm & Hp & _).
    rewrite Hhead, (parseInt10_unsigned _ _ Hw Hm Hp), <- Hhead.
    destruct (digits_pretty_go (N.pos p) eq_refl None "") as [k ->].
    reflexivity.
  - change (pretty (Z.neg p)) with (String "-" (pretty p)).
    rewrite pretty_positive_go. unfold parseInt10. simpl.
    destruct (digits_pretty_go (N.pos p) eq_refl None "") as [k ->].
    reflexivity.
Qed.

Lemma pretty_Z_nonempty (z : Z) : truthy (JStr (pretty z)) = true.
Proof.
  destruct z as [|p|p]; [reflexivity| |reflexivity].
  change (pretty (Z.pos p)) with (pretty p). rewrite pretty_positive_go.
  now destruct (pretty_go_head (N.pos p) eq_refl "") as (d & r & _ & ->).
Qed.

(** Printing a safe integer and reading it again changes nothing, and the
    printed text is never empty. *)
Lemma safe_integer_text z :
  (Z.abs z < two53)%Z ->
  parseInt (JStr (number_toString (Int z))) = Ok (Int z)
  /\ truthy (JStr (number_toString (Int z))) = true.
Proof.
  intros Hz. rewrite (number_toString_safe z Hz). split.
  - unfold parseInt. simpl. now rewrite parseInt10_pretty, binary64_safe.
  - apply pretty_Z_nonempty.
Qed.

(** What is stored and shown for an input that [parseInt] reads as [n]:
    [parseInt(String(n) || '0', 10)]. *)
Lemma shown_integer n z :
  n = NaN \/ (n = Int z /\ (Z.abs z < two53)%Z) ->
  parseInt (or_else (JStr (number_toString n)) (JStr "0")) = Ok n.
Proof.
  intros [->|[-> Hz]]; [reflexivity|].
  destruct (safe_integer_text z Hz) as [Hread Htruthy].
  unfold or_else. now rewrite Htruthy.
Qed.

(** ** The form's record: writing, reading, composing *)

Lemma has_own_replace key v props :
  has_own key (replace_prop key v props) = has_own key props.
Proof.
  unfold has_own. induction props as [|[k x] rest IH]; simpl; [reflexivity|].
  destruct (String.eqb_spec k key) as [->|Hne]; simpl.
  - now rewrite String.eqb_refl.
  - destruct (String.eqb_spec k key); [contradiction|exact IH].
Qed.

Lemma replace_prop_twice key v w props :
  replace_prop key w (replace_prop key v props) = replace_prop key w props.
Proof.
  induction props as [|[k x] rest IH]; simpl; [reflexivity|].
  destruct (String.eqb_spec k key) as [->|Hne]; simpl.
  - now rewrite String.eqb_refl.
  - destruct (String.eqb_spec k key); [contradiction|]. now rewrite IH.
Qed.

Lemma has_own_add key v props : has_own key (add_prop key v props) = true.
Proof.
  unfold has_own. induction props as [|[k x] rest IH]; simpl.
  - now rewrite String.eqb_refl.
  - destruct (precedes key k); simpl.
    + now rewrite String.eqb_refl.
    + rewrite IH. apply orb_true_r.
Qed.

Lemma replace_add_prop key v w props :
  has_own key props = false ->
  replace_prop key w (add_prop key v props) = add_prop key w props.
Proof.
  unfold has_own. induction props as [|[k x] rest IH]; simpl.
  - now rewrite String.eqb_refl.
  - destruct (String.eqb_spec k key) as [->|Hne]; simpl; [discriminate|].
    intros Hrest. destruct (precedes key k); simpl.
    + now rewrite String.eqb_refl.
    + destruct (String.eqb_spec k key); [contradiction|].
      now rewrite (IH Hrest).
Qed.

Lemma set_prop_twice key v w props :
  set_prop key w (set_prop key v props) = set_prop key w props.
Proof.
  unfold set_prop. destruct (has_own key props) eqn:Hown.
  - now rewrite has_own_replace, Hown, replace_prop_twice.
  - now rewrite has_own_add, replace_add_prop.
Qed.

(** Rules out, one by one, the cases of a [switch] over a data type that is
    none of the listed ones. *)
Ltac no_case Hnot :=
  repeat match goal with
    | |- context [String.eqb ?d ?c] =>
        destruct (String.eqb_spec d c);
        [exfalso; apply Hnot; subst; simpl; auto 10|]
    end.

(** From 10^21 on a Number is printed with an exponent, of which [parseInt]
    reads the digits before the point. *)
Lemma stored_sextillion :
  number_toString (parseInt10 "1000000000000000000000") = "1e+21".
Proof. vm_compute. reflexivity. Qed.

Section Record.

Variable host : Host.

(** What an edit of a top-level field makes of the record, for a value that
    is not an array. *)
Lemma fieldOnChange_stores field v prevData :
  (forall items, v <> JArr items) ->
  fieldOnChange host field v prevData
  = newValue ←
      (if dataType field =? "url" then
         if negb (type field =? "fieldset") then Ok (JObj [("@id", v)])
         else Ok v
       else if dataType field =? "boolean" then
         Ok (tagged xsd_boolean (boolean_text v))
       else if dataType field =? "integer" then
         n ← parseInt v; Ok (tagged xsd_double (number_toString n))
       else if dataType field =? "double" then
         s ← ToString v;
         Ok (tagged xsd_double (number_toString (parseFloat host s)))
       else if dataType field =? "datetime-local" then
         s ← date_text host v; Ok (tagged xsd_dateTime s)
       else Ok v);
    Ok (JObj (set_prop (name field) newValue (own prevData))).
Proof.
  intros Hv. unfold fieldOnChange, handleFieldChange.
  destruct v; try (now destruct (Hv items));
    match goal with
    | |- context [mbind _ (mbind _ ?m)] => now destruct m
    end.
Qed.

Lemma fieldValue_of_stored field x props :
  fieldValue host (JObj (set_prop (name field) x props)) field
  = if array field then Ok x
    else if dataType field =? "url" then
      Ok (or_else (read x "@id") (JStr ""))
    else if dataType field =? "boolean" then
      Ok (JBool (strict_eq (read x "@value") (JStr "true")))
    else if dataType field =? "integer" then
      n ← parseInt (or_else (read x "@value") (JStr "0")); Ok (JNum n)
    else if dataType field =? "double" then
      s ← ToString (or_else (read x "@value") (JStr "0"));
      Ok (JNum (parseFloat host s))
    else if dataType field =? "datetime-local" then
      Ok (or_else (read x "@value") (JStr ""))
    else Ok x.
Proof.
  rewrite (fieldValue_read host (JObj (set_prop (name field) x props)) field
             eq_refl).
  cbv zeta.
  assert (Hstored : read (JObj (set_prop (name field) x props)) (name field)
                    = x)
    by (unfold read; now rewrite get_set_prop_eq).
  now rewrite Hstored.
Qed.

(** X8.  What the form shows after an edit of a top-level field that is not
    array-valued, for an input that is not an array.  A reference shows the
    input, or the empty string for a falsy input; one whose type is
    "fieldset" shows the "@id" of the input instead.  A boolean shows whether
    the input was [true] or "true".  An integer shows what [parseInt] reads
    in the input when that is NaN or a safe integer, one below 2^53 in
    magnitude, and the edit throws when [parseInt] does; past that it need
    not be the integer typed in, and for 10^21, kept as "1e+21", it is 1.  A
    double shows what [parseFloat] reads in the text of what it read in the
    input.  A datetime-local shows the text of [Date.parse] of the input, a millisecond
    count, not the date that was typed.  A field of any other data type
    shows the input as it is. *)
Theorem form_write_then_read
    (field : Field) (v prevData : jsval) :
  (forall items, v <> JArr items) ->
  array field = false ->
  let shown :=
    d ← fieldOnChange host field v prevData; fieldValue host d field in
  (dataType field = "url" -> type field <> "fieldset" ->
   shown = Ok (or_else v (JStr "")))
  /\ (dataType field = "url" -> type field = "fieldset" ->
      shown = Ok (or_else (read v "@id") (JStr "")))
  /\ (dataType field = "boolean" ->
      shown = Ok (JBool (strict_eq v (JStr "true")
                         || strict_eq v (JBool true))))
  /\ (dataType field = "integer" ->
      forall error, parseInt v = Throw error -> shown = Throw error)
  /\ (dataType field = "integer" ->
      parseInt v = Ok NaN -> shown = Ok (JNum NaN))
  /\ (dataType field = "integer" ->
      forall z, parseInt v = Ok (Int z) -> (Z.abs z < two53)%Z ->
      shown = Ok (JNum (Int z)))
  /\ (dataType field = "integer" ->
      v = JStr "1000000000000000000000" -> shown = Ok (JNum (Int 1)))
  /\ (dataType field = "double" ->
      shown
      = s ← ToString v;
        Ok (JNum (parseFloat host
                    (text (or_else
                             (JStr (number_toString (parseFloat host s)))
                             (JStr "0"))))))
  /\ (dataType field = "datetime-local" ->
      shown = s ← date_text host v; Ok (JStr s))
  /\ (~ In (dataType field)
        ["url"; "boolean"; "integer"; "double"; "datetime-local"] ->
      shown = Ok v).
Proof.
  intros Hv Harr shown. subst shown.
  rewrite (fieldOnChange_stores field v prevData Hv).
  repeat split.
  - intros Hdt Hty. rewrite Hdt. simpl.
    destruct (String.eqb_spec (type field) "fieldset"); [contradiction|].
    simpl. rewrite fieldValue_of_stored, Harr, Hdt. reflexivity.
  - intros Hdt Hty. rewrite Hdt, Hty. simpl.
    rewrite fieldValue_of_stored, Harr, Hdt. reflexivity.
  - intros Hdt. rewrite Hdt. simpl.
    rewrite fieldValue_of_stored, Harr, Hdt. simpl. unfold boolean_text.
    now destruct (strict_eq v (JStr "true") || strict_eq v (JBool true)).
  - intros Hdt error Hthrow. rewrite Hdt. simpl. now rewrite Hthrow.
  - intros Hdt Hnan. rewrite Hdt. simpl. rewrite Hnan. simpl.
    rewrite fieldValue_of_stored, Harr, Hdt. reflexivity.
  - intros Hdt z Hread Hsafe. rewrite Hdt. simpl. rewrite Hread. simpl.
    rewrite fieldValue_of_stored, Harr, Hdt. simpl.
    change (read (tagged xsd_double (number_toString (Int z))) "@value")
      with (JStr (number_toString (Int z))).
    now rewrite (shown_integer (Int z) z) by (right; now split).
  - intros Hdt ->. rewrite Hdt. simpl. rewrite stored_sextillion.
    rewrite fieldValue_of_stored, Harr, Hdt. reflexivity.
  - intros Hdt. rewrite Hdt. simpl.
    destruct (ToString v) as [s|error]; simpl; [|reflexivity].
    rewrite fieldValue_of_stored, Harr, Hdt. simpl.
    change (read (tagged xsd_double ?t) "@value") with (JStr t).
    unfold ToString. now rewrite or_else_printable.
  - intros Hdt. rewrite Hdt. simpl.
    destruct (date_text host v) as [s|error]; simpl; [|reflexivity].
    rewrite fieldValue_of_stored, Harr, Hdt. simpl.
    change (read (tagged xsd_dateTime s) "@value") with (JStr s).
    now rewrite or_else_text.
  - intros Hnot.
    assert (Hstored :
      (if dataType field =? "url" then
         if negb (type field =? "fieldset") then Ok (JObj [("@id", v)])
         else Ok v
       else if dataType field =? "boolean" then
         Ok (tagged xsd_boolean (boolean_text v))
       else if dataType field =? "integer" then
         n ← parseInt v; Ok (tagged xsd_double (number_toString n))
       else if dataType field =? "double" then
         s ← ToString v;
         Ok (tagged xsd_double (number_toString (parseFloat host s)))
       else if dataType field =? "datetime-local" then
         s ← date_text host v; Ok (tagged xsd_dateTime s)
       else Ok v) = Ok v) by now no_case Hnot.
    rewrite Hstored. simpl. rewrite fieldValue_of_stored, Harr.
    now no_case Hnot.
Qed.

(** The update an edit makes is a write under the field's name, the same
    whatever the record. *)
Lemma handleFieldChange_name n v dt ty e :
  handleFieldChange host n v dt ty = Ok e -> fieldName e = n.
Proof.
  unfold handleFieldChange.
  destruct v; try (now intros [= <-]);
    match goal with
    | |- context [mbind _ ?m] => destruct m; simpl; now intros [= <-]
    end.
Qed.

Lemma fieldOnChange_update field v :
  (exists x,
     forall d,
       fieldOnChange host field v d
       = Ok (JObj (set_prop (name field) x (own d))))
  \/ (exists error, forall d, fieldOnChange host field v d = Throw error).
Proof.
  unfold fieldOnChange.
  destruct (handleFieldChange host (name field) v (dataType field)
              (type field)) as [e|error] eqn:He.
  - left. exists (newValue e). intros d. simpl. unfold apply_edit.
    now rewrite (handleFieldChange_name _ _ _ _ _ He).
  - right. exists error. now intros d.
Qed.

(** X9.  An edit of one field leaves every other field of the record as it
    was: what the form shows for a field of another name is unchanged, for
    every data type, array-valued or not. *)
Theorem form_edit_leaves_other_fields
    (edited other : Field) (v recorded : jsval)
    (props : list (string * jsval)) :
  name other <> name edited ->
  fieldOnChange host edited v (JObj props) = Ok recorded ->
  fieldValue host recorded other = fieldValue host (JObj props) other.
Proof.
  intros Hne Hedit.
  destruct (fieldOnChange_update edited v) as [[x Hx]|[error Hthrow]];
    [|rewrite Hthrow in Hedit; discriminate].
  rewrite Hx in Hedit. injection Hedit as <-.
  unfold fieldValue. rewrite !get_object. simpl.
  now rewrite lookup_set_prop_ne by congruence.
Qed.

(** X10.  Edits compose as writes to a map.  A second edit of the same field
    overwrites the first, leaving the record that the second alone would
    give (last write wins), or throwing as it would alone; edits of two
    fields of different names give the same value under every key in either
    order. *)
Theorem form_edits_compose
    (f g : Field) (v w d : jsval) :
  (forall first,
     fieldOnChange host f v d = Ok first ->
     fieldOnChange host f w first = fieldOnChange host f w d)
  /\ (name f <> name g ->
      forall first second,
        fieldOnChange host f v d = Ok first ->
        fieldOnChange host g w d = Ok second ->
        exists both both',
          fieldOnChange host g w first = Ok both
          /\ fieldOnChange host f v second = Ok both'
          /\ forall key,
               lookup_prop key (own both) = lookup_prop key (own both')).
Proof.
  split.
  - intros first Hf.
    destruct (fieldOnChange_update f v) as [[x Hx]|[error Hthrow]];
      [|rewrite Hthrow in Hf; discriminate].
    rewrite Hx in Hf. injection Hf as <-.
    destruct (fieldOnChange_update f w) as [[y Hy]|[error Hthrow]].
    + rewrite !Hy. simpl. now rewrite set_prop_twice.
    + now rewrite !Hthrow.
  - intros Hne first second Hf Hg.
    destruct (fieldOnChange_update f v) as [[x Hx]|[error Hthrow]];
      [|rewrite Hthrow in Hf; discriminate].
    destruct (fieldOnChange_update g w) as [[y Hy]|[error Hthrow]];
      [|rewrite Hthrow in Hg; discriminate].
    rewrite Hx in Hf. injection Hf as <-.
    rewrite Hy in Hg. injection Hg as <-.
    do 2 eexists. split; [apply Hy|]. split; [apply Hx|].
    intros key. simpl.
    destruct (String.eqb_spec key (name f)) as [->|Hkf].
    + rewrite lookup_set_prop_eq.
      rewrite lookup_set_prop_ne by congruence.
      now rewrite lookup_set_prop_eq.
    + rewrite (lookup_set_prop_ne (name f)) by congruence.
      destruct (String.eqb_spec key (name g)) as [->|Hkg].
      * now rewrite !lookup_set_prop_eq.
      * rewrite !(lookup_set_prop_ne (name g)) by congruence.
        now rewrite lookup_set_prop_ne by congruence.
Qed.

End Record.

Lemma form_write_then_read_witness :
  (d ← fieldOnChange integral_host pieces_field (JStr "12.5") (JObj []);
   fieldValue integral_host d pieces_field)
  = Ok (JNum (Int 12)).
Proof.
  destruct (form_write_then_read integral_host pieces_field (JStr "12.5")
              (JObj [])) as (_ & _ & _ & _ & _ & Hint & _).
  - discriminate.
  - reflexivity.
  - apply (Hint eq_refl 12%Z); reflexivity.
Defined.

(** From 2^53 on the integer shown is no longer the one typed in, and from
    10^21 on it is its leading digit: the record keeps the text "1e+21",
    of which [parseInt] reads the 1. *)
Example unsafe_integer_shown :
  (d ← fieldOnChange integral_host pieces_field
         (JStr "1000000000000000000000") (JObj []);
   Ok d)
  = Ok (JObj [("pieces", tagged xsd_double "1e+21")])
  /\ (d ← fieldOnChange integral_host pieces_field
            (JStr "1000000000000000000000") (JObj []);
      fieldValue integral_host d pieces_field)
     = Ok (JNum (Int 1)).
Proof. vm_compute. split; reflexivity. Qed.

Lemma form_edit_leaves_other_fields_witness :
  fieldValue integral_host
    (JObj [("consignment", JObj [("@id", JStr "A")]);
           ("pieces", tagged xsd_double "3")])
    consignment_field
  = fieldValue integral_host
      (JObj [("consignment", JObj [("@id", JStr "A")])]) consignment_field.
Proof.
  apply (form_edit_leaves_other_fields integral_host pieces_field
           consignment_field (JStr "3")).
  - discriminate.
  - reflexivity.
Defined.

Lemma form_edits_compose_witness :
  exists both both',
    fieldOnChange integral_host consignment_field (JStr "A")
      (JObj [("pieces", tagged xsd_double "3")]) = Ok both
    /\ fieldOnChange integral_host pieces_field (JStr "3")
         (JObj [("consignment", JObj [("@id", JStr "A")])]) = Ok both'
    /\ lookup_prop "pieces" (own both) = lookup_prop "pieces" (own both').
Proof.
  destruct (form_edits_compose integral_host pieces_field consignment_field
              (JStr "3") (JStr "A") (JObj [])) as [_ Hswap].
  destruct (Hswap ltac:(discriminate)
              (JObj [("pieces", tagged xsd_double "3")])
              (JObj [("consignment", JObj [("@id", JStr "A")])])
              eq_refl eq_refl) as (both & both' & Hg & Hf & Hkeys).
  exists both, both'. split; [exact Hg|]. split; [exact Hf|]. apply Hkeys.
Defined.

(** ** The record over the life of the form *)

Section RecordInvariant.

Variable host : Host.

Lemma initialFormData_truthy initialData :
  truthy (initialFormData initialData) = true.
Proof.
  unfold initialFormData, or_else.
  now destruct (truthy initialData) eqn:Ht.
Qed.

Lemma apply_edit_truthy e data : truthy (apply_edit e data) = true.
Proof. reflexivity. Qed.

(** On a record that is not [null] or [undefined], the one error the
    form's decoder can throw is that of the conversion to a string. *)
Lemma fieldValue_error formData field error :
  truthy formData = true ->
  fieldValue host formData field = Throw error ->
  error = "TypeError: Cannot convert object to primitive value".
Proof.
  intros Hv. rewrite (fieldValue_read host formData field Hv). cbv zeta.
  rewrite parseInt_printable. unfold ToString.
  destruct (array field); [discriminate|].
  repeat match goal with
         | |- context [String.eqb ?a ?b] =>
             destruct (String.eqb a b); try discriminate
         end;
    match goal with
    | |- context [printable ?x] => destruct (printable x)
    end; simpl; congruence.
Qed.

Lemma truthy_step f ev :
  truthy (contents (formData f)) = true ->
  truthy (contents (debouncedFormData f)) = true ->
  (forall due held, timer f = Some (due, held) ->
     truthy (contents held) = true) ->
  Forall (fun snapshot => truthy snapshot = true) (submitted f) ->
  let f' := step f ev in
  truthy (contents (formData f')) = true
  /\ truthy (contents (debouncedFormData f')) = true
  /\ (forall due held, timer f' = Some (due, held) ->
        truthy (contents held) = true)
  /\ Forall (fun snapshot => truthy snapshot = true) (submitted f').
Proof.
  intros Hf Hd Ht Hs.
  assert (Helapse : forall t,
    truthy (contents (formData (elapse t f))) = true
    /\ truthy (contents (debouncedFormData (elapse t f))) = true
    /\ (forall due held, timer (elapse t f) = Some (due, held) ->
          truthy (contents held) = true)
    /\ Forall (fun snapshot => truthy snapshot = true)
         (submitted (elapse t f))).
  { intros t. unfold elapse.
    destruct (timer f) as [[due held]|] eqn:Htimer.
    - destruct (Nat.leb due t).
      + unfold fire. destruct (Nat.eqb _ _); simpl;
          repeat split; try assumption; try discriminate.
        * now apply (Ht due held).
        * apply Forall_app. split; [assumption|].
          constructor; [now apply (Ht due held)|constructor].
      + simpl. repeat split; try assumption.
        intros due' held' Heq. rewrite Htimer in Heq. injection Heq as _ <-.
        now apply (Ht due held).
    - simpl. repeat split; try assumption.
      intros due' held' Heq. rewrite Htimer in Heq. discriminate. }
  destruct ev as [t e|t|t]; cbn [step].
  - unfold edit. destruct (Helapse t) as (Hf' & Hd' & Ht' & Hs').
    set (g := elapse t f) in *. clearbody g.
    destruct (mounted g); [|repeat split; assumption].
    simpl. repeat split; try assumption.
    intros due held [= _ <-]. apply apply_edit_truthy.
  - unfold newOnSubmit. destruct (Helapse t) as (Hf' & Hd' & Ht' & Hs').
    set (g := elapse t f) in *. clearbody g.
    destruct (mounted g); [|repeat split; assumption].
    simpl. repeat split; try assumption.
    apply Forall_app. split; [assumption|]. now repeat constructor.
  - unfold unmount. destruct (Helapse t) as (Hf' & Hd' & Ht' & Hs').
    set (g := elapse t f) in *. clearbody g.
    simpl. repeat split; try assumption.
    intros due held Heq. discriminate Heq.
Qed.

(** X11.  Whatever the initial data and whatever happens to the form, the
    record is never falsy, and [onSubmit] is only ever handed objects or
    other truthy values, a falsy [initialData] having been replaced by the
    empty object.  Reading the value to show for a field therefore never
    fails on the record itself: it returns, unless the field is an integer
    or a double whose stored "@value" [String] cannot convert, and the error
    is then that of the conversion. *)
Theorem record_stays_readable
    (initialData : jsval) (t0 : nat) (history : list Event) (field : Field) :
  let f := run history (mount t0 initialData) in
  let v := read (read (contents (formData f)) (name field)) "@value" in
  truthy (contents (formData f)) = true
  /\ ((exists shown, fieldValue host (contents (formData f)) field = Ok shown)
      <-> (array field = false ->
           dataType field = "integer" \/ dataType field = "double" ->
           printable v = true))
  /\ (forall error,
        fieldValue host (contents (formData f)) field = Throw error ->
        error = "TypeError: Cannot convert object to primitive value")
  /\ Forall (fun snapshot => truthy snapshot = true) (submitted f)
  /\ (truthy initialData = false ->
      contents (formData (mount t0 initialData)) = JObj []).
Proof.
  intros f v.
  assert (Hinv :
    truthy (contents (formData f)) = true
    /\ truthy (contents (debouncedFormData f)) = true
    /\ (forall due held, timer f = Some (due, held) ->
          truthy (contents held) = true)
    /\ Forall (fun snapshot => truthy snapshot = true) (submitted f)).
  { subst v f. pose proof (initialFormData_truthy initialData) as H0.
    assert (Hstart :
      truthy (contents (formData (mount t0 initialData))) = true
      /\ truthy (contents (debouncedFormData (mount t0 initialData))) = true
      /\ (forall due held,
            timer (mount t0 initialData) = Some (due, held) ->
            truthy (contents held) = true)
      /\ Forall (fun snapshot => truthy snapshot = true)
           (submitted (mount t0 initialData))).
    { simpl. repeat split; try exact H0.
      - now intros due held [= _ <-].
      - now repeat constructor. }
    clear H0. revert Hstart. generalize (mount t0 initialData).
    induction history as [|ev events IH]; intros f0 Hstart; [exact Hstart|].
    simpl. apply IH.
    destruct Hstart as (Hf & Hd & Ht & Hs).
    exact (truthy_step f0 ev Hf Hd Ht Hs). }
  destruct Hinv as (Hf & _ & _ & Hs).
  split; [exact Hf|]. split; [now apply fieldValue_returns|].
  split; [intros error; now apply fieldValue_error|]. split; [exact Hs|].
  intros Hfalsy. simpl. unfold initialFormData, or_else. now rewrite Hfalsy.
Qed.

End RecordInvariant.

(** ** Fieldsets: children written and read *)

Section FieldsetChildren.

Variable host : Host.

(** What the decoder of a fieldset child makes of what the fieldset holds
    for it. *)
Lemma childValue_read value key dataType :
  let child := read value key in
  childValue host value key dataType
  = if dataType =? "url" then Ok (or_else (read child "@id") (JStr ""))
    else if dataType =? "boolean" then
      Ok (JBool (strict_eq (read child "@value") (JStr "true")))
    else if dataType =? "integer" then
      n ← parseInt (or_else (read child "@value") (JStr "0")); Ok (JNum n)
    else if dataType =? "double" then
      s ← ToString (or_else (read child "@value") (JStr "0"));
      Ok (JNum (parseFloat host s))
    else if dataType =? "datetime" then
      Ok (or_else (read child "@value") (JStr ""))
    else Ok child.
Proof.
  intros child. unfold childValue. rewrite get_opt_read. simpl.
  now rewrite !get_opt_read.
Qed.

Lemma read_set_prop_eq key x props :
  read (JObj (set_prop key x props)) key = x.
Proof. unfold read. now rewrite get_set_prop_eq. Qed.

(** X12.  What a child of a fieldset shows after it was edited.  A reference
    shows the input, or the empty string for a falsy input; a boolean shows
    whether the input was [true] or "true"; an integer shows what [parseInt]
    reads in the input when that is NaN or a safe integer, one below 2^53 in
    magnitude, and the edit throws when [parseInt] does, while 10^21, kept
    as "1e+21", is shown as 1; a double shows what [parseFloat] reads in the
    text of what it read in the input; a child of
    any other data type than "datetime" shows the input as it is.  In a
    fieldset that held an object, every sibling, whose name is neither the
    edited child's nor "@type", shows what it showed before.  So does, in a
    fieldset that held nothing yet, every sibling but one named after a
    member that the new object inherits. *)
Theorem fieldset_child_write_then_read
    (field sub sibling : Field) (value v : jsval) :
  name sub <> "@type" ->
  let shown :=
    merged ← fieldsetValue host field sub value v;
    childValue host merged (name sub) (dataType sub) in
  (dataType sub = "url" -> shown = Ok (or_else v (JStr "")))
  /\ (dataType sub = "boolean" ->
      shown = Ok (JBool (strict_eq v (JStr "true")
                         || strict_eq v (JBool true))))
  /\ (dataType sub = "integer" ->
      forall error, parseInt v = Throw error -> shown = Throw error)
  /\ (dataType sub = "integer" ->
      parseInt v = Ok NaN -> shown = Ok (JNum NaN))
  /\ (dataType sub = "integer" ->
      forall z, parseInt v = Ok (Int z) -> (Z.abs z < two53)%Z ->
      shown = Ok (JNum (Int z)))
  /\ (dataType sub = "integer" ->
      v = JStr "1000000000000000000000" -> shown = Ok (JNum (Int 1)))
  /\ (dataType sub = "double" ->
      shown
      = s ← ToString v;
        Ok (JNum (parseFloat host
                    (text (or_else
                             (JStr (number_toString (parseFloat host s)))
                             (JStr "0"))))))
  /\ (~ In (dataType sub)
        ["url"; "boolean"; "integer"; "double"; "datetime"] ->
      shown = Ok v)
  /\ (forall merged,
        fieldsetValue host field sub value v = Ok merged ->
        name sibling <> name sub -> name sibling <> "@type" ->
        (exists props, value = JObj props)
        \/ ((value = JUndefined \/ value = JNull)
            /\ ~ In (name sibling) Object_prototype) ->
        childValue host merged (name sibling) (dataType sibling)
        = childValue host value (name sibling) (dataType sibling)).
Proof.
  intros Htag shown. subst shown. unfold fieldsetValue.
  repeat split.
  - intros ->. simpl. rewrite childValue_read. cbv zeta.
    now rewrite read_set_prop_eq.
  - intros ->. simpl. rewrite childValue_read. cbv zeta.
    rewrite read_set_prop_eq. simpl. unfold boolean_text.
    now destruct (strict_eq v (JStr "true") || strict_eq v (JBool true)).
  - intros -> error Hthrow. now rewrite childTypedValue_integer, Hthrow.
  - intros -> Hnan. rewrite childTypedValue_integer, Hnan. simpl.
    rewrite childValue_read. cbv zeta. now rewrite read_set_prop_eq.
  - intros -> z Hread Hsafe. rewrite childTypedValue_integer, Hread. simpl.
    rewrite childValue_read. cbv zeta. rewrite read_set_prop_eq. simpl.
    change (read (tagged xsd_integer (number_toString (Int z))) "@value")
      with (JStr (number_toString (Int z))).
    now rewrite (shown_integer (Int z) z) by (right; now split).
  - intros -> ->. rewrite childTypedValue_integer. simpl.
    rewrite stored_sextillion.
    rewrite childValue_read. cbv zeta. now rewrite read_set_prop_eq.
  - intros ->. unfold childTypedValue. simpl.
    destruct (ToString v) as [s|error]; simpl; [|reflexivity].
    rewrite childValue_read. cbv zeta. rewrite read_set_prop_eq. simpl.
    change (read (tagged xsd_double ?t) "@value") with (JStr t).
    unfold ToString. now rewrite or_else_printable.
  - intros Hnot.
    assert (Hkept : childTypedValue host v (dataType sub) = Ok v)
      by (unfold childTypedValue; now no_case Hnot).
    rewrite Hkept. simpl. rewrite childValue_read. cbv zeta.
    rewrite read_set_prop_eq. now no_case Hnot.
  - intros merged Hmerged Hsub Hsibtag Hkind.
    destruct (childTypedValue host v (dataType sub)) as [x|error];
      [|discriminate].
    simpl in Hmerged. injection Hmerged as <-.
    assert (Hchild :
      read (JObj (set_prop (name sub) x
                    (set_prop "@type" (JStr (valueIRI field)) (own value))))
        (name sibling)
      = read value (name sibling)).
    { unfold read. rewrite get_object.
      rewrite lookup_set_prop_ne by congruence.
      rewrite lookup_set_prop_ne by congruence.
      now destruct Hkind as [[props ->]|[[->| ->] _]]. }
    rewrite !childValue_read. cbv zeta. now rewrite Hchild.
Qed.

End FieldsetChildren.

Lemma fieldset_child_write_then_read_witness :
  (merged ← fieldsetValue integral_host address_field x_field xy_value
              (JStr "7.9");
   childValue integral_host merged "x" "integer")
  = Ok (JNum (Int 7)).
Proof.
  destruct (fieldset_child_write_then_read integral_host address_field
              x_field x_field xy_value (JStr "7.9"))
    as (_ & _ & _ & _ & Hint & _).
  - discriminate.
  - apply (Hint eq_refl 7%Z); reflexivity.
Defined.

Lemma record_stays_readable_witness :
  contents (formData (mount 0 JNull)) = JObj [].
Proof.
  destruct (record_stays_readable integral_host JNull 0 [] pieces_field)
    as (_ & _ & _ & _ & Hempty).
  exact (Hempty eq_refl).
Defined.

(** ** A datetime column, at the three places it is edited *)

Section DateTime.

Variable host : Host.

(** X13.  A column whose type lowers to "datetime" gives a field of data
    type "datetime-local".  Edited as a top-level field, its input is stored
    as a typed value, tagged with the XSD dateTime IRI around the text of
    [Date.parse].  Edited as an element of an array or as a child of a
    fieldset it is stored as the bare input, because [createTypedValue] and
    the child encoder test for "datetime"; [extractValue] and the child
    decoder likewise hand the stored value through as it is. *)
Theorem datetime_is_typed_at_top_level_only
    (assets : gmap string (list Column.t)) (fuel : nat)
    (column : Column.t) (v d : jsval) :
  Column.schemaType column <> "Embedded" ->
  Column.schemaType column <> "Enum" ->
  toLowerCase (Column.type column) = "datetime" ->
  (forall items, v <> JArr items) ->
  exists f,
    generateFormFields assets fuel [column] = Some ([f], [])
    /\ dataType f = "datetime-local"
    /\ fieldOnChange host f v d
       = (s ← date_text host v;
          Ok (JObj (set_prop (Column.name column) (tagged xsd_dateTime s)
                      (own d))))
    /\ createTypedValue host v (dataType f) = Ok (or_default v)
    /\ childTypedValue host v (dataType f) = Ok v
    /\ (truthy v = true -> extractValue v (dataType f) = Ok v)
    /\ (forall value key,
          childValue host value key (dataType f) = get_opt value key).
Proof.
  intros Hemb Henum Htype Hv.
  assert (Hdt : dataType (plainField column) = "datetime-local")
    by (unfold plainField; now rewrite Htype).
  destruct (plainField_name column) as [Hname _].
  exists (plainField column). split.
  { rewrite generateFormFields_cons, generateFormFields_nil.
    now rewrite (resolveColumn_plain assets fuel column Hemb Henum). }
  split; [exact Hdt|].
  split.
  { rewrite (fieldOnChange_stores host _ v d Hv), Hdt, Hname. simpl.
    now destruct (date_text host v). }
  rewrite Hdt. repeat split.
  - intros Ht. unfold extractValue. now rewrite Ht.
  - intros value key. unfold childValue.
    now destruct (get_opt value key).
Qed.

End DateTime.

Lemma datetime_is_typed_at_top_level_only_witness :
  exists f,
    generateFormFields ∅ 0 [datetime_column] = Some ([f], [])
    /\ dataType f = "datetime-local"
    /\ fieldOnChange iso_host f (JStr "1970-01-01T00:00:01Z") (JObj [])
       = Ok (JObj [("departure", tagged xsd_dateTime "1000")])
    /\ createTypedValue iso_host (JStr "1970-01-01T00:00:01Z") (dataType f)
       = Ok (JStr "1970-01-01T00:00:01Z").
Proof.
  destruct (datetime_is_typed_at_top_level_only iso_host ∅ 0
              datetime_column (JStr "1970-01-01T00:00:01Z") (JObj []))
    as (f & Hgen & Hdt & Htop & Helem & _).
  - discriminate.
  - discriminate.
  - reflexivity.
  - discriminate.
  - exists f. repeat split; assumption.
Defined.

(** ** An array-valued child of a fieldset *)

Lemma pretty_nat_head (i : nat) :
  exists d r, (d < 10)%N /\ pretty i = String (pretty_N_char d) r.
Proof.
  change (pretty i) with (pretty (N.of_nat i)). unfold pretty, pretty_N.
  destruct (decide (N.of_nat i = 0%N)) as [_|Hne].
  - exists 0%N, "". split; [lia|reflexivity].
  - apply pretty_go_head. now apply N.neq_0_lt_0.
Qed.

(** The keys of an array's elements are their indices: none is a key that
    starts with '@'. *)
Lemma lookup_indexed_tag key rest items :
  key = String "@" rest -> lookup_prop key (indexed items) = None.
Proof.
  intros ->. unfold indexed.
  assert (Hgen : forall (g : nat -> string) (l : list jsval),
            (forall i, g i <> String "@" rest) ->
            lookup_prop (String "@" rest) (imap (fun i x => (g i, x)) l)
            = None).
  { intros g l. revert g. induction l as [|x l IH]; intros g Hg;
      [reflexivity|].
    unfold lookup_prop. simpl.
    destruct (String.eqb_spec (g 0) (String "@" rest)) as [Heq|_].
    - now destruct (Hg 0).
    - apply (IH (fun i => g (S i))). intros i. apply Hg. }
  apply Hgen. intros i Heq.
  destruct (pretty_nat_head i) as (d & r & Hd & Hhead).
  rewrite Hhead in Heq. injection Heq as Hc _.
  now destruct (digit_char d Hd) as (_ & _ & _ & _ & Hat).
Qed.

Section ArrayChild.

Variable host : Host.

(** X17.  The decoder of a fieldset child does not look at the child's
    [array] flag.  When what the fieldset holds for a reference, boolean or
    integer child is an array, the child is handed the empty string, [false]
    or 0, and its list of elements is empty: the stored elements are not
    shown.  A top-level array-valued field is handed the stored array
    itself. *)
Theorem fieldset_array_child_shown_empty
    (value : jsval) (sub : Field) (items : list jsval)
    (props : list (string * jsval)) :
  get_opt value (name sub) = Ok (JArr items) ->
  array sub = true ->
  In (dataType sub) ["url"; "boolean"; "integer"] ->
  (exists shown,
     childValue host value (name sub) (dataType sub) = Ok shown
     /\ arrayValue shown = []
     /\ itemValues sub shown = [])
  /\ (lookup_prop (name sub) props = Some (JArr items) ->
      fieldValue host (JObj props) sub = Ok (JArr items)
      /\ arrayValue (JArr items) = items).
Proof.
  intros Hstored Harr Hin. split.
  - unfold childValue. rewrite Hstored. simpl mbind.
    pose proof (lookup_indexed_tag "@id" "id" items eq_refl) as Hid.
    pose proof (lookup_indexed_tag "@value" "value" items eq_refl) as Hval.
    simpl in Hin. destruct Hin as [<-|[<-|[<-|[]]]]; simpl;
      rewrite ?Hid, ?Hval; eexists; repeat split.
  - intros Hlook. split; [|reflexivity].
    unfold fieldValue. rewrite get_object, Hlook. simpl. now rewrite Harr.
Qed.

End ArrayChild.

Lemma fieldset_array_child_shown_empty_witness :
  exists shown,
    childValue integral_host
      (JObj [("tags", JArr [JObj [("@id", JStr "A")]])]) "tags" "url"
    = Ok shown
    /\ arrayValue shown = []
    /\ itemValues tags_field shown = [].
Proof.
  apply (fieldset_array_child_shown_empty integral_host
           (JObj [("tags", JArr [JObj [("@id", JStr "A")]])]) tags_field
           [JObj [("@id", JStr "A")]] []).
  - reflexivity.
  - reflexivity.
  - now left.
Defined.

(** ** Rendering and unresolved fieldsets *)



(** ** Records that can be printed *)










Section Rendering.

Variable host : Host.








(** A field whose rendering throws whatever its value stops the form. *)
Lemma renderForm_throws fs formData :
  forall i f,
    fs !! i = Some f ->
    (forall value, exists e, render host f value = Throw e) ->
    exists e, renderForm host fs formData = Throw e.
Proof.
  induction fs as [|g rest IH]; intros i f Hi Hthrow.
  - destruct i; discriminate.
  - simpl. destruct (fieldValue host formData g) as [shown|e]; [|eauto].
    simpl. destruct i as [|i]; simpl in Hi.
    + injection Hi as ->. destruct (Hthrow shown) as [e ->]. eauto.
    + destruct (render host g shown) as [[]|e]; simpl; [|eauto].
      now apply (IH i f).
Qed.

(** A fieldset that is not array-valued and was left without [fields]
    cannot be rendered. *)
Lemma render_childless column value :
  Column.array column = false ->
  exists e, render host (newField column "fieldset") value = Throw e.
Proof. intros Harr. unfold render. simpl. rewrite Harr. simpl. eauto. Qed.


(** ** C4: an embedded schema that cannot be loaded *)

(** C4, where the code departs from it.  Take a column list with an Embedded
    column whose schema cannot be imported, the embedded schemas that can
    nesting to a finite depth.  Resolution settles and does not abort: the
    columns before and after resolve to the fields, and log the lines, that
    they would on their own, and the failure is logged at its place.  But
    the failing field is not left out.  It is pushed, between its siblings,
    as a fieldset without [fields]; and unless it is array-valued the form
    built from the result cannot be rendered, whatever the record, because
    the fieldset branch calls [field.fields.map]. *)
Theorem unresolved_embedded_is_kept
    (assets : gmap string (list Column.t)) (rank : string -> nat)
    (front back : list Column.t) (column : Column.t) (formData : jsval) :
  ranked assets rank ->
  Column.schemaType column = "Embedded" ->
  assets !! Column.type column = None ->
  exists fuel before after log log',
    generateFormFields assets fuel front = Some (before, log)
    /\ generateFormFields assets fuel back = Some (after, log')
    /\ generateFormFields assets fuel (front ++ column :: back)%list
       = Some ((before ++ newField column "fieldset" :: after)%list,
               (log ++ schemaLoadError column :: log')%list)
    /\ name (newField column "fieldset") = Column.name column
    /\ dataType (newField column "fieldset") = "fieldset"
    /\ fields (newField column "fieldset") = None
    /\ (Column.array column = false ->
        exists e,
          renderForm host
            (before ++ newField column "fieldset" :: after)%list formData
          = Throw e).
Proof.
  intros Hrank He Ha.
  set (all := (front ++ column :: back)%list).
  set (fuel := enough rank all).
  assert (Hsettles : forall columns,
            (forall c, In c columns -> In c all) ->
            is_Some (generateFormFields assets fuel columns)).
  { intros columns Hsub.
    apply (generateFormFields_settles assets rank Hrank).
    intros c Hin _. apply rank_below_enough. now apply Hsub. }
  clearbody fuel.
  destruct (Hsettles front) as [[before log] Hfront].
  { intros c Hin. apply in_or_app. now left. }
  destruct (Hsettles back) as [[after log'] Hback].
  { intros c Hin. apply in_or_app. right. now right. }
  exists fuel, before, after, log, log'.
  split; [exact Hfront|]. split; [exact Hback|].
  assert (Hall : generateFormFields assets fuel all
                 = Some ((before ++ newField column "fieldset" :: after)%list,
                         (log ++ schemaLoadError column :: log')%list)).
  { subst all. rewrite generateFormFields_app, Hfront. simpl.
    rewrite generateFormFields_cons.
    rewrite (resolveColumn_missing assets fuel column He Ha). simpl.
    now rewrite Hback. }
  split; [exact Hall|]. repeat split.
  intros Harr.
  apply (renderForm_throws _ formData (length before)
           (newField column "fieldset")).
  - now rewrite list_lookup_middle.
  - intros value. now apply render_childless.
Qed.

End Rendering.


(** The spec's case: one Embedded column without a schema, and a sibling. *)
Lemma unresolved_embedded_is_kept_witness :
  exists fuel,
    generateFormFields ∅ fuel [missing_column; title_column]
    = Some ([newField missing_column "fieldset"; newField title_column "text"],
            [schemaLoadError missing_column])
    /\ exists e,
         renderForm integral_host
           [newField missing_column "fieldset"; newField title_column "text"]
           (JObj []) = Throw e.
Proof.
  destruct (unresolved_embedded_is_kept integral_host ∅ (fun _ => 0) []
              [title_column] missing_column (JObj []))
    as (fuel & before & after & log & log' & Hfront & Hback & Hall & _ & _
        & _ & Hthrows).
  - intros t embedded column Ha. discriminate Ha.
  - reflexivity.
  - reflexivity.
  - rewrite generateFormFields_nil in Hfront. injection Hfront as <- <-.
    rewrite generateFormFields_cons, generateFormFields_nil in Hback.
    injection Hback as <- <-.
    exists fuel. split; [exact Hall|]. now apply Hthrows.
Defined.

(** What the browser reports for it. *)
Example unresolved_embedded_breaks_the_form :
  generateFormFields ∅ 0 [missing_column; title_column]
  = Some ([newField missing_column "fieldset"; newField title_column "text"],
          [schemaLoadError missing_column])
  /\ renderForm integral_host
       [newField missing_column "fieldset"; newField title_column "text"]
       (JObj [])
     = Throw "TypeError: Cannot read properties of undefined (reading 'map')".
Proof. split; reflexivity. Qed.

(** A record that cannot be printed stops a form that resolved well. *)
Example unprintable_record_breaks_the_form :
  renderForm integral_host [pieces_field]
    (JObj [("pieces", JObj [("@value", JObj [("toString", JNull)])])])
  = Throw "TypeError: Cannot convert object to primitive value".
Proof. reflexivity. Qed.

Example nested_fieldset_renders :
  renderForm integral_host
    [with_fields [newField amount_column "double";
                  with_select (newField unit_column "url")]
       (newField weight_column "fieldset")]
    (JObj []) = Ok tt.
Proof. reflexivity. Qed.

(** ** Arrays: how the element handlers compose *)

Section ArraysCompose.

Variable host : Host.

Lemma delete_insert_same (a : list jsval) i x :
  delete i (<[i := x]> a) = delete i a.
Proof.
  revert i. induction a as [|y a IH]; intros [|i]; simpl; try reflexivity.
  now rewrite IH.
Qed.

(** X15.  Adding an item and removing it again gives back the array the
    field had, in its normalised form; changing the item just added is the
    same as adding the encoded input in the first place. *)
Theorem array_add_then_remove
    (field : Field) (value v : jsval) :
  let a := arrayValue value in
  exists empty,
    createTypedValue host (JStr "") (dataType field) = Ok empty
    /\ itemAdd host field value = Ok (JArr (a ++ [empty])%list)
    /\ itemRemove (JArr (a ++ [empty])%list) (length a) = JArr a
    /\ itemChange host field (JArr (a ++ [empty])%list) (length a) v
       = (encoded ← createTypedValue host v (dataType field);
          Ok (JArr (a ++ [encoded])%list)).
Proof.
  intros a.
  destruct (createTypedValue_empty host (dataType field)) as [empty Hempty].
  exists empty. split; [exact Hempty|].
  unfold itemRemove, itemChange, itemAdd. rewrite Hempty. simpl arrayValue.
  fold a. split; [reflexivity|]. split.
  - f_equal. rewrite (delete_middle a [] _). apply app_nil_r.
  - destruct (createTypedValue host v (dataType field)) as [encoded|error];
      [|reflexivity].
    simpl. do 2 f_equal.
    rewrite assign_in_range by (rewrite length_app; simpl; lia).
    rewrite <- (Nat.add_0_r (length a)) at 1.
    now rewrite insert_app_r.
Qed.

(** X16.  On an element that exists, a second change overwrites the first,
    a change followed by the removal of the same element is the removal
    alone, and changes of two different elements can be made in either
    order. *)
Theorem array_changes_compose
    (field : Field) (value v w changed : jsval) (i j : nat) :
  i < length (arrayValue value) ->
  j < length (arrayValue value) ->
  itemChange host field value i v = Ok changed ->
  itemChange host field changed i w = itemChange host field value i w
  /\ itemRemove changed i = itemRemove value i
  /\ (i <> j ->
      forall changed',
        itemChange host field value j w = Ok changed' ->
        itemChange host field changed j w
        = itemChange host field changed' i v).
Proof.
  intros Hi Hj. unfold itemChange, itemRemove.
  destruct (createTypedValue host v (dataType field)) as [x|error];
    [|discriminate].
  simpl. intros [= <-]. simpl arrayValue.
  rewrite !(assign_in_range _ _ (arrayValue value)) by assumption.
  repeat split.
  - destruct (createTypedValue host w (dataType field)) as [y|error];
      [|reflexivity].
    simpl. rewrite !assign_in_range
      by (rewrite ?length_insert; assumption).
    now rewrite list_insert_insert_eq.
  - now rewrite delete_insert_same.
  - intros Hne changed'.
    destruct (createTypedValue host w (dataType field)) as [y|error];
      [|discriminate].
    simpl. intros [= <-]. simpl arrayValue.
    rewrite (assign_in_range j y (arrayValue value)) by assumption.
    rewrite !assign_in_range by (rewrite length_insert; assumption).
    do 2 f_equal. now apply list_insert_insert_ne.
Qed.

End ArraysCompose.

Lemma array_changes_compose_witness :
  itemRemove
    (JArr [tagged xsd_integer "7"; tagged xsd_integer "2"]) 0
  = JArr [tagged xsd_integer "2"].
Proof.
  destruct (array_changes_compose integral_host x_field
              (JArr [tagged xsd_integer "1"; tagged xsd_integer "2"])
              (JStr "7") (JStr "8")
              (JArr [tagged xsd_integer "7"; tagged xsd_integer "2"]) 0 1)
    as (_ & Hremove & _).
  - simpl. lia.
  - simpl. lia.
  - reflexivity.
  - exact Hremove.
Defined.

(** ** Reference options: failures, normalisation, matching *)

Lemma get_nullish v key :
  nullish v = false -> get v key = Ok (read v key).
Proof. intros Hv. rewrite <- get_opt_read. now destruct v. Qed.

(** X18.  A load that fails, whether importing the codelists, looking the
    codelist up, fetching the objects or normalising the response threw,
    does the same five things in order: it sets [loading], logs one error,
    empties the options, raises the direct-input flag if the field has a
    value, and clears [loading].  With the dropdown closed a call does
    nothing at all. *)
Theorem failed_load_policy
    (field : Field) (value : jsval)
    (codelists : Result (gmap string (list CodelistItem.t)))
    (response : Result jsval) (s : FieldState) (e : string) :
  (if codelist field then codelists ≫= codelistValues field = Throw e
   else response ≫= responseObjects = Throw e) ->
  (dropdownOpen s = true ->
   loadReferenceOptions field value codelists response s
   = [SetLoading true;
      ConsoleError ("Error loading options for " +:+ name field +:+ ":");
      SetReferenceOptions []]
     ++ (if truthy value then [SetUseDirectInput true] else [])
     ++ [SetLoading false])%list
  /\ (dropdownOpen s = false ->
      loadReferenceOptions field value codelists response s = []).
Proof.
  intros Hfail. unfold loadReferenceOptions. split; intros ->; [|reflexivity].
  simpl. destruct (codelist field); now rewrite Hfail.
Qed.

(** X19.  How a response becomes options.  A [null] or [undefined] response
    throws.  A response whose "@graph" is an array gives the elements of the
    graph that are truthy and have a property of their own, in order.  A
    response without a truthy "@graph" is itself the only candidate.  A
    truthy "@graph" that is not an array throws.  Every option kept is truthy
    and has a property of its own. *)
Theorem response_normalisation (response : jsval) :
  (nullish response = true -> exists e, responseObjects response = Throw e)
  /\ (forall items,
        nullish response = false ->
        read response "@graph" = JArr items ->
        responseObjects response = Ok (List.filter kept items))
  /\ (nullish response = false ->
      truthy (read response "@graph") = false ->
      responseObjects response
      = Ok (if kept response then [response] else []))
  /\ (nullish response = false ->
      truthy (read response "@graph") = true ->
      (forall items, read response "@graph" <> JArr items) ->
      exists e, responseObjects response = Throw e)
  /\ (forall objects,
        responseObjects response = Ok objects ->
        Forall (fun obj => kept obj = true) objects).
Proof.
  split; [|split; [|split; [|split]]].
  - intros Hn. destruct response; try discriminate; simpl; eauto.
  - intros items Hn Hgraph. unfold responseObjects.
    rewrite (get_nullish _ _ Hn), Hgraph. reflexivity.
  - intros Hn Hfalsy. unfold responseObjects.
    rewrite (get_nullish _ _ Hn). simpl. unfold or_else. rewrite Hfalsy.
    simpl. fold (kept response). now destruct (kept response).
  - intros Hn Htruthy Hnot. unfold responseObjects.
    rewrite (get_nullish _ _ Hn). simpl. unfold or_else. rewrite Htruthy.
    destruct (read response "@graph") eqn:Hg; eauto.
    now destruct (Hnot items).
  - intros objects. unfold responseObjects.
    destruct (get response "@graph") as [graph|]; simpl; [|discriminate].
    destruct (or_else graph (JArr [response])); try discriminate.
    intros [= <-]. apply List.Forall_forall. intros x Hx.
    now apply List.filter_In in Hx as [_ Hx].
Qed.

Lemma id_matches_codelist field value entries :
  id_matches value (codelistOption field <$> entries)
  = existsb (fun item => strict_eq (JStr (CodelistItem.id item)) value)
      entries.
Proof.
  unfold id_matches. induction entries as [|item rest IH]; [reflexivity|].
  rewrite fmap_cons. cbn [existsb]. f_equal. exact IH.
Qed.

(** X20.  For a field with a codelist, the current value matches a loaded
    option exactly when it is a string that is the identifier of an entry of
    the field's list; a value that is not a string matches none, since the
    comparison is [===].  When the lookup throws, the list has no entry. *)
Theorem codelist_value_matches
    (field : Field) (table : gmap string (list CodelistItem.t))
    (value : jsval) :
  let entries := default [] (table !! codelistName field) in
  match codelistValues field table with
  | Ok options =>
      (forall text, value = JStr text ->
         (id_matches value options = true
          <-> exists item, In item entries /\ CodelistItem.id item = text))
      /\ ((forall text, value <> JStr text) ->
          id_matches value options = false)
  | Throw _ => entries = []
  end.
Proof.
  intros entries.
  destruct (codelistValues_cases field table)
    as [[-> _]|(e & -> & Hnone & _)];
    [|subst entries; now rewrite Hnone].
  fold entries. rewrite id_matches_codelist. split.
  - intros text ->. rewrite existsb_exists. split.
    + intros (item & Hin & Heq). exists item. split; [exact Hin|].
      simpl in Heq. now apply String.eqb_eq in Heq.
    + intros (item & Hin & <-). exists item. split; [exact Hin|].
      simpl. apply String.eqb_refl.
  - intros Hnot. apply not_true_is_false. rewrite existsb_exists.
    intros (item & _ & Heq). destruct value; try discriminate.
    now destruct (Hnot s).
Qed.

Lemma failed_load_policy_witness :
  loadReferenceOptions consignment_field (JStr "C") (Throw "unused")
    (Ok JNull) dropdown_opened
  = [SetLoading true;
     ConsoleError "Error loading options for consignment:";
     SetReferenceOptions []; SetUseDirectInput true; SetLoading false].
Proof.
  apply (failed_load_policy consignment_field (JStr "C") (Throw "unused")
           (Ok JNull) dropdown_opened
           "TypeError: Cannot read properties of null").
  - reflexivity.
  - reflexivity.
Defined.

Lemma response_normalisation_witness :
  responseObjects graph_AB
  = Ok [JObj [("@id", JStr "A")]; JObj [("@id", JStr "B")]].
Proof.
  destruct (response_normalisation graph_AB) as (_ & Hgraph & _).
  exact (Hgraph [JObj [("@id", JStr "A")]; JObj [("@id", JStr "B")]]
           eq_refl eq_refl).
Defined.

Lemma codelist_value_matches_witness :
  id_matches (JStr "KGM")
    [codelistOption unit_field
       {| CodelistItem.id := "KGM"; CodelistItem.description := "kilogram" |};
     codelistOption unit_field
       {| CodelistItem.id := "LTR"; CodelistItem.description := "litre" |}]
  = true.
Proof.
  pose proof (codelist_value_matches unit_field sample_codelists (JStr "KGM"))
    as H.
  destruct H as [Hstring _].
  apply (Hstring "KGM" eq_refl).
  exists {| CodelistItem.id := "KGM"; CodelistItem.description := "kilogram" |}.
  split; [|reflexivity]. vm_compute. now left.
Defined.

(** ** The direct-input flag over time *)

Lemma afterValueChange_settled field value s :
  Forall (fun option => truthy option = true) (referenceOptions s) ->
  exists s',
    afterValueChange field value s = Ok s'
    /\ referenceOptions s' = referenceOptions s
    /\ loading s' = loading s
    /\ (useDirectInput s = true -> useDirectInput s' = true)
    /\ (dataType field = "url" -> loading s = false ->
        useDirectInput s'
        = useDirectInput s
          || (truthy value && negb (id_matches value (referenceOptions s)))).
Proof.
  intros Ht. unfold afterValueChange, directInputEffect.
  rewrite (some_id_truthy _ _ Ht).
  destruct s as [opts loading0 open0 flag0]. simpl.
  destruct (String.eqb_spec (dataType field) "url") as [Hurl|Hne]; simpl.
  - destruct (truthy value); simpl.
    + destruct (id_matches value opts), loading0; simpl; eexists;
        (split; [reflexivity|]); repeat split; intros; simpl in *;
        try congruence; now destruct flag0.
    + eexists. split; [reflexivity|]. repeat split; intros; simpl in *;
        try congruence; now destruct flag0.
  - eexists. split; [reflexivity|]. repeat split; intros; simpl in *;
      congruence.
Qed.

Lemma fieldStep_settled field m ev :
  settled m ->
  exists m',
    fieldStep field m ev = Ok m'
    /\ settled m'
    /\ (ev <> SwitchFlipped false ->
        useDirectInput (cells m) = true -> useDirectInput (cells m') = true).
Proof.
  intros [Ht Hl].
  destruct ev as [value|codelists response| |checked]; cbn [fieldStep].
  - destruct (afterValueChange_settled field value (cells m) Ht)
      as (s' & -> & Ho & Hl' & Hf & _).
    eexists. split; [reflexivity|]. unfold settled. simpl.
    rewrite Ho, Hl'. repeat split; try assumption. intros _. exact Hf.
  - unfold afterLoad.
    rewrite (load_final_state field (current m) codelists response
               (perform (cells m) (SetDropdownOpen true)) eq_refl).
    match goal with
    | |- context [directInputEffect field (current m) ?s1] =>
        destruct (afterValueChange_settled field (current m) s1)
          as (s' & Hafter & Ho & Hl' & Hf & _)
    end.
    { apply loadedOptions_truthy. }
    unfold afterValueChange in Hafter. rewrite Hafter.
    eexists. split; [reflexivity|]. unfold settled. simpl.
    rewrite Ho, Hl'. simpl. repeat split.
    + apply loadedOptions_truthy.
    + intros _ Hup. apply Hf. simpl. now rewrite Hup.
  - eexists. split; [reflexivity|]. unfold settled. simpl.
    repeat split; try assumption. now intros _.
  - eexists. split; [reflexivity|]. unfold settled. simpl.
    repeat split; try assumption. intros Hne _.
    destruct checked; [reflexivity|]. now destruct Hne.
Qed.

Lemma fieldRun_settled field events :
  forall m,
    settled m ->
    exists m',
      fieldRun field events m = Ok m'
      /\ settled m'
      /\ (~ In (SwitchFlipped false) events ->
          useDirectInput (cells m) = true ->
          useDirectInput (cells m') = true).
Proof.
  induction events as [|ev rest IH]; intros m Hm.
  - exists m. repeat split; try apply Hm. now intros _.
  - destruct (fieldStep_settled field m ev Hm) as (m1 & Hstep & Hm1 & Hup1).
    destruct (IH m1 Hm1) as (m' & Hrun & Hm' & Hup).
    exists m'. simpl. rewrite Hstep. simpl. split; [exact Hrun|].
    split; [exact Hm'|]. intros Hnot Hflag. apply Hup.
    + intros Hin. apply Hnot. now right.
    + apply Hup1; [|exact Hflag]. intros ->. apply Hnot. now left.
Qed.

(** X21.  Over the life of a field.  Mounting it and any events after that
    never throw.  A reference field that is mounted with a value has the flag
    raised at once, before any option is loaded.  Once the flag is up, no
    change of the value and no load, successful or not, lowers it: only the
    user's switch does. *)
Theorem flag_is_lowered_by_the_switch_only
    (field : Field) (value : jsval) (before after : list FieldEvent) :
  exists m0 m1 m2,
    fieldMount field value = Ok m0
    /\ fieldRun field before m0 = Ok m1
    /\ fieldRun field after m1 = Ok m2
    /\ (dataType field = "url" -> useDirectInput (cells m0) = truthy value)
    /\ (~ In (SwitchFlipped false) after ->
        useDirectInput (cells m1) = true ->
        useDirectInput (cells m2) = true).
Proof.
  destruct (afterValueChange_settled field value initialFieldState)
    as (s0 & Hmount & Ho & Hl & _ & Hflag); [constructor|].
  set (m0 := {| current := value; cells := s0 |}).
  assert (Hm0 : settled m0).
  { unfold settled. simpl. rewrite Ho, Hl. split; [constructor|reflexivity]. }
  destruct (fieldRun_settled field before m0 Hm0) as (m1 & Hrun1 & Hm1 & _).
  destruct (fieldRun_settled field after m1 Hm1) as (m2 & Hrun2 & _ & Hup).
  exists m0, m1, m2. unfold fieldMount. rewrite Hmount.
  repeat split; try assumption.
  intros Hurl. simpl. rewrite (Hflag Hurl eq_refl). simpl.
  now destruct (truthy value).
Qed.

Lemma flag_is_lowered_by_the_switch_only_witness :
  exists m0 m1 m2,
    fieldMount consignment_field (JStr "C") = Ok m0
    /\ fieldRun consignment_field
         [SwitchFlipped false; DropdownOpened (Throw "unused") (Ok graph_AB)]
         m0 = Ok m1
    /\ fieldRun consignment_field [ValueChanged (JStr "A"); DropdownClosed] m1
       = Ok m2
    /\ useDirectInput (cells m0) = true
    /\ useDirectInput (cells m1) = true
    /\ useDirectInput (cells m2) = true.
Proof.
  destruct (flag_is_lowered_by_the_switch_only consignment_field (JStr "C")
              [SwitchFlipped false;
               DropdownOpened (Throw "unused") (Ok graph_AB)]
              [ValueChanged (JStr "A"); DropdownClosed])
    as (m0 & m1 & m2 & Hmount & Hrun1 & Hrun2 & Hflag0 & Hup).
  exists m0, m1, m2. split; [exact Hmount|]. split; [exact Hrun1|].
  split; [exact Hrun2|].
  assert (H1 : useDirectInput (cells m1) = true).
  { vm_compute in Hmount. injection Hmount as <-.
    vm_compute in Hrun1. now injection Hrun1 as <-. }
  split; [exact (Hflag0 eq_refl)|]. split; [exact H1|].
  apply Hup; [|exact H1].
  intros [Hin|[Hin|[]]]; discriminate Hin.
Defined.

(** ** The debounced emission: invariants *)

Section DebounceMore.

Lemma tracking_mount t initialData : tracking (mount t initialData).
Proof.
  split; [apply consistent_mount|]. unfold mount; simpl.
  repeat split; intros; solve [reflexivity | lia].
Qed.

Lemma tracking_elapse t f : tracking f -> tracking (elapse t f).
Proof.
  intros (Hc & Hid & Hm & Hlast).
  split; [now apply consistent_elapse|].
  destruct Hc as (_ & _ & Hheld).
  unfold elapse. destruct (timer f) as [[due held]|] eqn:Htimer.
  - specialize (Hheld due held eq_refl). subst held.
    destruct (Nat.leb_spec due t).
    + unfold fire.
      destruct (Nat.eqb_spec (ident (formData f))
                  (ident (debouncedFormData f))) as [Heq|Hne]; simpl.
      * repeat split; try assumption. intros _. now apply Hid.
      * repeat split. now rewrite last_snoc.
    + simpl. rewrite Htimer. repeat split; try assumption.
      intros Hmounted. specialize (Hm Hmounted). lia.
  - simpl. rewrite Htimer. repeat split; assumption.
Qed.

Lemma tracking_step f ev : tracking f -> tracking (step f ev).
Proof.
  intros Ht.
  assert (Hc : consistent (step f ev))
    by (apply consistent_step, Ht).
  split; [exact Hc|]. clear Hc.
  destruct ev as [t e|t|t]; cbn [step].
  - unfold edit. pose proof (tracking_elapse t f Ht) as Hg.
    set (g := elapse t f) in *. clearbody g.
    destruct Hg as ((Hlt & _) & Hid & Hm & Hlast).
    destruct (mounted g) eqn:Hmounted.
    + simpl. repeat split; try assumption; intros; lia.
    + repeat split; try assumption. intros Hfalse. congruence.
  - unfold newOnSubmit. pose proof (tracking_elapse t f Ht) as Hg.
    set (g := elapse t f) in *. clearbody g.
    destruct Hg as (_ & Hid & Hm & Hlast).
    destruct (mounted g) eqn:Hmounted.
    + simpl. repeat split; try assumption. now rewrite last_snoc.
    + repeat split; try assumption. intros Hfalse. congruence.
  - unfold unmount. pose proof (tracking_elapse t f Ht) as Hg.
    set (g := elapse t f) in *. clearbody g.
    destruct Hg as (_ & Hid & Hm & Hlast).
    simpl. repeat split; try assumption. intros Hfalse. discriminate.
Qed.

Lemma tracking_run events :
  forall f, tracking f -> tracking (run events f).
Proof.
  induction events as [|ev events IH]; intros f Ht; [exact Ht|].
  apply IH. now apply tracking_step.
Qed.

(** X23.  At every moment the last snapshot [onSubmit] received is
    [debouncedFormData]: the parent is never handed a record the form does
    not itself hold as submitted, and is always handed one at mount. *)
Theorem last_submitted_is_debounced
    (initialData : jsval) (t0 : nat) (history : list Event) :
  let f := run history (mount t0 initialData) in
  last (submitted f) = Some (contents (debouncedFormData f)).
Proof.
  intros f. apply (tracking_run history (mount t0 initialData)).
  apply tracking_mount.
Qed.

(** X24.  No edit is lost while the form stays mounted: whatever happened
    before, once [delay] has passed without another event the last snapshot
    submitted is the current record. *)
Theorem quiescent_form_has_submitted_the_record
    (initialData : jsval) (t0 : nat) (history : list Event) (T : nat) :
  let f := run history (mount t0 initialData) in
  mounted f = true ->
  now f + delay <= T ->
  debouncedFormData (elapse T f) = formData f
  /\ last (submitted (elapse T f)) = Some (contents (formData f)).
Proof.
  intros f Hmounted HT.
  assert (Ht : tracking f)
    by apply (tracking_run history (mount t0 initialData)), tracking_mount.
  pose proof (tracking_elapse T f Ht) as (_ & _ & _ & Hlast').
  destruct Ht as ((_ & _ & Hheld) & Hid & Hm & Hlast).
  specialize (Hm Hmounted).
  assert (Hd : debouncedFormData (elapse T f) = formData f).
  { unfold elapse. destruct (timer f) as [[due held]|] eqn:Htimer.
    - specialize (Hheld due held eq_refl). subst held.
      destruct (Nat.leb_spec due T); [|lia].
      unfold fire.
      destruct (Nat.eqb_spec (ident (formData f))
                  (ident (debouncedFormData f))) as [Heq|Hne]; simpl.
      + now apply Hid.
      + reflexivity.
    - simpl. exact Hm. }
  split; [exact Hd|]. now rewrite Hlast', Hd.
Qed.

Lemma after_unmount_step f ev :
  mounted f = false -> timer f = None ->
  mounted (step f ev) = false
  /\ timer (step f ev) = None
  /\ submitted (step f ev) = submitted f
  /\ formData (step f ev) = formData f.
Proof.
  intros Hm Ht.
  assert (He : forall t,
            elapse t f
            = {| mounted := false; now := Nat.max (now f) t;
                 formData := formData f;
                 debouncedFormData := debouncedFormData f; timer := None;
                 submitted := submitted f; next := next f |}).
  { intros t. unfold elapse. rewrite Ht. simpl. now rewrite Hm, Ht. }
  destruct ev as [t e|t|t]; cbn [step]; unfold edit, newOnSubmit, unmount;
    rewrite He; repeat split.
Qed.

(** X22.  Once the form is unmounted nothing that follows calls [onSubmit]
    or changes the record: no edit, no passing of time, no new [onSubmit]. *)
Theorem nothing_after_unmount
    (f : Form) (t T : nat) (events : list Event) :
  let gone := unmount t f in
  submitted (elapse T (run events gone)) = submitted gone
  /\ formData (run events gone) = formData gone.
Proof.
  intros gone.
  assert (Hgone : mounted gone = false /\ timer gone = None)
    by (split; reflexivity).
  clearbody gone. revert gone Hgone.
  induction events as [|ev events IH]; intros g [Hm Ht].
  - simpl. split; [|reflexivity]. unfold elapse. now rewrite Ht.
  - destruct (after_unmount_step g ev Hm Ht) as (Hm' & Ht' & Hs & Hf).
    change (run (ev :: events) g)
      with (run events (step g ev)).
    destruct (IH (step g ev) (conj Hm' Ht')) as [IHs IHf].
    now rewrite IHs, IHf, Hs, Hf.
Qed.

Lemma owed_elapse t f :
  length (submitted f) <= length (submitted (elapse t f))
  /\ length (submitted (elapse t f)) + owed (elapse t f)
     <= length (submitted f) + owed f.
Proof.
  unfold elapse, owed. destruct (timer f) as [[due held]|] eqn:Htimer.
  - destruct (Nat.leb due t).
    + unfold fire.
      destruct (Nat.eqb (ident held) (ident (debouncedFormData f)));
        simpl; rewrite ?length_app; simpl; lia.
    + simpl. rewrite Htimer.
      destruct (Nat.eqb (ident held) (ident (debouncedFormData f))); lia.
  - simpl. rewrite Htimer. lia.
Qed.

Lemma owed_step f ev :
  length (submitted f) <= length (submitted (step f ev))
  /\ length (submitted (step f ev)) + owed (step f ev)
     <= length (submitted f) + owed f + calls [ev].
Proof.
  destruct ev as [t e|t|t]; cbn [step];
    unfold edit, newOnSubmit, unmount, calls; cbn [List.filter length];
    pose proof (owed_elapse t f) as [Hge Hle];
    set (g := elapse t f) in *; clearbody g.
  - destruct (mounted g); [|simpl; lia].
    unfold owed at 1. simpl.
    destruct (Nat.eqb _ _); simpl; lia.
  - destruct (mounted g); [|simpl; lia].
    unfold owed in *. simpl. rewrite length_app. simpl.
    destruct (timer g) as [[due held]|]; simpl; lia.
  - unfold owed at 1. simpl. lia.
Qed.

(** X25.  [onSubmit] is called once at mount and then at most once for each
    edit and each new [onSubmit] handed in.  In particular a form that is
    never edited submits its initial record once and nothing else, the timer
    armed at mount running without effect. *)
Theorem submissions_are_bounded
    (initialData : jsval) (t0 : nat) (history : list Event) (T : nat) :
  let f := elapse T (run history (mount t0 initialData)) in
  1 <= length (submitted f) <= 1 + calls history.
Proof.
  intros f.
  assert (Hrun : forall events g,
            length (submitted g) <= length (submitted (run events g))
            /\ length (submitted (run events g))
               + owed (run events g)
               <= length (submitted g) + owed g + calls events).
  { induction events as [|ev events IH]; intros g; [simpl; lia|].
    simpl. destruct (owed_step g ev) as [Hge Hle].
    destruct (IH (step g ev)) as [IHge IHle].
    assert (calls (ev :: events) = calls [ev] + calls events)
      by now destruct ev.
    lia. }
  destruct (Hrun history (mount t0 initialData)) as [Hge Hle].
  destruct (owed_elapse T (run history (mount t0 initialData)))
    as [Hge' Hle'].
  subst f. change (length (submitted (mount t0 initialData))) with 1 in *.
  change (owed (mount t0 initialData)) with 0 in *.
  lia.
Qed.

End DebounceMore.

Lemma quiescent_form_has_submitted_the_record_witness :
  last (submitted
          (elapse 700
             (run (edit_events five_edits) (mount 0 (JObj [])))))
  = Some (JObj [("pieces", tagged xsd_double "12345")]).
Proof.
  apply (quiescent_form_has_submitted_the_record (JObj []) 0
           (edit_events five_edits) 700).
  - reflexivity.
  - simpl. unfold delay. lia.
Defined.

(** ** An Enum column, from the schema to the record *)

Section EnumColumn.

Variable host : Host.



End EnumColumn.


(** ** Loading the form structure *)

Section FormStructure.

Variable host : Host.
Variable assets : gmap string (list Column.t).

(** X27.  How the form structure loads.  Without an [objectType] nothing is
    loaded and the form stays on its spinner.  When the top-level schema
    cannot be imported, the error is logged, the structure stays [null] and
    loading ends: the form renders no field, and throws nothing.  A schema
    carried by [objectType] is used without importing.  Whenever the load
    settles, loading has ended.  When the columns embed a schema that embeds
    itself the load never settles, so the form stays on its spinner. *)
Theorem form_structure_loading
    (fuel : nat) (imported : Result (list Column.t))
    (objectType : ObjectType.t) (formData : jsval) :
  loadFormStructure assets fuel imported None = Some initialFormView
  /\ (forall e,
        ObjectType.fullSchema objectType = None -> imported = Throw e ->
        exists view,
          loadFormStructure assets fuel imported (Some objectType) = Some view
          /\ formStructure view = None
          /\ formLoading view = false
          /\ formLog view = ["Error loading schema:"]
          /\ renderView host view formData = Ok tt)
  /\ (forall columns imported',
        ObjectType.fullSchema objectType = Some columns ->
        loadFormStructure assets fuel imported (Some objectType)
        = loadFormStructure assets fuel imported' (Some objectType))
  /\ (forall view,
        loadFormStructure assets fuel imported (Some objectType) = Some view ->
        formLoading view = false)
  /\ (forall columns column,
        ObjectType.fullSchema objectType = Some columns ->
        In column columns ->
        Column.schemaType column = "Embedded" ->
        embeds_itself assets (Column.type column) ->
        loadFormStructure assets fuel imported (Some objectType) = None).
Proof.
  split; [reflexivity|]. split; [|split; [|split]].
  - intros e Hfull ->. unfold loadFormStructure. rewrite Hfull.
    eexists. split; [reflexivity|]. repeat split.
  - intros columns imported' Hfull. unfold loadFormStructure.
    now rewrite Hfull.
  - intros view. unfold loadFormStructure.
    destruct (ObjectType.fullSchema objectType) as [columns|].
    + destruct (generateFormFields assets fuel columns) as [[fs log]|];
        simpl; [|discriminate]. now intros [= <-].
    + destruct imported as [columns|e]; [|now intros [= <-]].
      destruct (generateFormFields assets fuel columns) as [[fs log]|];
        simpl; [|discriminate]. now intros [= <-].
  - intros columns column Hfull Hin He Hself. unfold loadFormStructure.
    rewrite Hfull.
    now rewrite (self_embedding_diverges assets (Column.type column) columns
                   column fuel Hself Hin He eq_refl).
Qed.

End FormStructure.

Lemma form_structure_loading_witness :
  loadFormStructure part_assets 9 (Throw "unused") (Some part_object) = None.
Proof.
  destruct (form_structure_loading integral_host part_assets 9
              (Throw "unused") part_object (JObj []))
    as (_ & _ & _ & _ & Hnever).
  apply (Hnever [title_column; part_column] part_column).
  - reflexivity.
  - right. now left.
  - reflexivity.
  - exists [title_column; part_column], part_column.
    split; [vm_compute; reflexivity|].
    split; [right; now left|]. split; reflexivity.
Defined.
